(** * Process Flow Writer: discovery orchestration and flow synthesis

    A shallow embedding of [scripts/build_flow.ts] (the pure function
    [buildFlowArtifacts]) and of [scripts/run_discovery.ts] (the effectful
    [main], its top-level [catch] handler and [writeFallbackUrls]), with the
    helpers of [scripts/lib.ts] they use, followed by the properties the
    specification states about them.

    The other scripts of the pipeline follow: the rest of [scripts/lib.ts],
    [scripts/render_mermaid.ts], [scripts/publish_reports.ts],
    [scripts/run_all.ts], [scripts/run_playwright.ts] and the command-line
    entry of [scripts/build_flow.ts], with the properties their code shows.

    Modelling conventions.
    - A JavaScript string is a [string] of 8-bit characters; [toLowerCase]
      and [trim] act on the ASCII letters and the ASCII white space, and
      the line terminators are the line feed and the carriage return. On
      texts of ASCII characters this is what the engine computes; a
      property that names a class of characters (letters, white space,
      line terminators) is stated for ASCII texts ([JsText.is_ascii]).
    - The trace of [scripts/run_discovery.ts] records the console, the
      docker commands, the requests to the engine, the pauses and the
      writes of [urls.json]; the login session in the browser is one step
      without events, and the run starts at the call of [main].
    - An optional field [f?: T] is an [option T]; truthiness tests are
      written out ([truthy], [flag]).
    - [Array.from(new Set(xs))] keeps the first occurrence of every element
      in insertion order ([Js.Set_of]); [new Map(entries)] lets a later
      entry overwrite an earlier one with the same key ([Js.Map_of]). *)

From Stdlib Require Import ZArith Ascii String DecimalString DecimalNat.
From stdpp Require Import base strings gmap list.

(** ** The JavaScript run-time functions the scripts call *)

Module Js.

(** [Boolean(s)] for a string. *)
Definition truthy (s : string) : bool :=
  match s with "" => false | String _ _ => true end.

(** [Boolean(b)] for an optional boolean field. *)
Definition flag (b : option bool) : bool := default false b.

(** [s.toLowerCase()]: the letters [A-Z] are lowered; every other
    character, those beyond ASCII among them, is kept as it is. *)
Definition lower_ascii (c : ascii) : ascii :=
  let n := nat_of_ascii c in
  if (65 <=? n)%nat && (n <=? 90)%nat then ascii_of_nat (n + 32) else c.

Fixpoint toLowerCase (s : string) : string :=
  match s with
  | "" => ""
  | String c s' => String (lower_ascii c) (toLowerCase s')
  end.

(** [s.includes(kw)] *)
Fixpoint includes (s kw : string) : bool :=
  String.prefix kw s ||
  match s with
  | "" => false
  | String _ s' => includes s' kw
  end.

(** [s.trim()]: the white space of ASCII (tab, line feed, vertical tab,
    form feed, carriage return and space) goes at both ends. *)
Fixpoint trimStart (s : string) : string :=
  match s with
  | "" => ""
  | String c s' => if Ascii.is_space c then trimStart s' else s
  end.

Fixpoint trimEnd (s : string) : string :=
  match s with
  | "" => ""
  | String c s' =>
      let r := trimEnd s' in
      if Ascii.is_space c && negb (truthy r) then "" else String c r
  end.

Definition trim (s : string) : string := trimEnd (trimStart s).

(** [label.replace] with the global pattern matching one double quote
    and a single quote as the replacement. *)
Fixpoint replaceQuotes (s : string) : string :=
  match s with
  | "" => ""
  | String c s' =>
      String (if Ascii.eqb c "034"%char then "039"%char else c)
             (replaceQuotes s')
  end.

Definition newline : string := String "010"%char "".

(** [xs.join(sep)] *)
Definition join (sep : string) (xs : list string) : string :=
  String.concat sep xs.

(** The decimal text of a length or an index, as a template literal
    renders it. *)
Definition natToString (n : nat) : string :=
  NilEmpty.string_of_uint (Nat.to_uint n).

(** The decimal text of an integral [number], which is how a template
    literal renders the integers below ten to the power of 21. *)
Definition numToString (z : Z) : string :=
  NilZero.string_of_int (Z.to_int z).

(** [arr.push(x)] *)
Definition push {A} (arr : list A) (x : A) : list A := arr ++ [x].

(** A [Set] in insertion order. *)
Definition has (s : list string) (x : string) : bool :=
  bool_decide (x ∈ s).

Definition add (s : list string) (x : string) : list string :=
  if has s x then s else s ++ [x].

(** [Array.from(new Set(xs))] *)
Definition Set_of (xs : list string) : list string := foldl add [] xs.

(** [new Map(entries)] *)
Definition Map_of (entries : list (string * string)) : gmap string string :=
  foldl (λ m kv, <[kv.1 := kv.2]> m) ∅ entries.

(** [arr.slice(0, n)] *)
Definition slice0 {A} (n : nat) (arr : list A) : list A := take n arr.

(** *** Character classes used to state facts about texts *)

(** Every character of [s] passes [P]. *)
Fixpoint all_chars (P : ascii → bool) (s : string) : bool :=
  match s with
  | "" => true
  | String c s' => P c && all_chars P s'
  end.

Definition is_digit (c : ascii) : bool :=
  let n := nat_of_ascii c in (48 <=? n)%nat && (n <=? 57)%nat.

Definition differs (c : ascii) : ascii → bool := λ x, negb (Ascii.eqb x c).

(** A character that is a letter [p] or a digit. *)
Definition is_id_char (c : ascii) : bool := Ascii.eqb c "p" || is_digit c.

End Js.

(** ** [scripts/build_flow.ts] *)

Module BuildFlow.
Import Js.

Record NavItem := { text : string; href : option string }.

Record PageContext := {
  url : string;
  title : option string;
  navItems : option (list NavItem);
  links : option (list string);
  hasPasswordInput : option bool;
  loginDetected : option bool;
  hasSearchInput : option bool
}.

Record UxCounts := {
  missingTitlePages : option Z;
  multipleH1Pages : option Z;
  imagesMissingAlt : option Z;
  buttonsMissingLabel : option Z;
  brokenLinks : option Z
}.

Record FlowNode := { id : string; node_url : string; label : string }.

Record FlowMeta := {
  targetUrl : string;
  generatedAt : string;
  nodeCount : nat;
  edgeCount : nat
}.

Record FlowArtifacts := {
  summary : string;
  mermaid : string;
  flowMeta : FlowMeta;
  nodes : list FlowNode;
  edges : list string
}.

Definition normalize (value : string) : string := toLowerCase value.

Definition hasKeyword (value : string) (keywords : list string) : bool :=
  existsb (λ keyword, includes (normalize value) keyword) keywords.

(** The template literal joining [page.url], a space and the title, the
    empty string standing in for a missing title. *)
Definition urlAndTitle (page : PageContext) : string :=
  url page +:+ " " +:+ default "" (title page).

Definition isLogin (page : PageContext) : bool :=
  flag (hasPasswordInput page) || flag (loginDetected page)
  || hasKeyword (url page) ["login"; "signin"; "sign-in"].

Definition isCheckout (page : PageContext) : bool :=
  hasKeyword (urlAndTitle page)
    ["cart"; "checkout"; "payment"; "order"; "basket"].

Definition isAccount (page : PageContext) : bool :=
  hasKeyword (urlAndTitle page)
    ["account"; "profile"; "settings"; "dashboard"].

Definition isSearch (page : PageContext) : bool :=
  flag (hasSearchInput page) || hasKeyword (urlAndTitle page) ["search"].

Definition loginPages (pages : list PageContext) := List.filter isLogin pages.
Definition checkoutPages (pages : list PageContext) := List.filter isCheckout pages.
Definition accountPages (pages : list PageContext) := List.filter isAccount pages.
Definition searchPages (pages : list PageContext) := List.filter isSearch pages.

Definition navSeeds (pages : list PageContext) : list string :=
  List.filter truthy
    (List.map text (List.flat_map (λ page, default [] (navItems page)) pages)).

Definition uniqueNav (pages : list PageContext) : list string :=
  slice0 6 (Set_of (navSeeds pages)).

Definition nonEmpty {A} (l : list A) : bool :=
  match l with [] => false | _ :: _ => true end.

Definition uxCount (uxCounts : option UxCounts) (field : UxCounts → option Z) : string :=
  numToString (default 0%Z (uxCounts ≫= field)).

Definition summaryLines (targetUrl generatedAt : string)
    (pages : list PageContext) (uxCounts : option UxCounts) : list string :=
  [ "# Process Flow Summary";
    "";
    "Target: " +:+ (if truthy targetUrl then targetUrl else "Unknown");
    "Generated: " +:+ generatedAt;
    "";
    "## Main Flows";
    "- Public navigation: Home -> " +:+
      (if nonEmpty (uniqueNav pages) then join " -> " (uniqueNav pages)
       else "Primary pages") ]
  ++ (if nonEmpty (loginPages pages)
      then ["- Login flow: Home -> Login -> Post-login landing"] else [])
  ++ (if nonEmpty (checkoutPages pages)
      then ["- Checkout flow: Browse -> Product -> Cart -> Checkout"] else [])
  ++ (if nonEmpty (searchPages pages)
      then ["- Search flow: Search -> Results -> Detail"] else [])
  ++ (if nonEmpty (accountPages pages)
      then ["- Account flow: Account -> Settings"] else [])
  ++ [ "";
       "## Site Map";
       "- Pages discovered: " +:+ natToString (length pages);
       "- Login-related pages: " +:+ natToString (length (loginPages pages));
       "- Checkout-related pages: " +:+ natToString (length (checkoutPages pages));
       "- Account-related pages: " +:+ natToString (length (accountPages pages));
       "";
       "## UX Checks";
       "- Missing title pages: " +:+ uxCount uxCounts missingTitlePages;
       "- Multiple H1 pages: " +:+ uxCount uxCounts multipleH1Pages;
       "- Images missing alt: " +:+ uxCount uxCounts imagesMissingAlt;
       "- Buttons missing label: " +:+ uxCount uxCounts buttonsMissingLabel;
       "- Broken links (sample): " +:+ uxCount uxCounts brokenLinks;
       "";
       "## Report Files";
       "- Flow diagram: flow.html";
       "- Mermaid source: flow.mmd";
       "- URLs: urls.json";
       "- Page context: pages.json";
       "- Screenshots: screenshots/" ].

(** [`p${index + 1}`] *)
Definition nodeId (index : nat) : string := "p" +:+ natToString (index + 1).

Definition pageLabel (page : PageContext) : string :=
  match title page with
  | Some t =>
      if truthy t then (if truthy (trim t) then trim t else url page)
      else url page
  | None => url page
  end.

Definition mkNode (index : nat) (page : PageContext) : FlowNode :=
  {| id := nodeId index;
     node_url := url page;
     label := replaceQuotes (pageLabel page) |}.

(** [pages.map((page, index) => ...)] *)
Definition buildNodes (pages : list PageContext) : list FlowNode :=
  imap mkNode pages.

Definition urlToId (pages : list PageContext) : gmap string string :=
  Map_of (List.map (λ node, (node_url node, id node)) (buildNodes pages)).

Definition edgeText (fromId toId : string) : string :=
  fromId +:+ " --> " +:+ toId.

(** The inner loop over the links of one page. *)
Definition linkEdges (m : gmap string string) (fromId : string)
    (edges : list string) (page_links : list string) : list string :=
  foldl (λ edges link,
           match m !! link with
           | Some toId =>
               if truthy toId then push edges (edgeText fromId toId) else edges
           | None => edges
           end) edges page_links.

(** The outer loop over the pages. *)
Definition rawEdges (m : gmap string string) (pages : list PageContext) : list string :=
  foldl (λ edges page,
           match m !! url page with
           | Some fromId =>
               if truthy fromId
               then linkEdges m fromId edges (default [] (links page))
               else edges
           | None => edges
           end) [] pages.

Definition limitedEdges (pages : list PageContext) : list string :=
  slice0 120 (Set_of (rawEdges (urlToId pages) pages)).

Definition loginSet (pages : list PageContext) : list string :=
  Set_of (List.map url (loginPages pages)).
Definition checkoutSet (pages : list PageContext) : list string :=
  Set_of (List.map url (checkoutPages pages)).
Definition accountSet (pages : list PageContext) : list string :=
  Set_of (List.map url (accountPages pages)).

(** Four spaces, the node id, and the label between an opening bracket
    with a double quote and a double quote with a closing bracket. *)
Definition dquote : string := String "034"%char "".

Definition nodeLine (node : FlowNode) : string :=
  "    " +:+ id node +:+ "[" +:+ dquote +:+ label node +:+ dquote +:+ "]".

(** One [for (const node of nodes)] loop pushing the lines of the nodes
    that pass [test]. *)
Definition pushNodes (test : FlowNode → bool) (ns : list FlowNode)
    (out : list string) : list string :=
  foldl (λ out node, if test node then push out (nodeLine node) else out) out ns.

Definition inPublic (pages : list PageContext) (node : FlowNode) : bool :=
  let isLogin := has (loginSet pages) (node_url node) in
  let isCheckout := has (checkoutSet pages) (node_url node) in
  let isAccount := has (accountSet pages) (node_url node) in
  negb isLogin && negb isCheckout && negb isAccount.

Definition mermaidLines (pages : list PageContext) : list string :=
  let ns := buildNodes pages in
  let out := push [] "flowchart LR" in
  let out := push out "  subgraph Public" in
  let out := pushNodes (inPublic pages) ns out in
  let out := push out "  end" in
  let out :=
    if nonEmpty (loginPages pages) then
      let out := push out "  subgraph Auth" in
      let out := pushNodes (λ node, has (loginSet pages) (node_url node)) ns out in
      push out "  end"
    else out in
  let out :=
    if nonEmpty (checkoutPages pages) then
      let out := push out "  subgraph Checkout" in
      let out := pushNodes (λ node, has (checkoutSet pages) (node_url node)) ns out in
      push out "  end"
    else out in
  let out :=
    if nonEmpty (accountPages pages) then
      let out := push out "  subgraph Account" in
      let out := pushNodes (λ node, has (accountSet pages) (node_url node)) ns out in
      push out "  end"
    else out in
  foldl (λ out edge, push out ("  " +:+ edge)) out (limitedEdges pages).

Definition buildFlowArtifacts (targetUrl : string) (pages : list PageContext)
    (uxCounts : option UxCounts) (generatedAt : string) : FlowArtifacts :=
  {| summary := join newline (summaryLines targetUrl generatedAt pages uxCounts);
     mermaid := join newline (mermaidLines pages);
     flowMeta := {| targetUrl := targetUrl;
                    generatedAt := generatedAt;
                    nodeCount := length (buildNodes pages);
                    edgeCount := length (limitedEdges pages) |};
     nodes := buildNodes pages;
     edges := limitedEdges pages |}.

(** *** Notions used to state the properties *)

(** [k] is the index of the last page whose url is [u]. *)
Definition isLast (pages : list PageContext) (u : string) (k : nat) : Prop :=
  (∃ page, pages !! k = Some page ∧ url page = u) ∧
  ∀ k' page', k < k' → pages !! k' = Some page' → url page' ≠ u.

(** The edges one page contributes, in the order of its links. *)
Definition pageEdges (m : gmap string string) (page : PageContext) : list string :=
  match m !! url page with
  | Some fromId =>
      if truthy fromId
      then omap (λ link, toId ← m !! link;
                         if truthy toId then Some (edgeText fromId toId) else None)
                (default [] (links page))
      else []
  | None => []
  end.

(** The distinct values of a list in the order of their first occurrence,
    [seen] holding the values met so far. *)
Fixpoint firstOccurrences (seen xs : list string) : list string :=
  match xs with
  | [] => []
  | x :: xs' =>
      if bool_decide (x ∈ seen) then firstOccurrences seen xs'
      else x :: firstOccurrences (x :: seen) xs'
  end.

(** A grouping block of the diagram: its opening line, one line per member
    node, and the closing line. *)
Definition groupBlock (opening : string) (members : list FlowNode) : list string :=
  [opening] ++ List.map nodeLine members ++ ["  end"].

Definition publicMembers (pages : list PageContext) : list FlowNode :=
  List.filter (inPublic pages) (buildNodes pages).
Definition authMembers (pages : list PageContext) : list FlowNode :=
  List.filter (λ node, has (loginSet pages) (node_url node)) (buildNodes pages).
Definition checkoutMembers (pages : list PageContext) : list FlowNode :=
  List.filter (λ node, has (checkoutSet pages) (node_url node)) (buildNodes pages).
Definition accountMembers (pages : list PageContext) : list FlowNode :=
  List.filter (λ node, has (accountSet pages) (node_url node)) (buildNodes pages).

(** Some page with url [u] passes the test [tag]. *)
Definition urlTagged (tag : PageContext → bool) (pages : list PageContext)
    (u : string) : Prop :=
  ∃ page, page ∈ pages ∧ url page = u ∧ tag page = true.

(** A page whose only link is its own url. *)
Definition selfLinkPages : list PageContext :=
  [ {| url := "https://x/"; title := Some "Home"; navItems := None;
       links := Some ["https://x/"]; hasPasswordInput := None;
       loginDetected := None; hasSearchInput := None |} ].

(** Two pages with one url, the first with a password field. *)
Definition sharedUrlPages : list PageContext :=
  [ {| url := "https://x/a"; title := None; navItems := None; links := None;
       hasPasswordInput := Some true; loginDetected := None;
       hasSearchInput := None |};
    {| url := "https://x/a"; title := None; navItems := None; links := None;
       hasPasswordInput := None; loginDetected := None;
       hasSearchInput := None |} ].

(** Three pages, the first and the last with one url, linked with the
    second in both directions. *)
Definition duplicatePages : list PageContext :=
  [ {| url := "https://x/a"; title := None; navItems := None;
       links := Some ["https://x/b"]; hasPasswordInput := None;
       loginDetected := None; hasSearchInput := None |};
    {| url := "https://x/b"; title := None; navItems := None;
       links := Some ["https://x/a"]; hasPasswordInput := None;
       loginDetected := None; hasSearchInput := None |};
    {| url := "https://x/a"; title := None; navItems := None;
       links := Some []; hasPasswordInput := None;
       loginDetected := None; hasSearchInput := None |} ].

(** [n] pages, each linking to all of them. *)
Definition denseSite (n : nat) : list PageContext :=
  let sites := List.map (λ k, "https://x/" +:+ natToString k) (seq 0 n) in
  List.map (λ u, {| url := u; title := None; navItems := None;
                    links := Some sites; hasPasswordInput := None;
                    loginDetected := None; hasSearchInput := None |}) sites.

(** A page without the flags [loginDetected] and [hasSearchInput]. *)
Definition mkPage (u : string) (t : option string) (nav : option (list NavItem))
    (ls : option (list string)) (pw : option bool) : PageContext :=
  {| url := u; title := t; navItems := nav; links := ls;
     hasPasswordInput := pw; loginDetected := None; hasSearchInput := None |}.

(** The page list, the counts and the call of [tests/build_flow.test.ts]. *)
Definition testPages : list PageContext :=
  [ mkPage "https://example.com/" (Some "Home")
      (Some [ {| text := "Shop"; href := Some "/shop" |} ])
      (Some ["https://example.com/login"; "https://example.com/cart"]) None;
    mkPage "https://example.com/login" (Some "Login") None
      (Some ["https://example.com/dashboard"]) (Some true);
    mkPage "https://example.com/cart" (Some "Cart") None (Some []) None ].

Definition testUx : UxCounts :=
  {| missingTitlePages := Some 0%Z; multipleH1Pages := Some 0%Z;
     imagesMissingAlt := Some 0%Z; buttonsMissingLabel := Some 0%Z;
     brokenLinks := Some 0%Z |}.

Definition testArtifacts : FlowArtifacts :=
  buildFlowArtifacts "https://example.com" testPages (Some testUx)
    "2026-02-21T00:00:00.000Z".

End BuildFlow.

(** ** [scripts/run_discovery.ts]

    The script talks to the outside world: it runs [docker] commands, calls
    the HTTP API of the engine, sleeps, prints to the console and writes
    [urls.json]. The model is a state and exception monad over the trace of
    these effects; what the outside world answers is read from an
    environment [Env], one field per kind of call. A status poll that is
    never answered with the awaited value is a run that [Hangs]. *)

Module RunDiscovery.
Import Js.

(** What a call into the outside world does. *)
Inductive outcome (A : Type) : Type :=
| Returns (a : A)
| Throws (message : string).
Arguments Returns {A} a.
Arguments Throws {A} message.

Record Cookie := { name : string; value : string }.

Record UrlEntry := { url : string; source : string }.

(** The object written to [urls.json]. *)
Record UrlsArtifact := {
  targetUrl : string;
  generatedAt : string;
  total : nat;
  sameOrigin : nat;
  urls : list UrlEntry;
  forms : list string;
  links : list string;
  error : option string
}.

Inductive Command :=
| DockerInfo
| DockerRun (containerName zapPort : string) (respectRobots : bool) (maxDepth : Z)
| DockerRm (containerName : string).

Inductive Request :=
| Version
| AddRule (cookieHeader : string)
| SpiderScan (target : string) (maxDepth : Z)
| SpiderStatus (scanId : string)
| AjaxScan (target : string)
| AjaxStatus
| CoreUrls
| SpiderResults (scanId : string).

(** The observable effects; [ok] tells whether the call returned. *)
Inductive Event :=
| Exec (command : Command) (ok : bool)
| Fetch (request : Request)
| Sleep (ms : nat)
| ConsoleWarn (message : string)
| ConsoleError (message : string)
| WriteUrls (artifact : UrlsArtifact) (ok : bool).

(** The secrets [getAuthCookies] reads from the process environment. *)
Record Secrets := {
  LOGIN_URL : option string;
  ZAP_USER : option string;
  ZAP_PASS : option string;
  USER_FIELD : option string;
  PASS_FIELD : option string;
  SUBMIT_SELECTOR : option string
}.

Record Env := {
  TARGET_URL : string;
  CRAWL_DEPTH : Z;
  RESPECT_ROBOTS : bool;
  AUTHENTICATED : bool;
  ZAP_PORT : option string;
  secrets : Secrets;
  (** [zap-${Date.now()}] *)
  containerName : string;
  (** [new Date().toISOString()] at the n-th write of [urls.json] *)
  clock : nat → string;
  (** the browser session of [getAuthCookies], from the launch of the
      browser to its closing *)
  loginSession : outcome (list Cookie);
  dockerInfo : outcome unit;
  dockerRun : outcome unit;
  dockerRm : outcome unit;
  (** [response.ok] of the n-th version request *)
  versionProbe : nat → outcome bool;
  addRule : outcome unit;
  (** [spiderData.scan] *)
  spiderScan : outcome string;
  (** [statusData.status] of the successive polls *)
  spiderStatus : list (outcome string);
  ajaxScan : outcome unit;
  ajaxStatus : list (outcome string);
  (** [coreUrlsData.urls] and [spiderResultsData.results] *)
  coreUrls : outcome (option (list string));
  spiderResults : outcome (option (list string));
  (** [new URL(u).origin], [None] where the constructor throws *)
  urlOrigin : string → option string;
  (** the n-th [writeJson] of [urls.json] *)
  writeUrls : nat → outcome unit
}.

(** The trace so far and the local variable [containerStarted]. *)
Record State := { trace : list Event; containerStarted : bool }.

Inductive result (A : Type) : Type :=
| Done (a : A)
| Raised (message : string)
| Hangs.
Arguments Done {A} a.
Arguments Raised {A} message.
Arguments Hangs {A}.

Definition M (A : Type) : Type := State → result A * State.

#[global] Instance M_ret : MRet M := λ A a s, (Done a, s).

#[global] Instance M_bind : MBind M := λ A B k m s,
  match m s with
  | (Done a, s') => k a s'
  | (Raised e, s') => (Raised e, s')
  | (Hangs, s') => (Hangs, s')
  end.

Definition throw {A} (message : string) : M A := λ s, (Raised message, s).

Definition hang {A} : M A := λ s, (Hangs, s).

Definition emit (ev : Event) : M unit := λ s,
  (Done tt, {| trace := trace s ++ [ev]; containerStarted := containerStarted s |}).

Definition setContainerStarted (b : bool) : M unit := λ s,
  (Done tt, {| trace := trace s; containerStarted := b |}).

Definition getContainerStarted : M bool := λ s, (Done (containerStarted s), s).

Definition getTrace : M (list Event) := λ s, (Done (trace s), s).

(** [try { body } catch (e) { handler(e) }] *)
Definition tryCatch {A} (body : M A) (handler : string → M A) : M A := λ s,
  match body s with
  | (Raised e, s') => handler e s'
  | r => r
  end.

(** [try { body } finally { final }] *)
Definition tryFinally {A} (body : M A) (final : M unit) : M A := λ s,
  match body s with
  | (Hangs, s') => (Hangs, s')
  | (r, s') =>
      match final s' with
      | (Done _, s'') => (r, s'')
      | (Raised e, s'') => (Raised e, s'')
      | (Hangs, s'') => (Hangs, s'')
      end
  end.

Definition lift {A} (o : outcome A) : M A :=
  match o with
  | Returns a => mret a
  | Throws e => throw e
  end.

Definition succeeded {A} (o : outcome A) : bool :=
  match o with Returns _ => true | Throws _ => false end.

(** [execSync(command)] *)
Definition execSync (command : Command) (o : outcome unit) : M unit :=
  emit (Exec command (succeeded o));; lift o.

(** [await fetch(request)], with the reading of the answer *)
Definition fetch {A} (request : Request) (o : outcome A) : M A :=
  emit (Fetch request);; lift o.

Definition isWrite (ev : Event) : bool :=
  match ev with WriteUrls _ _ => true | _ => false end.

Section WithEnv.
Variable env : Env.

(** [writeJson(path.join(reportDir, "urls.json"), data)], [data] taking
    its time stamp from the clock. *)
Definition writeJson (data : string → UrlsArtifact) : M unit :=
  t ← getTrace;
  let n := length (List.filter isWrite t) in
  emit (WriteUrls (data (clock env n)) (succeeded (writeUrls env n)));;
  lift (writeUrls env n).

Definition fallbackArtifact (reason generated : string) : UrlsArtifact :=
  {| targetUrl := TARGET_URL env;
     generatedAt := generated;
     total := 1;
     sameOrigin := 1;
     urls := [ {| url := TARGET_URL env; source := "fallback" |} ];
     forms := [];
     links := [];
     error := Some reason |}.

Definition writeFallbackUrls (reason : string) : M unit :=
  writeJson (fallbackArtifact reason).

Definition missing (v : option string) : bool :=
  match v with Some s => negb (truthy s) | None => true end.

(** [getAuthCookies()]: the session in the browser (its launch, the
    login form, the write of [auth_cookies.json]) is one step, whose
    result is [loginSession env]; it leaves no event in the trace. *)
Definition getAuthCookies : M (option (list Cookie)) :=
  let sec := secrets env in
  if missing (LOGIN_URL sec) || missing (ZAP_USER sec) || missing (ZAP_PASS sec)
     || missing (USER_FIELD sec) || missing (PASS_FIELD sec)
     || missing (SUBMIT_SELECTOR sec)
  then
    emit (ConsoleWarn "Authenticated crawl requested, but required secrets are missing. Falling back to public crawl.");;
    mret None
  else
    cookies ← lift (loginSession env);
    mret (Some cookies).

(** The test of [filterSameOrigin]: the url parses and its origin is
    [origin]. *)
Definition hasOrigin (origin u : string) : bool :=
  match urlOrigin env u with
  | Some o => String.eqb o origin
  | None => false
  end.

(** [filterSameOrigin(urls, target)] of [scripts/lib.ts] *)
Definition filterSameOrigin (us : list string) (target : string) : M (list string) :=
  match urlOrigin env target with
  | None => throw "Invalid URL"
  | Some origin => mret (List.filter (hasOrigin origin) us)
  end.

(** The readiness loop: at most [budget] version requests, one second
    apart, numbered from [attempt]. *)
Fixpoint waitReady (budget attempt : nat) : M bool :=
  match budget with
  | 0 => mret false
  | S budget' =>
      emit (Fetch Version);;
      match versionProbe env attempt with
      | Returns true => mret true
      | _ => emit (Sleep 1000);; waitReady budget' (S attempt)
      end
  end.

(** The status loop of the spider: it ends when a poll answers [100]. *)
Fixpoint pollSpider (scanId : string) (polls : list (outcome string)) : M unit :=
  match polls with
  | [] => hang
  | o :: polls' =>
      emit (Sleep 2000);;
      status ← fetch (SpiderStatus scanId) o;
      if String.eqb status "100" then mret tt else pollSpider scanId polls'
  end.

(** The status loop of the AJAX spider: it ends when a poll answers
    [stopped]. *)
Fixpoint pollAjax (polls : list (outcome string)) : M unit :=
  match polls with
  | [] => hang
  | o :: polls' =>
      emit (Sleep 3000);;
      status ← fetch AjaxStatus o;
      if String.eqb status "stopped" then mret tt else pollAjax polls'
  end.

Definition successArtifact (all filtered : list string) (generated : string)
    : UrlsArtifact :=
  {| targetUrl := TARGET_URL env;
     generatedAt := generated;
     total := length all;
     sameOrigin := length filtered;
     urls := List.map (λ u, {| url := u; source := "zap" |}) filtered;
     forms := [];
     links := [];
     error := None |}.

(** The [try] block of [main] from the readiness loop to the
    aggregation of the urls. *)
Definition scan (cookieHeader : string) : M (list string * list string) :=
  ready ← waitReady 90 0;
  (if ready : bool then mret tt else throw "ZAP API did not become ready.");;
  (if truthy cookieHeader
   then fetch (AddRule cookieHeader) (addRule env) else mret tt);;
  scanId ← fetch (SpiderScan (TARGET_URL env) (CRAWL_DEPTH env)) (spiderScan env);
  pollSpider scanId (spiderStatus env);;
  fetch (AjaxScan (TARGET_URL env)) (ajaxScan env);;
  pollAjax (ajaxStatus env);;
  core ← fetch CoreUrls (coreUrls env);
  spider ← fetch (SpiderResults scanId) (spiderResults env);
  let all := Set_of (default [] core ++ default [] spider) in
  filtered ← filterSameOrigin all (TARGET_URL env);
  mret (all, filtered).

(** The rest of the [try] block: the scan and the write of its result. *)
Definition scanAndWrite (cookieHeader : string) : M unit :=
  found ← scan cookieHeader;
  let '(all, filtered) := found : list string * list string in
  writeJson (successArtifact all filtered).

Definition tryBlock (cookieHeader : string) : M unit :=
  execSync (DockerRun (containerName env) (default "8090" (ZAP_PORT env))
              (RESPECT_ROBOTS env) (CRAWL_DEPTH env)) (dockerRun env);;
  setContainerStarted true;;
  scanAndWrite cookieHeader.

Definition catchBlock (message : string) : M unit :=
  emit (ConsoleError ("Discovery failed: " +:+ message));;
  writeFallbackUrls "zap_failed".

Definition finallyBlock : M unit :=
  started ← getContainerStarted;
  if started : bool
  then tryCatch (execSync (DockerRm (containerName env)) (dockerRm env))
                (λ _, mret tt)
  else mret tt.

Definition cookieHeaderOf (cookies : option (list Cookie)) : string :=
  match cookies with
  | Some (c :: cs) =>
      join "; " (List.map (λ cookie, name cookie +:+ "=" +:+ value cookie) (c :: cs))
  | _ => ""
  end.

(** The opening of [main]: the cookie header of an authenticated
    crawl, the empty string otherwise. *)
Definition authPhase : M string :=
  if AUTHENTICATED env
  then cookies ← getAuthCookies; mret (cookieHeaderOf cookies)
  else mret "".

(** The probe of the host runtime; [false] stands for the [return] in
    its [catch] block. *)
Definition checkRuntime : M bool :=
  tryCatch (execSync DockerInfo (dockerInfo env);; mret true)
           (λ _, emit (ConsoleWarn "Docker is not available. Writing fallback URLs only.");;
                 writeFallbackUrls "docker_unavailable";;
                 mret false).

Definition main : M unit :=
  cookieHeader ← authPhase;
  dockerAvailable ← checkRuntime;
  if dockerAvailable : bool
  then
    setContainerStarted false;;
    tryFinally (tryCatch (tryBlock cookieHeader) catchBlock) finallyBlock
  else mret tt.

(** The handler of [main().catch(...)]. *)
Definition topHandler (message : string) : M unit :=
  emit (ConsoleError ("Discovery failed: " +:+ message));;
  writeFallbackUrls "unexpected_error".

(** [main().catch(...)], the run of the script from the call of [main]
    on: the test of [TARGET_URL] and the write of [meta.json] come before
    it. *)
Definition discover : M unit := tryCatch main topHandler.

Definition run : result unit * State :=
  discover {| trace := []; containerStarted := false |}.

End WithEnv.

(** *** Notions used to state the properties *)

Definition isTeardown (ev : Event) : bool :=
  match ev with Exec (DockerRm _) _ => true | _ => false end.

Definition isEngineStart (ev : Event) : bool :=
  match ev with Exec (DockerRun _ _ _ _) true => true | _ => false end.

Definition isVersionRequest (ev : Event) : bool :=
  match ev with Fetch Version => true | _ => false end.

Definition isConsole (ev : Event) : bool :=
  match ev with ConsoleWarn _ | ConsoleError _ => true | _ => false end.

(** The engine instance was started: [docker run] returned. *)
Definition engineStarted (t : list Event) : bool := existsb isEngineStart t.

Definition teardowns (t : list Event) : list Event := List.filter isTeardown t.

(** The union of the two url lists of the engine, without duplicates. *)
Definition allUrls (core spider : option (list string)) : list string :=
  Set_of (default [] core ++ default [] spider).

(** What [scan] returns: the deduplicated union of the two url lists of
    the engine and its members with the origin of the target. *)
Definition scanned (env : Env) (found : list string * list string) : Prop :=
  ∃ core spider origin,
    coreUrls env = Returns core ∧ spiderResults env = Returns spider ∧
    urlOrigin env (TARGET_URL env) = Some origin ∧
    found = (allUrls core spider,
             List.filter (hasOrigin env origin) (allUrls core spider)).

(** The reason codes of [writeFallbackUrls] in the script. *)
Definition reasonCodes : list string :=
  ["docker_unavailable"; "zap_failed"; "unexpected_error"].

(** The reason codes the specification lists. *)
Definition specReasonCodes : list string :=
  ["engine_unavailable"; "ready_timeout"; "scan_failed"; "unexpected_error"].

(** How a run stands with respect to the engine instance, [evs] being
    the events of the run: the engine was not started and there is no
    teardown; or it was started and the run hangs before any teardown; or
    it was started and the run ends after exactly one teardown. *)
Definition teardownShape (env : Env) (r : result unit) (evs : list Event) : Prop :=
  (engineStarted evs = false ∧ teardowns evs = []) ∨
  (engineStarted evs = true ∧ r = Hangs ∧ teardowns evs = []) ∨
  (engineStarted evs = true ∧ r ≠ Hangs ∧
   teardowns evs = [Exec (DockerRm (containerName env)) (succeeded (dockerRm env))]).

(** A trace with the outcome of every [docker rm] forgotten. *)
Definition forgetTeardown (ev : Event) : Event :=
  match ev with
  | Exec (DockerRm n) _ => Exec (DockerRm n) true
  | _ => ev
  end.

Definition normal (t : list Event) : list Event := List.map forgetTeardown t.

Definition consoleLines (t : list Event) : list Event := List.filter isConsole t.

(** What the script may write to [urls.json]: a fallback artifact with one
    of its reason codes, or the artifact of a scan that returned. *)
Definition artifactEvent (env : Env) (ev : Event) : Prop :=
  match ev with
  | WriteUrls a _ =>
      (∃ reason, reason ∈ reasonCodes ∧
                 a = fallbackArtifact env reason (generatedAt a)) ∨
      (∃ found, scanned env found ∧
                a = successArtifact env found.1 found.2 (generatedAt a))
  | _ => True
  end.


(** The state in which a run starts. *)
Definition initial : State := {| trace := []; containerStarted := false |}.

(** The state in which [main] enters its [try] block, [s] being the state
    after the opening of [main]. *)
Definition atTry (s : State) : State :=
  {| trace := trace s ++ [Exec DockerInfo true]; containerStarted := false |}.

(** The events of [n] failed rounds of the readiness loop. *)
Definition probeEvents (n : nat) : list Event :=
  mjoin (replicate n [Fetch Version; Sleep 1000]).

(** The artifacts that reached [urls.json], oldest first. *)
Definition written (t : list Event) : list UrlsArtifact :=
  omap (λ ev, match ev with WriteUrls a true => Some a | _ => None end) t.

(** The artifacts the script tried to write. *)
Definition attempted (t : list Event) : list UrlsArtifact :=
  omap (λ ev, match ev with WriteUrls a _ => Some a | _ => None end) t.

(** *** A program logic for the monad

    [spec Q R m]: from any state, [m] appends events that all satisfy [Q]
    and a value it returns satisfies [R]. [keeps m]: [m] leaves the
    variable [containerStarted] as it is. *)

Definition spec {A} (Q : Event → Prop) (R : A → Prop) (m : M A) : Prop :=
  ∀ s, ∃ evs, trace (m s).2 = trace s ++ evs ∧ Forall Q evs ∧
              ∀ a, (m s).1 = Done a → R a.

Definition keeps {A} (m : M A) : Prop :=
  ∀ s, containerStarted (m s).2 = containerStarted s.

Definition any {A} : A → Prop := λ _, True.

(** A property of events that holds of every request, pause and console
    line. *)
Definition benign (Q : Event → Prop) : Prop :=
  (∀ r, Q (Fetch r)) ∧ (∀ ms, Q (Sleep ms)) ∧
  (∀ msg, Q (ConsoleWarn msg)) ∧ (∀ msg, Q (ConsoleError msg)).

(** An event that neither starts the engine nor removes it. *)
Definition quietEvent (ev : Event) : Prop :=
  isTeardown ev = false ∧ isEngineStart ev = false.

(** An event that is no write of [urls.json]. *)
Definition silentEvent (ev : Event) : Prop := isWrite ev = false.

(** [returns m]: from no state does [m] hang. *)
Definition returns {A} (m : M A) : Prop := ∀ s, (m s).1 ≠ Hangs.

(** A poll that ends a status loop awaiting [awaited]: it answers the
    awaited value or it throws. *)
Definition settles (awaited : string) (o : outcome string) : bool :=
  match o with
  | Returns status => String.eqb status awaited
  | Throws _ => true
  end.

(** The two status loops of [env] come to an end. *)
Definition pollsSettle (env : Env) : Prop :=
  existsb (settles "100") (spiderStatus env) = true ∧
  existsb (settles "stopped") (ajaxStatus env) = true.

(** The result of a call that returns nothing. *)
Definition raised (o : outcome unit) : result unit :=
  match o with Returns _ => Done tt | Throws e => Raised e end.

(** The event of a successful start of the engine. *)
Definition engineStart (env : Env) : Event :=
  Exec (DockerRun (containerName env) (default "8090" (ZAP_PORT env))
          (RESPECT_ROBOTS env) (CRAWL_DEPTH env)) true.

(** The event of the removal of the engine. *)
Definition teardown (env : Env) : Event :=
  Exec (DockerRm (containerName env)) (succeeded (dockerRm env)).

(** What the top-level handler writes after the failure of the n-th
    write inside [main]: nothing when that write returned. *)
Definition afterFailedWrite (env : Env) (n : nat) : list UrlsArtifact :=
  match writeUrls env n with
  | Returns _ => []
  | Throws _ => [fallbackArtifact env "unexpected_error" (clock env (S n))]
  end.

(** [env] with another answer to [docker rm]. *)
Definition withDockerRm (o : outcome unit) (env : Env) : Env :=
  {| TARGET_URL := TARGET_URL env; CRAWL_DEPTH := CRAWL_DEPTH env;
     RESPECT_ROBOTS := RESPECT_ROBOTS env; AUTHENTICATED := AUTHENTICATED env;
     ZAP_PORT := ZAP_PORT env; secrets := secrets env;
     containerName := containerName env; clock := clock env;
     loginSession := loginSession env; dockerInfo := dockerInfo env;
     dockerRun := dockerRun env; dockerRm := o;
     versionProbe := versionProbe env; addRule := addRule env;
     spiderScan := spiderScan env; spiderStatus := spiderStatus env;
     ajaxScan := ajaxScan env; ajaxStatus := ajaxStatus env;
     coreUrls := coreUrls env; spiderResults := spiderResults env;
     urlOrigin := urlOrigin env; writeUrls := writeUrls env |}.

(** *** Example environments *)

(** A stand-in for the origin of [new URL(u)] on the urls of the examples. *)
Definition exampleOrigin (u : string) : option string :=
  if String.eqb u "https://example.com" || String.prefix "https://example.com/" u
  then Some "https://example.com"
  else if String.prefix "https://" u then Some "https://elsewhere" else None.

Definition noSecrets : Secrets :=
  {| LOGIN_URL := None; ZAP_USER := None; ZAP_PASS := None;
     USER_FIELD := None; PASS_FIELD := None; SUBMIT_SELECTOR := None |}.

(** A public crawl of [https://example.com] in which every call returns,
    but for the answers given as arguments. *)
Definition exampleEnv (info rm : outcome unit) (probe : nat → outcome bool)
    (polls : list (outcome string)) : Env :=
  {| TARGET_URL := "https://example.com"; CRAWL_DEPTH := 3;
     RESPECT_ROBOTS := true; AUTHENTICATED := false;
     ZAP_PORT := None; secrets := noSecrets;
     containerName := "zap-1771632000000";
     clock := λ _, "2026-02-21T00:00:00.000Z";
     loginSession := Returns [];
     dockerInfo := info; dockerRun := Returns tt; dockerRm := rm;
     versionProbe := probe; addRule := Returns tt;
     spiderScan := Returns "0"; spiderStatus := polls;
     ajaxScan := Returns tt;
     ajaxStatus := [Returns "running"; Returns "stopped"];
     coreUrls := Returns (Some ["https://example.com/";
                                "https://example.com/login";
                                "https://cdn.elsewhere.net/app.js"]);
     spiderResults := Returns (Some ["https://example.com/login";
                                     "https://example.com/cart"]);
     urlOrigin := exampleOrigin;
     writeUrls := λ _, Returns tt |}.

Definition readyAtThird (attempt : nat) : outcome bool :=
  if (attempt <? 2)%nat then Throws "ECONNREFUSED" else Returns true.

Definition spiderTwoPolls : list (outcome string) := [Returns "40"; Returns "100"].

(** Every call returns. *)
Definition successEnv : Env :=
  exampleEnv (Returns tt) (Returns tt) readyAtThird spiderTwoPolls.

(** The scan succeeds and [docker rm] fails. *)
Definition teardownFailsEnv : Env :=
  exampleEnv (Returns tt) (Throws "docker rm failed") readyAtThird spiderTwoPolls.

(** [docker info] fails. *)
Definition noDockerEnv : Env :=
  exampleEnv (Throws "docker: command not found") (Returns tt) readyAtThird
    spiderTwoPolls.

(** The engine never answers the version request. *)
Definition neverReadyEnv : Env :=
  exampleEnv (Returns tt) (Returns tt) (λ _, Throws "ECONNREFUSED") spiderTwoPolls.

(** A status poll of the spider fails. *)
Definition scanFailsEnv : Env :=
  exampleEnv (Returns tt) (Returns tt) readyAtThird
    [Returns "40"; Throws "socket hang up"].

(** The artifact of the run in [successEnv]. *)
Definition successWritten : UrlsArtifact :=
  successArtifact successEnv
    ["https://example.com/"; "https://example.com/login";
     "https://cdn.elsewhere.net/app.js"; "https://example.com/cart"]
    ["https://example.com/"; "https://example.com/login";
     "https://example.com/cart"]
    "2026-02-21T00:00:00.000Z".

End RunDiscovery.

(** ** More of the JavaScript run time: texts

    The string methods and the regular expressions of [scripts/lib.ts],
    [scripts/render_mermaid.ts] and [scripts/run_playwright.ts]. *)

Module JsText.
Import Js.

(** [s.startsWith(pre)] *)
Definition startsWith (s pre : string) : bool := String.prefix pre s.

(** [s.slice(0, n)] for a text *)
Fixpoint sliceString (n : nat) (s : string) : string :=
  match n, s with
  | S n', String c s' => String c (sliceString n' s')
  | _, _ => ""
  end.

(** [s.replace(pattern, rep)] for a global pattern that is an alternative
    of non-empty literal texts [pats]: the text is read from left to
    right, a match is replaced and the reading goes on behind it ([skip]
    characters of the match are still to be passed over); what was put in
    is not read again. *)
Fixpoint replaceFrom (pats : list string) (rep : string) (skip : nat)
    (s : string) : string :=
  match s with
  | "" => ""
  | String c s' =>
      match skip with
      | S skip' => replaceFrom pats rep skip' s'
      | 0 =>
          match List.find (λ pat, String.prefix pat s) pats with
          | Some pat => rep +:+ replaceFrom pats rep (String.length pat - 1) s'
          | None => String c (replaceFrom pats rep 0 s')
          end
      end
  end.

Definition replaceAll (pats : list string) (rep s : string) : string :=
  replaceFrom pats rep 0 s.

(** [s.replace(pattern, rep)] for a global pattern that matches every
    maximal run of characters of a class; [inRun] tells that the
    character before belongs to a run already replaced. *)
Fixpoint replaceRuns (inClass : ascii → bool) (rep : string) (inRun : bool)
    (s : string) : string :=
  match s with
  | "" => ""
  | String c s' =>
      if inClass c
      then (if inRun then replaceRuns inClass rep true s'
            else rep +:+ replaceRuns inClass rep true s')
      else String c (replaceRuns inClass rep false s')
  end.

(** The removal of the run of [P] characters at the start of a text, and
    of the one at its end. *)
Fixpoint dropStart (P : ascii → bool) (s : string) : string :=
  match s with
  | "" => ""
  | String c s' => if P c then dropStart P s' else s
  end.

Fixpoint dropEnd (P : ascii → bool) (s : string) : string :=
  match s with
  | "" => ""
  | String c s' =>
      let r := dropEnd P s' in
      if P c && negb (truthy r) then "" else String c r
  end.

Fixpoint repeatChar (n : nat) (c : ascii) : string :=
  match n with
  | 0 => ""
  | S n' => String c (repeatChar n' c)
  end.

(** [s.padStart(n, fill)] for a fill of one character *)
Definition padStart (n : nat) (fill : ascii) (s : string) : string :=
  repeatChar (n - String.length s) fill +:+ s.

(** The characters of the class [a-z0-9]. *)
Definition is_lower_alnum (c : ascii) : bool :=
  let n := nat_of_ascii c in
  ((97 <=? n)%nat && (n <=? 122)%nat) || is_digit c.

Definition is_dash (c : ascii) : bool := Ascii.eqb c "-".

(** The ASCII characters the dot of a pattern does not match: the line
    feed and the carriage return. *)
Definition is_line_terminator (c : ascii) : bool :=
  Ascii.eqb c "010" || Ascii.eqb c "013".

(** The characters of the class written with a question mark and a hash
    sign. *)
Definition is_query_start (c : ascii) : bool :=
  Ascii.eqb c "?" || Ascii.eqb c "#".

(** *** Notions used to state facts about texts *)

(** The first character of a text passes [P]. *)
Definition headIs (P : ascii → bool) (s : string) : bool :=
  match s with
  | "" => false
  | String c _ => P c
  end.

(** No two neighbours in a text both pass [P]. *)
Fixpoint apart (P : ascii → bool) (s : string) : bool :=
  match s with
  | "" => true
  | String c s' => negb (P c && headIs P s') && apart P s'
  end.

(** What a global replacement of the one character [p] does. *)
Fixpoint substChar (p : ascii) (rep : string) (s : string) : string :=
  match s with
  | "" => ""
  | String c s' =>
      (if Ascii.eqb p c then rep else String c "") +:+ substChar p rep s'
  end.

(** The characters of ASCII, the code units below 128. *)
Definition is_ascii (c : ascii) : bool := (nat_of_ascii c <? 128)%nat.

(** A text without a line feed. *)
Definition noLineFeed (s : string) : bool := all_chars (differs "010") s.

(** The lines of a text, the pieces between its line feeds: what
    [s.split] gives for the separator of one line feed. *)
Fixpoint linesOf (s : string) : list string :=
  match s with
  | "" => [""]
  | String c s' =>
      if Ascii.eqb c "010" then "" :: linesOf s'
      else match linesOf s' with
           | l :: ls => String c l :: ls
           | [] => [String c ""]
           end
  end.

(** The number of occurrences of a character in a text. *)
Fixpoint countChar (c : ascii) (s : string) : nat :=
  match s with
  | "" => 0
  | String x s' => (if Ascii.eqb x c then 1 else 0) + countChar c s'
  end.

(** [arr.slice(0, n)] for an integral [n]: a negative [n] counts from the
    end of the array. *)
Definition sliceTo {A} (n : Z) (arr : list A) : list A :=
  if (n <? 0)%Z then take (length arr - Z.to_nat (- n)) arr
  else take (Z.to_nat n) arr.

End JsText.

(** ** [scripts/lib.ts] *)

Module Lib.
Import Js JsText.
Import RunDiscovery (outcome, Returns, Throws).

(** The local date and time [new Date()] gives, as its getters return
    it; [month] counts from zero. *)
Record DateTime := {
  fullYear : nat;
  month : nat;
  date : nat;
  hours : nat;
  minutes : nat;
  seconds : nat
}.

(** [String(value).padStart(2, "0")] *)
Definition pad (value : nat) : string := padStart 2 "0" (natToString value).

Definition timestamp (now : DateTime) : string :=
  natToString (fullYear now) +:+ pad (month now + 1) +:+ pad (date now)
  +:+ "-" +:+ pad (hours now) +:+ pad (minutes now) +:+ pad (seconds now).

Definition slugify (input : string) : string :=
  let s := toLowerCase input in
  let s := replaceAll ["https://"; "http://"] "" s in
  let s := replaceRuns (λ c, negb (is_lower_alnum c)) "-" false s in
  let s := dropEnd is_dash (dropStart is_dash s) in
  let s := sliceString 80 s in
  if truthy s then s else "page".

(** [readJson(filePath, fallback)]: [file] is [None] when no file exists
    at the path, and otherwise what reading and parsing it gives. *)
Definition readJson {T} (file : option (outcome T)) (fallback : T) : outcome T :=
  match file with
  | None => Returns fallback
  | Some parsed => parsed
  end.

(** [filterSameOrigin(urls, target)], [urlOrigin u] being the origin of
    [new URL(u)], [None] where the constructor throws. *)
Definition sameOrigin (urlOrigin : string → option string) (origin u : string) : bool :=
  match urlOrigin u with
  | Some o => String.eqb o origin
  | None => false
  end.

Definition filterSameOrigin (urlOrigin : string → option string)
    (urls : list string) (target : string) : outcome (list string) :=
  match urlOrigin target with
  | None => Throws "Invalid URL"
  | Some origin => Returns (List.filter (sameOrigin urlOrigin origin) urls)
  end.

(** [toAbsoluteUrl(url, base)], [resolve url base] being the text of
    [new URL(url, base)], [None] where the constructor throws. *)
Definition toAbsoluteUrl (resolve : string → string → option string)
    (url base : string) : string :=
  match resolve url base with
  | Some absolute => absolute
  | None => url
  end.

(** [url.replace(pattern, "")] for the pattern of a question mark or a
    hash sign followed by the rest of the text: the first such character
    from which no line terminator follows, and all behind it, go. *)
Fixpoint stripQuery (url : string) : string :=
  match url with
  | "" => ""
  | String c rest =>
      if is_query_start c && all_chars (λ x, negb (is_line_terminator x)) rest
      then ""
      else String c (stripQuery rest)
  end.

Definition safeUrlFilename (url : string) : string := slugify (stripQuery url).

(** *** Notions used to state the properties *)

(** The characters a slug is made of. *)
Definition is_slug_char (c : ascii) : bool := is_lower_alnum c || is_dash c.

(** A date and time whose fields are in the ranges of the getters. *)
Definition inRange (d : DateTime) : bool :=
  (month d <? 12)%nat && (1 <=? date d)%nat && (date d <=? 31)%nat
  && (hours d <? 24)%nat && (minutes d <? 60)%nat && (seconds d <? 60)%nat.

(** Five past nine in the morning of the 21st of February 2026. *)
Definition exampleMoment : DateTime :=
  {| fullYear := 2026; month := 1; date := 21; hours := 9; minutes := 5;
     seconds := 0 |}.

(** The text of [slugify] before the empty one is replaced. *)
Definition slugText (input : string) : string :=
  sliceString 80
    (dropEnd is_dash
       (dropStart is_dash
          (replaceRuns (λ c, negb (is_lower_alnum c)) "-" false
             (replaceAll ["https://"; "http://"] "" (toLowerCase input))))).

(** A text without letters and digits. *)
Definition noAlnum (s : string) : bool :=
  all_chars (λ c, negb (is_lower_alnum (lower_ascii c))) s.

End Lib.

(** ** [scripts/render_mermaid.ts] *)

Module RenderMermaid.
Import Js JsText.

Definition escapeHtml (value : string) : string :=
  replaceAll [">"] "&gt;" (replaceAll ["<"] "&lt;" (replaceAll ["&"] "&amp;" value)).

(** *** Notions used to state the properties *)

(** What stands for one character in an escaped text. *)
Definition entity (c : ascii) : string :=
  if Ascii.eqb c "&" then "&amp;"
  else if Ascii.eqb c "<" then "&lt;"
  else if Ascii.eqb c ">" then "&gt;"
  else String c "".

Fixpoint entities (s : string) : string :=
  match s with
  | "" => ""
  | String c s' => entity c +:+ entities s'
  end.

Definition is_angle (c : ascii) : bool := Ascii.eqb c "<" || Ascii.eqb c ">".

End RenderMermaid.

(** ** [scripts/publish_reports.ts]

    The copy of a report directory into the published site and the update
    of the index of the reports. A directory is the list of its entries,
    as [fs.readdirSync] gives them. *)

Module PublishReports.
Import Js JsText Lib.
Import RunDiscovery (outcome, Returns, Throws).

Record ReportEntry := {
  timestamp : string;
  targetUrl : string;
  generatedAt : string;
  summaryPath : string;
  flowPath : string
}.

(** [meta.json] as the script reads it. *)
Record Meta := { meta_targetUrl : option string; startedAt : option string }.

#[warnings="-register-all"]
Inductive Node :=
| File (content : string)
| Dir (entries : list (string * Node)).

Definition ignoreFiles : list string := Set_of ["auth_cookies.json"].

(** What the loop of [copyDir] leaves at the destination for one entry of
    the source: the copy of a file, or the directory [copyDir] makes of a
    directory. The destination is new: the script removes it before. *)
Fixpoint copyEntry (node : Node) : Node :=
  match node with
  | File content => File content
  | Dir entries =>
      Dir ((fix copyDir (source : list (string * Node)) : list (string * Node) :=
              match source with
              | [] => []
              | (name, child) :: rest =>
                  if has ignoreFiles name then copyDir rest
                  else (name, copyEntry child) :: copyDir rest
              end) entries)
  end.

Fixpoint copyDir (source : list (string * Node)) : list (string * Node) :=
  match source with
  | [] => []
  | (name, child) :: rest =>
      if has ignoreFiles name then copyDir rest
      else (name, copyEntry child) :: copyDir rest
  end.

(** The entry of the report in the index; [stamp] is the base name of the
    report directory and [now] the time of the run. *)
Definition entry (stamp : string) (meta : Meta) (now : string) : ReportEntry :=
  {| timestamp := stamp;
     targetUrl := default "" (meta_targetUrl meta);
     generatedAt := default now (startedAt meta);
     summaryPath := "./reports/" +:+ stamp +:+ "/summary.md";
     flowPath := "./reports/" +:+ stamp +:+ "/flow.html" |}.

(** The new value of [indexData.reports]. *)
Definition updateReports (stamp : string) (meta : Meta) (now : string)
    (reports : option (list ReportEntry)) : list ReportEntry :=
  let filtered :=
    List.filter (λ item, negb (String.eqb (timestamp item) stamp))
      (default [] reports) in
  slice0 50 (entry stamp meta now :: filtered).

(** The index the script writes, from [meta.json] and [index.json] as
    [readJson] finds them. *)
Definition newIndex (stamp : string) (metaFile : option (outcome Meta))
    (indexFile : option (outcome (option (list ReportEntry)))) (now : string)
    : outcome (list ReportEntry) :=
  match readJson metaFile
          {| meta_targetUrl := Some ""; startedAt := Some now |} with
  | Throws e => Throws e
  | Returns meta =>
      match readJson indexFile (Some []) with
      | Throws e => Throws e
      | Returns reports => Returns (updateReports stamp meta now reports)
      end
  end.

(** *** Notions used to state the properties *)

(** The entry called [name] of a directory. *)
Fixpoint entryNamed (name : string) (entries : list (string * Node)) : option Node :=
  match entries with
  | [] => None
  | (n, node) :: rest => if String.eqb n name then Some node else entryNamed name rest
  end.

(** What is found at a path below a node. *)
Fixpoint resolve (path : list string) (node : Node) : option Node :=
  match path with
  | [] => Some node
  | name :: rest =>
      match node with
      | Dir entries =>
          match entryNamed name entries with
          | Some child => resolve rest child
          | None => None
          end
      | File _ => None
      end
  end.

(** A report directory with a cookie file at its top and one below. *)
Definition exampleReport : list (string * Node) :=
  [ ("urls.json", File "{}");
    ("auth_cookies.json", File "secret");
    ("screenshots",
     Dir [ ("home.png", File "png"); ("auth_cookies.json", File "secret") ]) ].

Definition exampleIndex : list ReportEntry :=
  [ entry "20260221-120000" {| meta_targetUrl := Some "https://example.com";
                               startedAt := Some "2026-02-21T12:00:00.000Z" |} "";
    entry "20260220-080000" {| meta_targetUrl := Some "https://example.com";
                               startedAt := Some "2026-02-20T08:00:00.000Z" |} "" ].

End PublishReports.

(** ** The command-line entry of [scripts/build_flow.ts] *)

Module BuildFlowScript.
Import Js JsText Lib BuildFlow.
Import RunDiscovery (outcome, Returns, Throws).

(** The three files as [main] reads them; of [urls.json] it reads the
    target only. *)
Record UrlsData := { urls_targetUrl : option string }.
Record PagesData := { pages_targetUrl : option string; pages : option (list PageContext) }.
Record UxData := { counts : option UxCounts }.

(** What [main] writes: [summary.md], [flow.mmd] and [flow_meta.json]. *)
Record Written := { summaryMd : string; flowMmd : string; flowMetaJson : FlowMeta }.

Definition noCounts : UxCounts :=
  {| missingTitlePages := None; multipleH1Pages := None; imagesMissingAlt := None;
     buttonsMissingLabel := None; brokenLinks := None |}.

(** [a || b] for an optional text [a] *)
Definition orElse (a : option string) (b : string) : string :=
  match a with
  | Some s => if truthy s then s else b
  | None => b
  end.

Definition main (urlsFile : option (outcome UrlsData))
    (pagesFile : option (outcome PagesData)) (uxFile : option (outcome UxData))
    (now : string) : outcome Written :=
  match readJson urlsFile {| urls_targetUrl := Some "" |} with
  | Throws e => Throws e
  | Returns urlsData =>
      match readJson pagesFile {| pages_targetUrl := None; pages := Some [] |} with
      | Throws e => Throws e
      | Returns pagesData =>
          match readJson uxFile {| counts := Some noCounts |} with
          | Throws e => Throws e
          | Returns uxData =>
              let targetUrl :=
                orElse (urls_targetUrl urlsData)
                  (orElse (pages_targetUrl pagesData) "") in
              let a := buildFlowArtifacts targetUrl (default [] (pages pagesData))
                         (Some (default noCounts (counts uxData))) now in
              Returns {| summaryMd := summary a; flowMmd := mermaid a;
                         flowMetaJson := flowMeta a |}
          end
      end
  end.

End BuildFlowScript.

(** ** [scripts/run_all.ts] *)

Module RunAll.
Import Js.
Import RunDiscovery (outcome, Returns, Throws).

(** How the script ends: by [process.exit(1)], by an exception of
    [execSync] that nothing catches, or at its last line. *)
Inductive ending :=
| Exited (code : Z)
| Crashed (message : string)
| Completed.

Definition stages : list string :=
  [ "npx tsx scripts/run_discovery.ts";
    "npx tsx scripts/run_playwright.ts";
    "npx tsx scripts/build_flow.ts";
    "npx tsx scripts/render_mermaid.ts";
    "npx tsx scripts/publish_reports.ts" ].

(** The calls of [run] one after the other; the first component lists
    the commands handed to [execSync]. *)
Fixpoint runEach (execSync : string → outcome unit) (commands : list string)
    : list string * ending :=
  match commands with
  | [] => ([], Completed)
  | command :: rest =>
      match execSync command with
      | Returns _ =>
          let '(ran, r) := runEach execSync rest in (command :: ran, r)
      | Throws e => ([command], Crashed e)
      end
  end.

Definition script (TARGET_URL : string) (execSync : string → outcome unit)
    : list string * ending :=
  if truthy TARGET_URL then runEach execSync stages else ([], Exited 1).

End RunAll.

(** ** [scripts/run_playwright.ts]

    The script visits the discovered urls in a browser and writes
    [pages.json] and [ux_checks.json]. What the browser and the network
    answer is read from an environment, one field per kind of call; an
    exception that nothing catches ends the script. *)

Module RunPlaywright.
Import Js JsText Lib.
Import RunDiscovery (outcome, Returns, Throws).

(** What [page.evaluate] returns, but for the fields no script reads
    ([headings], [buttons], [ctaButtons], [forms], [landmarks]). *)
Record PageData := {
  d_title : string;
  d_navItems : list BuildFlow.NavItem;
  d_links : list string;
  d_hasPasswordInput : bool;
  d_hasSearchInput : bool;
  d_missingTitle : bool;
  d_h1Count : nat;
  d_imagesMissingAlt : nat;
  d_buttonsMissingLabel : nat
}.

(** What the visit of a page gives when nothing throws: the data of
    [page.evaluate] and [page.url()]. *)
Record Visit := { data : PageData; visit_finalUrl : string }.

(** A record of [pages.json]; a key the object does not have is [None]. *)
Record PageInfo := {
  url : string;
  error : option string;
  title : option string;
  navItems : option (list BuildFlow.NavItem);
  links : option (list string);
  hasPasswordInput : option bool;
  hasSearchInput : option bool;
  missingTitle : option bool;
  h1Count : option nat;
  imagesMissingAlt : option nat;
  buttonsMissingLabel : option nat;
  finalUrl : option string;
  loginDetected : option bool;
  screenshot : option string
}.

(** The counters of the script. *)
Record Counters := {
  missingTitleCount : nat;
  multiH1Count : nat;
  imagesMissingAltCount : nat;
  buttonsMissingLabelCount : nat
}.

Record BrokenLink := { link_url : string; status : Z }.

Record PagesArtifact := {
  pages_targetUrl : string;
  pages_generatedAt : string;
  count : nat;
  pages : list PageInfo
}.

Record UxArtifact := {
  ux_targetUrl : string;
  ux_generatedAt : string;
  counts : Counters;
  brokenLinksCount : nat;
  brokenLinks : list BrokenLink
}.

Record Env := {
  TARGET_URL : string;
  (** the integer [slice] makes of [Number(MAX_PAGES ?? 50)]: its
      integral part, and 0 where it is not a number *)
  maxPages : Z;
  (** the urls of the entries of [urls.json], as [readJson] and the
      reading of the entries give them *)
  urlsFile : option (outcome (list string));
  (** [new URL(u).origin], [None] where the constructor throws *)
  urlOrigin : string → option string;
  (** the text of [new URL(url, base)] *)
  resolveUrl : string → string → option string;
  (** the making of the screenshots directory, the reading of the cookies,
      the launch of the browser and the cookies given to it *)
  setUp : outcome unit;
  newPage : string → outcome unit;
  (** [page.goto], [page.evaluate] and [page.url()] on the page of a url *)
  visit : string → outcome Visit;
  closePage : string → outcome unit;
  browserClose : outcome unit;
  (** [response.status] of the [HEAD] and of the [GET] request of a link,
      an exception where the request fails or takes too long *)
  headStatus : string → outcome Z;
  getStatus : string → outcome Z;
  (** [new Date().toISOString()] at the two writes *)
  clock : nat → string
}.

(** How the script ends: by [process.exit], by an exception that nothing
    catches, or at its last line, the two artifacts written. *)
Inductive ending :=
| Exited (code : Z)
| Crashed (message : string)
| Wrote (pagesJson : PagesArtifact) (uxChecks : UxArtifact).

Section WithEnv.
Variable env : Env.

(** The urls to visit. *)
Definition selectUrls : outcome (list string) :=
  match readJson (urlsFile env) [] with
  | Throws e => Throws e
  | Returns urls =>
      let urls := if BuildFlow.nonEmpty urls then urls else [TARGET_URL env] in
      match filterSameOrigin (urlOrigin env) urls (TARGET_URL env) with
      | Throws e => Throws e
      | Returns same => Returns (sliceTo (maxPages env) (Set_of same))
      end
  end.

(** The test of the final url against the pattern of the three login
    words, whatever the case of its letters. *)
Definition loginPattern (finalUrl : string) : bool :=
  existsb (λ word, includes (toLowerCase finalUrl) word)
    ["login"; "signin"; "sign-in"].

Definition failedInfo (url message : string) : PageInfo :=
  {| url := url; error := Some message; title := None; navItems := None;
     links := None; hasPasswordInput := None; hasSearchInput := None;
     missingTitle := None; h1Count := None; imagesMissingAlt := None;
     buttonsMissingLabel := None; finalUrl := None; loginDetected := None;
     screenshot := None |}.

Definition visitedInfo (url : string) (v : Visit) : PageInfo :=
  let d := data v in
  {| url := url; error := None;
     title := Some (d_title d);
     navItems := Some (d_navItems d);
     links := Some (List.map (λ link, toAbsoluteUrl (resolveUrl env) link url)
                      (d_links d));
     hasPasswordInput := Some (d_hasPasswordInput d);
     hasSearchInput := Some (d_hasSearchInput d);
     missingTitle := Some (d_missingTitle d);
     h1Count := Some (d_h1Count d);
     imagesMissingAlt := Some (d_imagesMissingAlt d);
     buttonsMissingLabel := Some (d_buttonsMissingLabel d);
     finalUrl := Some (visit_finalUrl v);
     loginDetected :=
       Some (d_hasPasswordInput d || loginPattern (visit_finalUrl v));
     screenshot := Some ("screenshots/" +:+ safeUrlFilename url +:+ ".png") |}.

Definition bump (c : Counters) (d : PageData) : Counters :=
  {| missingTitleCount :=
       if d_missingTitle d then missingTitleCount c + 1 else missingTitleCount c;
     multiH1Count :=
       if (1 <? d_h1Count d)%nat then multiH1Count c + 1 else multiH1Count c;
     imagesMissingAltCount := imagesMissingAltCount c + d_imagesMissingAlt d;
     buttonsMissingLabelCount :=
       buttonsMissingLabelCount c + d_buttonsMissingLabel d |}.

(** One round of the loop over the urls. *)
Definition visitPage (url : string) (state : list PageInfo * Counters)
    : outcome (list PageInfo * Counters) :=
  match newPage env url with
  | Throws e => Throws e
  | Returns _ =>
      let state' :=
        match visit env url with
        | Returns v => (push state.1 (visitedInfo url v), bump state.2 (data v))
        | Throws message => (push state.1 (failedInfo url message), state.2)
        end in
      match closePage env url with
      | Throws e => Throws e
      | Returns _ => Returns state'
      end
  end.

Fixpoint visitAll (urls : list string) (state : list PageInfo * Counters)
    : outcome (list PageInfo * Counters) :=
  match urls with
  | [] => Returns state
  | url :: rest =>
      match visitPage url state with
      | Throws e => Throws e
      | Returns state' => visitAll rest state'
      end
  end.

(** The links whose answer is asked for. *)
Definition sampleSet (pages : list PageInfo) : list string :=
  slice0 30
    (Set_of (List.filter (λ link, startsWith link "http")
               (List.flat_map (λ page, default [] (links page)) pages))).

(** One round of the loop over the sampled links. *)
Definition checkLink (brokenLinks : list BrokenLink) (link : string)
    : list BrokenLink :=
  match headStatus env link with
  | Returns status =>
      if (400 <=? status)%Z
      then push brokenLinks {| link_url := link; status := status |}
      else brokenLinks
  | Throws _ =>
      match getStatus env link with
      | Returns status =>
          if (400 <=? status)%Z
          then push brokenLinks {| link_url := link; status := status |}
          else brokenLinks
      | Throws _ => push brokenLinks {| link_url := link; status := 0 |}
      end
  end.

Definition noCounts : Counters :=
  {| missingTitleCount := 0; multiH1Count := 0; imagesMissingAltCount := 0;
     buttonsMissingLabelCount := 0 |}.

Definition script : ending :=
  if negb (truthy (TARGET_URL env)) then Exited 1
  else
    match selectUrls with
    | Throws e => Crashed e
    | Returns urls =>
        match setUp env with
        | Throws e => Crashed e
        | Returns _ =>
            match visitAll urls ([], noCounts) with
            | Throws e => Crashed e
            | Returns (pages, counters) =>
                match browserClose env with
                | Throws e => Crashed e
                | Returns _ =>
                    let brokenLinks := foldl checkLink [] (sampleSet pages) in
                    Wrote
                      {| pages_targetUrl := TARGET_URL env;
                         pages_generatedAt := clock env 0;
                         count := length pages;
                         pages := pages |}
                      {| ux_targetUrl := TARGET_URL env;
                         ux_generatedAt := clock env 1;
                         counts := counters;
                         brokenLinksCount := length brokenLinks;
                         brokenLinks := brokenLinks |}
                end
            end
        end
    end.

End WithEnv.

(** *** Notions used to state the properties *)

(** What [scripts/build_flow.ts] reads of a record of [pages.json]. *)
Definition toPageContext (info : PageInfo) : BuildFlow.PageContext :=
  {| BuildFlow.url := url info;
     BuildFlow.title := title info;
     BuildFlow.navItems := navItems info;
     BuildFlow.links := links info;
     BuildFlow.hasPasswordInput := hasPasswordInput info;
     BuildFlow.loginDetected := loginDetected info;
     BuildFlow.hasSearchInput := hasSearchInput info |}.

(** What [scripts/build_flow.ts] reads of the counts of [ux_checks.json]. *)
Definition toUxCounts (ux : UxArtifact) : BuildFlow.UxCounts :=
  {| BuildFlow.missingTitlePages := Some (Z.of_nat (missingTitleCount (counts ux)));
     BuildFlow.multipleH1Pages := Some (Z.of_nat (multiH1Count (counts ux)));
     BuildFlow.imagesMissingAlt := Some (Z.of_nat (imagesMissingAltCount (counts ux)));
     BuildFlow.buttonsMissingLabel :=
       Some (Z.of_nat (buttonsMissingLabelCount (counts ux)));
     BuildFlow.brokenLinks := Some (Z.of_nat (brokenLinksCount ux)) |}.

(** The record of a url in [pages.json]: that of a visit, or that of the
    failure of the visit. *)
Definition infoOf (env : Env) (u : string) : PageInfo :=
  match visit env u with
  | Returns v => visitedInfo env u v
  | Throws message => failedInfo u message
  end.

(** The counters after the visits of [urls], from the counters [c]. *)
Definition countersOf (env : Env) (urls : list string) (c : Counters) : Counters :=
  foldl (λ c u, match visit env u with
                | Returns v => bump c (data v)
                | Throws _ => c
                end) c urls.

(** What the check of a link reports, if anything. *)
Definition verdict (env : Env) (link : string) : option BrokenLink :=
  match headStatus env link with
  | Returns s =>
      if (400 <=? s)%Z then Some {| link_url := link; status := s |} else None
  | Throws _ =>
      match getStatus env link with
      | Returns s =>
          if (400 <=? s)%Z then Some {| link_url := link; status := s |} else None
      | Throws _ => Some {| link_url := link; status := 0 |}
      end
  end.

(** The browser does what it is asked: no call but the visit of a page
    throws. *)
Definition browserWorks (env : Env) : Prop :=
  setUp env = Returns tt ∧ browserClose env = Returns tt ∧
  (∀ u, newPage env u = Returns tt) ∧ (∀ u, closePage env u = Returns tt).

(** The sum of a field over the pages that have it. *)
Definition total (field : PageInfo → option nat) (pages : list PageInfo) : nat :=
  sum_list (omap field pages).

(** The number of pages that pass a test. *)
Definition countPages (test : PageInfo → bool) (pages : list PageInfo) : nat :=
  length (List.filter test pages).

(** *** An example environment

    The visit of the urls that the discovery of [RunDiscovery.successEnv]
    wrote: the home page links to the two others, the login page has a
    password field, and the visit of the cart page fails. *)

Definition exampleVisit (u : string) : outcome Visit :=
  if String.eqb u "https://example.com/cart" then Throws "Timeout 30000ms exceeded"
  else
    Returns
      {| data :=
           {| d_title := if String.eqb u "https://example.com/login" then "Sign in" else "";
              d_navItems := [];
              d_links := if String.eqb u "https://example.com/"
                         then ["/login"; "https://example.com/cart"; "mailto:a@b.c"]
                         else [];
              d_hasPasswordInput := String.eqb u "https://example.com/login";
              d_hasSearchInput := false;
              d_missingTitle := negb (String.eqb u "https://example.com/login");
              d_h1Count := 2;
              d_imagesMissingAlt := 3;
              d_buttonsMissingLabel := 1 |};
         visit_finalUrl := u |}.

Definition exampleEnv : Env :=
  {| TARGET_URL := "https://example.com";
     maxPages := 50;
     urlsFile := Some (Returns (List.map RunDiscovery.url
                                  (RunDiscovery.urls RunDiscovery.successWritten)));
     urlOrigin := RunDiscovery.exampleOrigin;
     resolveUrl := λ link base,
       if String.prefix "/" link then Some ("https://example.com" +:+ link)
       else if String.prefix "https://" link then Some link else None;
     setUp := Returns tt;
     newPage := λ _, Returns tt;
     visit := exampleVisit;
     closePage := λ _, Returns tt;
     browserClose := Returns tt;
     headStatus := λ link,
       if String.eqb link "https://example.com/cart" then Returns 404%Z
       else Throws "fetch failed";
     getStatus := λ _, Returns 200%Z;
     clock := λ _, "2026-02-21T00:05:00.000Z" |}.

End RunPlaywright.

(** ** The order of the effects of [scripts/run_discovery.ts]

    Notions to state in which order a run of the discovery does what it
    does: the phases of the engine instance, and which events belong to
    which phase. *)

Module DiscoveryOrder.
Import Js RunDiscovery.

(** The part of [scan] behind the readiness loop and its test. *)
Definition afterReady (env : Env) (cookieHeader : string)
    : M (list string * list string) :=
  (if truthy cookieHeader
   then fetch (AddRule cookieHeader) (addRule env) else mret tt);;
  scanId ← fetch (SpiderScan (TARGET_URL env) (CRAWL_DEPTH env)) (spiderScan env);
  pollSpider scanId (spiderStatus env);;
  fetch (AjaxScan (TARGET_URL env)) (ajaxScan env);;
  pollAjax (ajaxStatus env);;
  core ← fetch CoreUrls (coreUrls env);
  spider ← fetch (SpiderResults scanId) (spiderResults env);
  let all := Set_of (default [] core ++ default [] spider) in
  filtered ← filterSameOrigin env all (TARGET_URL env);
  mret (all, filtered).




(** The number of events of a kind in a trace. *)
Definition countEvents (test : Event → bool) (t : list Event) : nat :=
  length (List.filter test t).

Definition isAddRule (ev : Event) : bool :=
  match ev with Fetch (AddRule _) => true | _ => false end.

Definition isRequest (ev : Event) : bool :=
  match ev with Fetch _ => true | _ => false end.

Definition isPause (ev : Event) : bool :=
  match ev with Sleep _ => true | _ => false end.

Definition isStartAttempt (ev : Event) : bool :=
  match ev with Exec (DockerRun _ _ _ _) _ => true | _ => false end.

(** The events of the script while no engine is up. *)
Definition hostEvent (ev : Event) : bool :=
  match ev with
  | Exec DockerInfo _ | ConsoleWarn _ | ConsoleError _ | WriteUrls _ _ => true
  | _ => false
  end.

(** The events of the [try] and [catch] blocks behind the start of the
    engine, [h] being the cookie header: no version request, no pause
    of one second and no rule but the one for [h]. *)
Definition scanEvent (h : string) (ev : Event) : bool :=
  match ev with
  | Fetch Version => false
  | Fetch (AddRule h') => truthy h && String.eqb h' h
  | Sleep ms => negb (Nat.eqb ms 1000)
  | Fetch _ | ConsoleError _ | WriteUrls _ _ => true
  | _ => false
  end.

(** The events of the [catch] blocks and of the handler of [main]. *)
Definition closingEvent (ev : Event) : bool :=
  match ev with
  | ConsoleError _ | WriteUrls _ _ => true
  | _ => false
  end.

(** The events of the readiness loop. *)
Definition isProbePause (ev : Event) : bool :=
  match ev with Sleep ms => Nat.eqb ms 1000 | _ => false end.

Definition probeEvent (ev : Event) : bool :=
  isVersionRequest ev || isProbePause ev.

(** A crawl without a login: none is asked for, or a secret is missing. *)
Definition publicCrawl (env : Env) : bool :=
  let sec := secrets env in
  negb (AUTHENTICATED env)
  || missing (LOGIN_URL sec) || missing (ZAP_USER sec) || missing (ZAP_PASS sec)
  || missing (USER_FIELD sec) || missing (PASS_FIELD sec)
  || missing (SUBMIT_SELECTOR sec).

(** The events of a readiness loop of 90 rounds. *)
Definition probes (ready : list Event) : Prop :=
  Forall (λ ev, probeEvent ev = true) ready ∧
  countEvents isVersionRequest ready ≤ 90 ∧
  countEvents isProbePause ready ≤ countEvents isVersionRequest ready.

(** The event of a start of the engine that failed. *)
Definition startFailed (env : Env) : Event :=
  Exec (DockerRun (containerName env) (default "8090" (ZAP_PORT env))
          (RESPECT_ROBOTS env) (CRAWL_DEPTH env)) false.

(** The events of the [try], [catch] and [finally] blocks of [main], [h]
    being the cookie header and [r] the result of the three blocks: the
    start of the engine fails and the [catch] block follows; or the engine
    is started, probed and used, and the run hangs in a status loop; or
    the engine is started, probed, used and removed. *)
Definition blockShape (env : Env) (h : string) (r : result unit)
    (body : list Event) : Prop :=
  (∃ handler, body = startFailed env :: handler ∧ r ≠ Hangs ∧
     Forall (λ ev, closingEvent ev = true) handler) ∨
  (∃ ready rest, body = engineStart env :: ready ++ rest ∧ r = Hangs ∧
     probes ready ∧ Forall (λ ev, scanEvent h ev = true) rest) ∨
  (∃ ready rest, body = engineStart env :: ready ++ rest ++ [teardown env] ∧
     r ≠ Hangs ∧
     probes ready ∧ Forall (λ ev, scanEvent h ev = true) rest).

(** Where a cookie header comes from: it is empty, or it is made of the
    cookies of the login session of a crawl that is not public. *)
Definition headerOrigin (env : Env) (h : string) : Prop :=
  h = "" ∨
  (publicCrawl env = false ∧
   ∃ cookies, loginSession env = Returns cookies ∧
              h = cookieHeaderOf (Some cookies)).

End DiscoveryOrder.

(** ** Facts about the run-time functions *)

Module JsFacts.
Import Js.

Lemma app_nil (b : string) : "" +:+ b = b.
Proof. done. Qed.

Lemma app_cons (c : ascii) (a b : string) : String c a +:+ b = String c (a +:+ b).
Proof. done. Qed.

Lemma append_assoc (a b c : string) : (a +:+ b) +:+ c = a +:+ (b +:+ c).
Proof. induction a as [|x a IH]; [done |]. rewrite !app_cons. by f_equal. Qed.

Lemma prefix_append (kw rest : string) : String.prefix kw (kw +:+ rest) = true.
Proof.
  induction kw as [|c kw IH]; [by destruct rest |].
  rewrite app_cons. simpl. destruct (ascii_dec c c); [done | congruence].
Qed.

Lemma includes_here (kw rest : string) : includes (kw +:+ rest) kw = true.
Proof.
  pose proof (prefix_append kw rest) as H.
  destruct (kw +:+ rest); unfold includes; fold includes; by rewrite H.
Qed.

Lemma includes_later (before s kw : string) :
  includes s kw = true → includes (before +:+ s) kw = true.
Proof.
  intros H. induction before as [|c before IH]; [done |].
  rewrite app_cons. simpl. rewrite IH. apply orb_true_r.
Qed.

(** A string occurring between any two others is found by [includes]. *)
Lemma includes_infix (before kw after : string) :
  includes (before +:+ kw +:+ after) kw = true.
Proof. apply includes_later, includes_here. Qed.

(** A line of a joined text occurs in the text. *)
Lemma join_infix (sep line : string) (lines : list string) :
  line ∈ lines → ∃ before after, join sep lines = before +:+ line +:+ after.
Proof.
  induction lines as [|l lines IH]; [by intros ?%elem_of_nil |].
  intros [->|Hin]%elem_of_cons.
  - exists "". destruct lines as [|l' lines]; simpl.
    + exists "". rewrite app_nil. clear.
      induction l as [|c l IH]; [done |]. rewrite app_cons. by f_equal.
    + by eexists.
  - destruct (IH Hin) as (before & after & E).
    destruct lines as [|l' lines]; [by apply elem_of_nil in Hin |].
    exists (l +:+ sep +:+ before), after.
    change (join sep (l :: l' :: lines))
      with (l +:+ sep +:+ join sep (l' :: lines)).
    rewrite E, !append_assoc. done.
Qed.

Lemma includes_join (sep kw head tail : string) (lines : list string) :
  head +:+ kw +:+ tail ∈ lines → includes (join sep lines) kw = true.
Proof.
  intros (before & after & ->)%(join_infix sep).
  rewrite !append_assoc, <- (append_assoc before head).
  apply includes_infix.
Qed.

(** *** Arrays built by [push] *)

Lemma foldl_push_filter {A B} (test : A → bool) (f : A → B) (xs : list A) (out : list B) :
  foldl (λ out x, if test x then push out (f x) else out) out xs
  = out ++ List.map f (List.filter test xs).
Proof.
  revert out. induction xs as [|x xs IH]; intros out; simpl.
  - by rewrite app_nil_r.
  - rewrite IH. destruct (test x); simpl; [|done].
    unfold push. by rewrite <- app_assoc.
Qed.

Lemma foldl_push_map {A B} (f : A → B) (xs : list A) (out : list B) :
  foldl (λ out x, push out (f x)) out xs = out ++ List.map f xs.
Proof.
  revert out. induction xs as [|x xs IH]; intros out; simpl.
  - by rewrite app_nil_r.
  - rewrite IH. unfold push. by rewrite <- app_assoc.
Qed.

(** *** Sets in insertion order *)

Lemma has_true (s : list string) (x : string) : has s x = true ↔ x ∈ s.
Proof. unfold has. apply bool_decide_eq_true. Qed.

Lemma has_false (s : list string) (x : string) : has s x = false ↔ x ∉ s.
Proof. unfold has. apply bool_decide_eq_false. Qed.

Lemma NoDup_add (s : list string) (x : string) : NoDup s → NoDup (add s x).
Proof.
  intros Hs. unfold add. destruct (has s x) eqn:E; [done |].
  apply has_false in E. apply NoDup_app. split_and!; [done | | apply NoDup_singleton].
  intros y Hy ->%list_elem_of_singleton. done.
Qed.

Lemma elem_of_add (s : list string) (x y : string) : y ∈ add s x ↔ y ∈ s ∨ y = x.
Proof.
  unfold add. destruct (has s x) eqn:E.
  - apply has_true in E. split; [auto | intros [?| ->]; done].
  - rewrite elem_of_app, list_elem_of_singleton. done.
Qed.

Lemma NoDup_foldl_add (xs s : list string) : NoDup s → NoDup (foldl add s xs).
Proof. revert s. induction xs; simpl; auto using NoDup_add. Qed.

Lemma elem_of_foldl_add (xs s : list string) (y : string) :
  y ∈ foldl add s xs ↔ y ∈ s ∨ y ∈ xs.
Proof.
  revert s. induction xs as [|x xs IH]; intros s; simpl.
  - rewrite elem_of_nil. tauto.
  - rewrite IH, elem_of_add, elem_of_cons. tauto.
Qed.

Lemma NoDup_Set_of (xs : list string) : NoDup (Set_of xs).
Proof. apply NoDup_foldl_add, NoDup_nil_2. Qed.

Lemma elem_of_Set_of (xs : list string) (y : string) : y ∈ Set_of xs ↔ y ∈ xs.
Proof. unfold Set_of. rewrite elem_of_foldl_add, elem_of_nil. tauto. Qed.

(** Insertion order: a value met for the first time goes to the end, a
    value met again changes nothing. *)
Lemma Set_of_snoc (xs : list string) (x : string) :
  Set_of (xs ++ [x]) = if bool_decide (x ∈ xs) then Set_of xs else Set_of xs ++ [x].
Proof.
  assert (Set_of (xs ++ [x]) = add (Set_of xs) x) as ->.
  { unfold Set_of. by rewrite foldl_snoc. }
  unfold add. destruct (has (Set_of xs) x) eqn:E.
  - apply has_true in E. rewrite elem_of_Set_of in E.
    by rewrite bool_decide_eq_true_2.
  - apply has_false in E. rewrite elem_of_Set_of in E.
    by rewrite bool_decide_eq_false_2.
Qed.

(** The number of members is the number of distinct values. *)
Lemma length_Set_of (xs : list string) :
  length (Set_of xs) = size (list_to_set xs : gset string).
Proof.
  rewrite <- (size_list_to_set (C := gset string)) by apply NoDup_Set_of.
  f_equal. apply set_eq. intros y.
  by rewrite !elem_of_list_to_set, elem_of_Set_of.
Qed.

(** *** Maps built from entries: the last entry of a key wins *)

Lemma Map_of_snoc (entries : list (string * string)) (k v : string) :
  Map_of (entries ++ [(k, v)]) = <[k := v]> (Map_of entries).
Proof. unfold Map_of. by rewrite foldl_snoc. Qed.

Lemma Map_of_nil : Map_of [] = ∅.
Proof. done. Qed.

(** *** Decimal numerals *)

Lemma natToString_inj (n m : nat) : natToString n = natToString m → n = m.
Proof.
  unfold natToString. intros E.
  apply Unsigned.to_uint_inj.
  assert (Some (Nat.to_uint n) = Some (Nat.to_uint m)) as [= ->]; [|done].
  by rewrite <- !NilEmpty.usu, E.
Qed.

End JsFacts.

(** ** Facts about [buildFlowArtifacts] *)

Module BuildFlowFacts.
Import Js JsFacts BuildFlow.

(** *** Characters of node ids *)

Lemma all_chars_impl (P Q : ascii → bool) (s : string) :
  (∀ c, P c = true → Q c = true) → all_chars P s = true → all_chars Q s = true.
Proof.
  intros HPQ. induction s as [|c s IH]; simpl; [done |].
  intros [Hc Hs]%andb_true_iff. by rewrite (HPQ _ Hc), IH.
Qed.

Lemma digits_string_of_uint (d : Decimal.uint) :
  all_chars is_digit (NilEmpty.string_of_uint d) = true.
Proof. induction d; simpl; done. Qed.

Lemma digits_natToString (n : nat) : all_chars is_digit (natToString n) = true.
Proof. apply digits_string_of_uint. Qed.

Lemma id_chars_nodeId (k : nat) : all_chars is_id_char (nodeId k) = true.
Proof.
  unfold nodeId. rewrite app_cons, app_nil. simpl.
  apply all_chars_impl with (P := is_digit); [|apply digits_natToString].
  intros c Hc. unfold is_id_char. rewrite Hc. apply orb_true_r.
Qed.

Lemma id_char_differs (sep c : ascii) :
  is_id_char sep = false → is_id_char c = true → differs sep c = true.
Proof.
  intros Hsep Hc. unfold differs. destruct (Ascii.eqb_spec c sep) as [->|]; [|done].
  congruence.
Qed.

Lemma nodeId_free (sep : ascii) (k : nat) :
  is_id_char sep = false → all_chars (differs sep) (nodeId k) = true.
Proof.
  intros Hsep. apply all_chars_impl with (P := is_id_char); [|apply id_chars_nodeId].
  intros c. by apply id_char_differs.
Qed.

Lemma all_chars_sep (sep : ascii) (u v : string) :
  all_chars (differs sep) (u +:+ String sep v) = false.
Proof.
  induction u as [|c u IH].
  - rewrite app_nil. simpl. unfold differs. by rewrite Ascii.eqb_refl.
  - rewrite app_cons. simpl. rewrite IH. apply andb_false_r.
Qed.

(** The text before the first separator determines the rest. *)
Lemma sep_inj_l (sep : ascii) (x x' r r' : string) :
  all_chars (differs sep) x = true → all_chars (differs sep) x' = true →
  x +:+ String sep r = x' +:+ String sep r' → x = x' ∧ r = r'.
Proof.
  revert x'. induction x as [|c x IH]; intros [|c' x'] Hx Hx'.
  - rewrite !app_nil. by intros [= ->].
  - rewrite app_nil, app_cons. intros [= <- _]. simpl in Hx'.
    unfold differs in Hx' at 1. by rewrite Ascii.eqb_refl in Hx'.
  - rewrite app_nil, app_cons. intros [= -> _]. simpl in Hx.
    unfold differs in Hx at 1. by rewrite Ascii.eqb_refl in Hx.
  - rewrite !app_cons. intros [= -> E]. simpl in Hx, Hx'.
    apply andb_true_iff in Hx as [_ Hx]. apply andb_true_iff in Hx' as [_ Hx'].
    destruct (IH x' Hx Hx' E) as [-> ->]. done.
Qed.

(** The text after the last separator determines the rest. *)
Lemma sep_inj_r (sep : ascii) (x x' y y' : string) :
  all_chars (differs sep) y = true → all_chars (differs sep) y' = true →
  x +:+ String sep y = x' +:+ String sep y' → x = x' ∧ y = y'.
Proof.
  intros Hy Hy'. revert x'. induction x as [|c x IH]; intros [|c' x'].
  - rewrite !app_nil. by intros [= ->].
  - rewrite app_nil, app_cons. intros [= <- ->].
    by rewrite all_chars_sep in Hy.
  - rewrite app_nil, app_cons. intros [= -> <-].
    by rewrite all_chars_sep in Hy'.
  - rewrite !app_cons. intros [= -> E].
    destruct (IH x' E) as [-> ->]. done.
Qed.

Lemma nodeId_inj (i j : nat) : nodeId i = nodeId j → i = j.
Proof.
  unfold nodeId. rewrite !app_cons, !app_nil. intros [= E%natToString_inj]. lia.
Qed.

Lemma truthy_nodeId (k : nat) : truthy (nodeId k) = true.
Proof. unfold nodeId. by rewrite app_cons. Qed.

(** An edge text determines its two ends when they are node ids. *)
Lemma edgeText_from (i : nat) (f t t' : string) :
  all_chars (differs " ") f = true →
  edgeText f t = edgeText (nodeId i) t' → f = nodeId i.
Proof.
  intros Hf. unfold edgeText.
  change (" --> " +:+ t) with (String " " ("--> " +:+ t)).
  change (" --> " +:+ t') with (String " " ("--> " +:+ t')).
  intros E. eapply sep_inj_l in E as [-> _]; [done | done |].
  by apply nodeId_free.
Qed.

Lemma edgeText_to (i : nat) (f f' t : string) :
  all_chars (differs " ") t = true →
  edgeText f t = edgeText f' (nodeId i) → t = nodeId i.
Proof.
  intros Ht. unfold edgeText.
  change (" --> " +:+ t) with (" -->" +:+ String " " t).
  change (" --> " +:+ nodeId i) with (" -->" +:+ String " " (nodeId i)).
  rewrite <- !append_assoc.
  intros E. eapply sep_inj_r in E as [_ ->]; [done | done |].
  by apply nodeId_free.
Qed.

(** *** Nodes *)

Lemma length_buildNodes (pages : list PageContext) :
  length (buildNodes pages) = length pages.
Proof. apply length_imap. Qed.

Lemma lookup_buildNodes (pages : list PageContext) (i : nat) :
  buildNodes pages !! i = mkNode i <$> pages !! i.
Proof. apply list_lookup_imap. Qed.

Lemma ids_buildNodes (pages : list PageContext) :
  List.map id (buildNodes pages) = nodeId <$> seq 0 (length pages).
Proof.
  unfold buildNodes. change (List.map id) with (fmap (M := list) id).
  rewrite fmap_imap. apply (imap_seq_0 pages nodeId).
Qed.

Lemma NoDup_ids (pages : list PageContext) : NoDup (List.map id (buildNodes pages)).
Proof.
  rewrite ids_buildNodes. apply NoDup_fmap_2; [|apply NoDup_seq].
  intros i j. apply nodeId_inj.
Qed.

(** *** The url-to-id map *)

Lemma urlToId_nil : urlToId [] = ∅.
Proof. done. Qed.

Lemma urlToId_snoc (pages : list PageContext) (page : PageContext) :
  urlToId (pages ++ [page])
  = <[url page := nodeId (length pages)]> (urlToId pages).
Proof.
  unfold urlToId, buildNodes. rewrite imap_app, map_app. simpl.
  rewrite Map_of_snoc. by rewrite Nat.add_0_r.
Qed.

Lemma isLast_snoc_here (pages : list PageContext) (page : PageContext) :
  isLast (pages ++ [page]) (url page) (length pages).
Proof.
  split.
  - exists page. split; [|done]. by rewrite lookup_app_r, Nat.sub_diag.
  - intros k' page' Hk Hlook. apply lookup_lt_Some in Hlook.
    rewrite length_app in Hlook. simpl in Hlook. lia.
Qed.

Lemma isLast_snoc_other (pages : list PageContext) (page : PageContext)
    (u : string) (k : nat) :
  url page ≠ u → isLast pages u k → isLast (pages ++ [page]) u k.
Proof.
  intros Hne [(pk & Hk & Hu) Hlater]. split.
  - exists pk. split; [|done]. by apply lookup_app_l_Some.
  - intros k' page' Hlt Hlook. apply lookup_app_Some in Hlook as [Hl|[_ Hr]].
    + by eapply Hlater.
    + apply list_lookup_singleton_Some in Hr as [_ <-]. done.
Qed.

(** A later entry replaces an earlier one: the map sends a url to the id
    of the last page that has it. *)
Lemma urlToId_Some (pages : list PageContext) (u v : string) :
  urlToId pages !! u = Some v → ∃ k, isLast pages u k ∧ v = nodeId k.
Proof.
  induction pages as [|page pages IH] using rev_ind.
  - by rewrite urlToId_nil, lookup_empty.
  - rewrite urlToId_snoc. destruct (decide (url page = u)) as [<-|Hne].
    + rewrite lookup_insert_eq. intros [= <-]. eexists. split; [|done].
      apply isLast_snoc_here.
    + rewrite lookup_insert_ne by done. intros (k & Hk & ->)%IH.
      exists k. split; [|done]. by apply isLast_snoc_other.
Qed.

Lemma isLast_unique (pages : list PageContext) (u : string) (k k' : nat) :
  isLast pages u k → isLast pages u k' → k = k'.
Proof.
  intros [(p & Hp & Hu) Hk] [(p' & Hp' & Hu') Hk'].
  destruct (Nat.lt_trichotomy k k') as [Hlt|[->|Hlt]]; [|done|].
  - by destruct (Hk _ _ Hlt Hp').
  - by destruct (Hk' _ _ Hlt Hp).
Qed.

Lemma urlToId_is_Some (pages : list PageContext) (page : PageContext) :
  page ∈ pages → is_Some (urlToId pages !! url page).
Proof.
  induction pages as [|page' pages IH] using rev_ind; [by intros ?%elem_of_nil |].
  rewrite urlToId_snoc, elem_of_app, list_elem_of_singleton.
  destruct (decide (url page' = url page)) as [->|Hne].
  - rewrite lookup_insert_eq. eauto.
  - rewrite lookup_insert_ne by done. intros [Hin| ->]; [auto | done].
Qed.

Lemma urlToId_last (pages : list PageContext) (u : string) (k : nat) :
  isLast pages u k → urlToId pages !! u = Some (nodeId k).
Proof.
  intros Hk. pose proof Hk as [(page & Hpage & <-) _].
  destruct (urlToId_is_Some pages page) as [v Hv].
  { by eapply list_elem_of_lookup_2. }
  rewrite Hv. apply urlToId_Some in Hv as (k' & Hk' & ->).
  by rewrite (isLast_unique _ _ _ _ Hk Hk').
Qed.

(** *** Edges *)

Lemma linkEdges_omap (m : gmap string string) (fromId : string)
    (out page_links : list string) :
  linkEdges m fromId out page_links
  = out ++ omap (λ link, toId ← m !! link;
                         if truthy toId then Some (edgeText fromId toId) else None)
                page_links.
Proof.
  revert out. induction page_links as [|link ls IH]; intros out; simpl.
  - by rewrite app_nil_r.
  - unfold linkEdges in IH |- *. simpl. rewrite IH.
    destruct (m !! link) as [toId|]; simpl; [|done].
    destruct (truthy toId); [|done]. unfold push. by rewrite <- app_assoc.
Qed.

Lemma pagesLoop_flat_map (m : gmap string string) (pages : list PageContext)
    (out : list string) :
  foldl (λ edges page,
           match m !! url page with
           | Some fromId =>
               if truthy fromId
               then linkEdges m fromId edges (default [] (links page))
               else edges
           | None => edges
           end) out pages
  = out ++ List.flat_map (pageEdges m) pages.
Proof.
  revert out. induction pages as [|page pages IH]; intros out; simpl.
  - by rewrite app_nil_r.
  - rewrite IH. unfold pageEdges.
    destruct (m !! url page) as [fromId|]; [|done].
    destruct (truthy fromId); [|done].
    by rewrite linkEdges_omap, <- app_assoc.
Qed.

Lemma rawEdges_flat_map (m : gmap string string) (pages : list PageContext) :
  rawEdges m pages = List.flat_map (pageEdges m) pages.
Proof. unfold rawEdges. by rewrite pagesLoop_flat_map. Qed.

(** An edge comes from a page found in the map and from one of its links
    found in the map. *)
Lemma elem_of_rawEdges (m : gmap string string) (pages : list PageContext)
    (e : string) :
  e ∈ rawEdges m pages ↔
  ∃ page link fromId toId,
    page ∈ pages ∧ link ∈ default [] (links page) ∧
    m !! url page = Some fromId ∧ m !! link = Some toId ∧
    truthy fromId = true ∧ truthy toId = true ∧ e = edgeText fromId toId.
Proof.
  rewrite rawEdges_flat_map, list_elem_of_In, in_flat_map. split.
  - intros (page & Hpage%list_elem_of_In & He%list_elem_of_In).
    unfold pageEdges in He.
    destruct (m !! url page) as [fromId|] eqn:Hfrom; [|by apply elem_of_nil in He].
    destruct (truthy fromId) eqn:Tfrom; [|by apply elem_of_nil in He].
    apply list_elem_of_omap in He as (link & Hlink & He).
    destruct (m !! link) as [toId|] eqn:Hto; simpl in He; [|done].
    destruct (truthy toId) eqn:Tto; [|done]. injection He as <-.
    by exists page, link, fromId, toId.
  - intros (page & link & fromId & toId & Hpage & Hlink & Hfrom & Hto & Tfrom & Tto & ->).
    exists page. split; [by apply list_elem_of_In |].
    apply list_elem_of_In. unfold pageEdges. rewrite Hfrom, Tfrom.
    apply list_elem_of_omap. exists link. split; [done |].
    rewrite Hto. simpl. by rewrite Tto.
Qed.

(** Both ends of an edge are ids of last occurrences. *)
Lemma elem_of_limitedEdges (pages : list PageContext) (e : string) :
  e ∈ limitedEdges pages →
  ∃ page link a b,
    page ∈ pages ∧ link ∈ default [] (links page) ∧
    isLast pages (url page) a ∧ isLast pages link b ∧
    e = edgeText (nodeId a) (nodeId b).
Proof.
  unfold limitedEdges, slice0. intros (i & He%list_elem_of_lookup_2 & _)%elem_of_take.
  apply elem_of_Set_of, elem_of_rawEdges in He
    as (page & link & fromId & toId & Hpage & Hlink & Hfrom & Hto & _ & _ & ->).
  apply urlToId_Some in Hfrom as (a & Ha & ->).
  apply urlToId_Some in Hto as (b & Hb & ->).
  by exists page, link, a, b.
Qed.

Lemma NoDup_limitedEdges (pages : list PageContext) : NoDup (limitedEdges pages).
Proof. eapply sublist_NoDup; [apply NoDup_Set_of | apply sublist_take]. Qed.

(** *** The diagram source *)

Lemma mermaidLines_blocks (pages : list PageContext) :
  mermaidLines pages
  = ["flowchart LR"]
    ++ groupBlock "  subgraph Public" (publicMembers pages)
    ++ (if nonEmpty (loginPages pages)
        then groupBlock "  subgraph Auth" (authMembers pages) else [])
    ++ (if nonEmpty (checkoutPages pages)
        then groupBlock "  subgraph Checkout" (checkoutMembers pages) else [])
    ++ (if nonEmpty (accountPages pages)
        then groupBlock "  subgraph Account" (accountMembers pages) else [])
    ++ List.map (λ edge, "  " +:+ edge) (limitedEdges pages).
Proof.
  unfold mermaidLines, pushNodes. cbv zeta.
  rewrite foldl_push_map, !foldl_push_filter.
  unfold groupBlock, publicMembers, authMembers, checkoutMembers, accountMembers, push.
  destruct (nonEmpty (loginPages pages)), (nonEmpty (checkoutPages pages)),
    (nonEmpty (accountPages pages));
    simpl; rewrite <- ?app_assoc; simpl; rewrite ?app_nil_r; done.
Qed.

Lemma firstOccurrences_ext (seen seen' xs : list string) :
  (∀ x, x ∈ seen ↔ x ∈ seen') →
  firstOccurrences seen xs = firstOccurrences seen' xs.
Proof.
  revert seen seen'. induction xs as [|x xs IH]; intros seen seen' Hs; simpl; [done |].
  rewrite (bool_decide_ext _ _ (Hs x)). case_bool_decide; [by apply IH |].
  f_equal. apply IH. intros y. rewrite !elem_of_cons, Hs. done.
Qed.

Lemma foldl_add_firstOccurrences (xs s : list string) :
  foldl add s xs = s ++ firstOccurrences s xs.
Proof.
  revert s. induction xs as [|x xs IH]; intros s; simpl.
  - by rewrite app_nil_r.
  - rewrite IH. unfold add, has. case_bool_decide; [done |].
    rewrite <- app_assoc. simpl. do 2 f_equal. apply firstOccurrences_ext.
    intros y. rewrite elem_of_app, list_elem_of_singleton, elem_of_cons. tauto.
Qed.

Lemma Set_of_firstOccurrences (xs : list string) :
  Set_of xs = firstOccurrences [] xs.
Proof. unfold Set_of. by rewrite foldl_add_firstOccurrences. Qed.

Lemma has_tagged (tag : PageContext → bool) (pages : list PageContext) (u : string) :
  has (Set_of (List.map url (List.filter tag pages))) u = true ↔ urlTagged tag pages u.
Proof.
  rewrite has_true, elem_of_Set_of, list_elem_of_In, in_map_iff. unfold urlTagged.
  split; intros (page & H1 & H2).
  - apply filter_In in H2 as [Hin Htag]. exists page. by rewrite list_elem_of_In.
  - destruct H2 as [Hu Htag]. exists page. split; [done |].
    apply filter_In. by rewrite <- list_elem_of_In.
Qed.

Lemma elem_of_buildNodes (pages : list PageContext) (node : FlowNode) :
  node ∈ buildNodes pages ↔ ∃ i page, pages !! i = Some page ∧ node = mkNode i page.
Proof.
  unfold buildNodes. rewrite elem_of_lookup_imap.
  split; intros (i & page & H1 & H2); by exists i, page.
Qed.

Lemma nodeLine_inj_ids (i j : nat) (p q : PageContext) :
  nodeLine (mkNode i p) = nodeLine (mkNode j q) → i = j.
Proof.
  unfold nodeLine. simpl. intros E%(inj (String.app "    ")).
  change ("[" +:+ ?r) with (String "[" r) in E.
  apply nodeId_inj. eapply sep_inj_l in E as [E _]; [done | |];
    by apply nodeId_free.
Qed.

Lemma NoDup_nodeLines (pages : list PageContext) :
  NoDup (List.map nodeLine (buildNodes pages)).
Proof.
  change (List.map nodeLine) with (fmap (M := list) nodeLine).
  apply NoDup_fmap_2_strong.
  - intros n n' (i & p & Hi & ->)%elem_of_buildNodes
      (j & q & Hj & ->)%elem_of_buildNodes E%nodeLine_inj_ids.
    subst j. congruence.
  - eapply (NoDup_fmap_1 id). apply NoDup_ids.
Qed.

Lemma NoDup_member_lines (test : FlowNode → bool) (pages : list PageContext) :
  NoDup (List.map nodeLine (List.filter test (buildNodes pages))).
Proof.
  apply (sublist_NoDup _ (nodeLine <$> buildNodes pages)); [apply NoDup_nodeLines |].
  apply (fmap_sublist nodeLine). induction (buildNodes pages) as [|n ns IH]; simpl; [constructor |].
  destruct (test n); by constructor.
Qed.

Lemma elem_of_members (test : FlowNode → bool) (pages : list PageContext)
    (node : FlowNode) :
  node ∈ List.filter test (buildNodes pages) ↔
  node ∈ buildNodes pages ∧ test node = true.
Proof. rewrite !list_elem_of_In. apply filter_In. Qed.

(** *** The test of the repository and other examples *)

Example repository_test :
  includes (summary testArtifacts) "Login flow" = true ∧
  includes (summary testArtifacts) "Checkout flow" = true ∧
  includes (mermaid testArtifacts) "subgraph Auth" = true ∧
  includes (mermaid testArtifacts) "subgraph Checkout" = true ∧
  nodeCount (flowMeta testArtifacts) = 3.
Proof. by vm_compute. Qed.

Example test_edges : edges testArtifacts = ["p1 --> p2"; "p1 --> p3"].
Proof. by vm_compute. Qed.

Example node_ids : nodeId 0 = "p1" ∧ nodeId 1 = "p2" ∧ nodeId 119 = "p120".
Proof. by vm_compute. Qed.

(** Eleven pages that all link to one another have 121 distinct edges, of
    which 120 are kept. *)
Example dense_site_capped :
  length (Set_of (rawEdges (urlToId (denseSite 11)) (denseSite 11))) = 121 ∧
  length (limitedEdges (denseSite 11)) = 120 ∧
  last (limitedEdges (denseSite 11)) = Some "p11 --> p10".
Proof. by vm_compute. Qed.

(** *** Properties of the specification *)

(** C5: for every list [pages], synthesis gives one node per page in input
    order, reports [nodeCount] equal to the number of pages, and assigns
    the ids [p1], [p2], ... by position, so that they are pairwise
    distinct. *)
Theorem C5_one_node_per_page (target : string) (pages : list PageContext)
    (uxCounts : option UxCounts) (generated : string) :
  let a := buildFlowArtifacts target pages uxCounts generated in
  nodeCount (flowMeta a) = length pages ∧
  length (nodes a) = length pages ∧
  (∀ i page, pages !! i = Some page →
     ∃ node, nodes a !! i = Some node ∧ node_url node = url page ∧
             id node = "p" +:+ natToString (i + 1)) ∧
  NoDup (List.map id (nodes a)) ∧
  (∀ i j n n', nodes a !! i = Some n → nodes a !! j = Some n' →
     id n = id n' → i = j).
Proof.
  simpl. split_and!.
  - apply length_buildNodes.
  - apply length_buildNodes.
  - intros i page Hpage. exists (mkNode i page). split; [|done].
    by rewrite lookup_buildNodes, Hpage.
  - apply NoDup_ids.
  - intros i j n n'. rewrite !lookup_buildNodes.
    destruct (pages !! i) as [p|]; [|done]. destruct (pages !! j) as [q|]; [|done].
    simpl. intros [= <-] [= <-]. apply nodeId_inj.
Qed.

(** C8: synthesis is a total function, and on the empty page list it gives
    [nodeCount = 0], [edgeCount = 0] and a summary that contains the text
    [Pages discovered: 0]. *)
Theorem C8_empty_pages (target : string) (uxCounts : option UxCounts)
    (generated : string) :
  let a := buildFlowArtifacts target [] uxCounts generated in
  nodeCount (flowMeta a) = 0 ∧ edgeCount (flowMeta a) = 0 ∧
  nodes a = [] ∧ edges a = [] ∧
  includes (summary a) "Pages discovered: 0" = true.
Proof.
  cbv zeta. unfold buildFlowArtifacts.
  cbn [summary flowMeta nodeCount edgeCount nodes edges].
  split_and!; try reflexivity.
  apply (includes_join _ _ "- " ""). unfold summaryLines.
  apply elem_of_app. right. cbn [loginPages checkoutPages searchPages
    accountPages List.filter nonEmpty app].
  do 2 apply list_elem_of_further. apply list_elem_of_here.
Qed.

(** C6, as the code has it: the edge list has no duplicates, its length is
    the smaller of 120 and the number of distinct edges, it consists of the
    first 120 distinct edges in discovery order (the rest is dropped, the
    function stays total), and an edge is emitted only for a link of a page
    that equals the url of some node, which may be the node of that very
    page. *)
Theorem C6_edges_distinct_capped (target : string) (pages : list PageContext)
    (uxCounts : option UxCounts) (generated : string) :
  let a := buildFlowArtifacts target pages uxCounts generated in
  let raw := rawEdges (urlToId pages) pages in
  NoDup (edges a) ∧
  length (edges a) = Nat.min 120 (size (list_to_set raw : gset string)) ∧
  edgeCount (flowMeta a) = length (edges a) ∧
  edges a = take 120 (firstOccurrences [] raw) ∧
  (∀ e, e ∈ raw ↔
     ∃ page link i j, page ∈ pages ∧ link ∈ default [] (links page) ∧
       isLast pages (url page) i ∧ isLast pages link j ∧
       e = edgeText (nodeId i) (nodeId j)) ∧
  (∀ e, e ∈ edges a →
     ∃ page link node fromId,
       page ∈ pages ∧ link ∈ default [] (links page) ∧
       node ∈ nodes a ∧ node_url node = link ∧
       urlToId pages !! url page = Some fromId ∧
       e = edgeText fromId (id node)).
Proof.
  cbv zeta. unfold buildFlowArtifacts.
  cbn [flowMeta nodeCount edgeCount nodes edges]. split_and!.
  - apply NoDup_limitedEdges.
  - unfold limitedEdges, slice0. by rewrite length_take, length_Set_of.
  - done.
  - unfold limitedEdges, slice0. by rewrite Set_of_firstOccurrences.
  - intros e. rewrite elem_of_rawEdges. split.
    + intros (page & link & fromId & toId & Hpage & Hlink & Hfrom & Hto & _ & _ & ->).
      apply urlToId_Some in Hfrom as (i & Hi & ->).
      apply urlToId_Some in Hto as (j & Hj & ->).
      by exists page, link, i, j.
    + intros (page & link & i & j & Hpage & Hlink & Hi & Hj & ->).
      exists page, link, (nodeId i), (nodeId j).
      split_and!; auto using urlToId_last, truthy_nodeId.
  - intros e (page & link & i & j & Hpage & Hlink & Hi & Hj & ->)%elem_of_limitedEdges.
    destruct Hj as [(q & Hq & Hu) Hlater].
    exists page, link, (mkNode j q), (nodeId i). split_and!; try done.
    + apply elem_of_buildNodes. by exists j, q.
    + by apply urlToId_last.
Qed.

(** C6 as stated fails where it asks for the url of another node: a page
    that links to its own url gets an edge from its node to itself, and
    the list has no other node. *)
Lemma C6_self_link_counterexample :
  edges (buildFlowArtifacts "https://x/" selfLinkPages None "now")
    = [edgeText "p1" "p1"] ∧
  length (nodes (buildFlowArtifacts "https://x/" selfLinkPages None "now")) = 1 ∧
  ¬ (∀ e, e ∈ edges (buildFlowArtifacts "https://x/" selfLinkPages None "now") →
       ∃ i j page link node,
         i ≠ j ∧ selfLinkPages !! i = Some page ∧
         link ∈ default [] (links page) ∧
         buildNodes selfLinkPages !! j = Some node ∧ node_url node = link).
Proof.
  split_and!; [reflexivity | reflexivity |].
  intros H. destruct (H (edgeText "p1" "p1")) as (i & j & page & link & node & Hij & Hi & _ & Hj & _).
  { apply list_elem_of_here. }
  apply lookup_lt_Some in Hi, Hj. simpl in Hi, Hj. lia.
Qed.

Lemma inPublic_true (pages : list PageContext) (node : FlowNode) :
  inPublic pages node = true ↔
  ¬ urlTagged isLogin pages (node_url node) ∧
  ¬ urlTagged isCheckout pages (node_url node) ∧
  ¬ urlTagged isAccount pages (node_url node).
Proof.
  unfold inPublic. cbv zeta.
  rewrite !andb_true_iff, !negb_true_iff, <- !not_true_iff_false.
  unfold loginSet, checkoutSet, accountSet, loginPages, checkoutPages, accountPages.
  rewrite !has_tagged. tauto.
Qed.

Lemma tagged_member (tag : PageContext → bool) (pages : list PageContext)
    (i : nat) (page : PageContext) :
  pages !! i = Some page → tag page = true →
  mkNode i page ∈
    List.filter (λ node, has (Set_of (List.map url (List.filter tag pages))) (node_url node))
      (buildNodes pages).
Proof.
  intros Hpage Htag. apply elem_of_members. split.
  - apply elem_of_buildNodes. by exists i, page.
  - apply has_tagged. exists page. split_and!; [|done..].
    by eapply list_elem_of_lookup_2.
Qed.

(** C7, as the code has it: the diagram source is the header line, the
    Public block, then the Auth, Checkout and Account blocks (each present
    when some page carries the tag), then one line per deduplicated edge.
    Membership of a node goes by its url: it is in Auth, Checkout or
    Account when some page with its url carries the tag, and in Public when
    no page with its url carries any of the three. The node of a tagged
    page is in each matching block, no block repeats a line, and no edge
    line is repeated. *)
Theorem C7_diagram_groups (pages : list PageContext) :
  mermaidLines pages
  = ["flowchart LR"]
    ++ groupBlock "  subgraph Public" (publicMembers pages)
    ++ (if nonEmpty (loginPages pages)
        then groupBlock "  subgraph Auth" (authMembers pages) else [])
    ++ (if nonEmpty (checkoutPages pages)
        then groupBlock "  subgraph Checkout" (checkoutMembers pages) else [])
    ++ (if nonEmpty (accountPages pages)
        then groupBlock "  subgraph Account" (accountMembers pages) else [])
    ++ List.map (λ edge, "  " +:+ edge) (limitedEdges pages) ∧
  (∀ node, node ∈ publicMembers pages ↔
     node ∈ buildNodes pages ∧
     ¬ urlTagged isLogin pages (node_url node) ∧
     ¬ urlTagged isCheckout pages (node_url node) ∧
     ¬ urlTagged isAccount pages (node_url node)) ∧
  (∀ node, node ∈ authMembers pages ↔
     node ∈ buildNodes pages ∧ urlTagged isLogin pages (node_url node)) ∧
  (∀ node, node ∈ checkoutMembers pages ↔
     node ∈ buildNodes pages ∧ urlTagged isCheckout pages (node_url node)) ∧
  (∀ node, node ∈ accountMembers pages ↔
     node ∈ buildNodes pages ∧ urlTagged isAccount pages (node_url node)) ∧
  (∀ i page, pages !! i = Some page →
     (isLogin page = true → mkNode i page ∈ authMembers pages) ∧
     (isCheckout page = true → mkNode i page ∈ checkoutMembers pages) ∧
     (isAccount page = true → mkNode i page ∈ accountMembers pages)) ∧
  NoDup (List.map nodeLine (publicMembers pages)) ∧
  NoDup (List.map nodeLine (authMembers pages)) ∧
  NoDup (List.map nodeLine (checkoutMembers pages)) ∧
  NoDup (List.map nodeLine (accountMembers pages)) ∧
  NoDup (limitedEdges pages) ∧
  NoDup (List.map (λ edge, "  " +:+ edge) (limitedEdges pages)).
Proof.
  split_and!.
  - apply mermaidLines_blocks.
  - intros node. unfold publicMembers. by rewrite elem_of_members, inPublic_true.
  - intros node. unfold authMembers, loginSet, loginPages.
    by rewrite elem_of_members, has_tagged.
  - intros node. unfold checkoutMembers, checkoutSet, checkoutPages.
    by rewrite elem_of_members, has_tagged.
  - intros node. unfold accountMembers, accountSet, accountPages.
    by rewrite elem_of_members, has_tagged.
  - intros i page Hpage. split_and!; intros Htag;
      by apply (tagged_member _ pages i page).
  - apply NoDup_member_lines.
  - apply NoDup_member_lines.
  - apply NoDup_member_lines.
  - apply NoDup_member_lines.
  - apply NoDup_limitedEdges.
  - apply (NoDup_fmap_2 (String.app "  ")), NoDup_limitedEdges.
Qed.

(** Where the urls of the pages are pairwise distinct, membership by url
    is membership by the page's own tags. *)
Lemma urlTagged_own_tag (tag : PageContext → bool) (pages : list PageContext)
    (i : nat) (page : PageContext) :
  NoDup (List.map url pages) → pages !! i = Some page →
  urlTagged tag pages (url page) ↔ tag page = true.
Proof.
  intros Hnd Hpage. split.
  - intros (q & (j & Hq)%list_elem_of_lookup_1 & Hu & Htag).
    assert (i = j) as <-; [|congruence].
    eapply NoDup_lookup; [exact Hnd | |].
    + change (List.map url pages) with (url <$> pages).
      by rewrite list_lookup_fmap, Hpage.
    + change (List.map url pages) with (url <$> pages).
      rewrite list_lookup_fmap, Hq. simpl. by rewrite Hu.
  - intros Htag. exists page. split_and!; [|done..].
    by eapply list_elem_of_lookup_2.
Qed.

(** C7 as stated fails for pages that share a url: the second page below
    carries none of the three tags, yet its node is absent from the Public
    block and present in the Auth block. *)
Lemma C7_shared_url_counterexample :
  (∃ page, sharedUrlPages !! 1 = Some page ∧
     isLogin page = false ∧ isCheckout page = false ∧ isAccount page = false ∧
     publicMembers sharedUrlPages = [] ∧
     mkNode 1 page ∈ authMembers sharedUrlPages) ∧
  (∃ p1 p2, buildNodes sharedUrlPages = [p1; p2] ∧
     mermaidLines sharedUrlPages
     = [ "flowchart LR"; "  subgraph Public"; "  end";
         "  subgraph Auth"; nodeLine p1; nodeLine p2; "  end" ]).
Proof.
  split.
  - eexists. split; [reflexivity |]. split_and!; try reflexivity.
    apply list_elem_of_further, list_elem_of_here.
  - do 2 eexists. split; reflexivity.
Qed.

Lemma nonEmpty_elem {A} (x : A) (l : list A) : x ∈ l → nonEmpty l = true.
Proof. destruct l; [by intros ?%elem_of_nil | done]. Qed.

Lemma includes_line (sep line : string) (lines : list string) :
  line ∈ lines → includes (join sep lines) line = true.
Proof. intros (before & after & ->)%(join_infix sep). apply includes_infix. Qed.

(** C9: a page whose [hasPasswordInput] flag is true is Login-tagged
    whatever its url and title are: it is among the login-related pages,
    whose number the summary gives in its line of login-related pages,
    the summary names the login flow, and the diagram holds the line of
    the node of the page, its id and its label in brackets and quotes,
    between the opening line of the Auth block and the closing line of
    that block; the node is no member of the Public block. *)
Theorem C9_password_input_is_login (target generated : string)
    (pages : list PageContext) (uxCounts : option UxCounts) (i : nat)
    (page : PageContext) :
  pages !! i = Some page →
  hasPasswordInput page = Some true →
  let a := buildFlowArtifacts target pages uxCounts generated in
  let countLine :=
    "- Login-related pages: " +:+ natToString (length (loginPages pages)) in
  let line :=
    "    " +:+ nodeId i +:+ "[" +:+ dquote +:+ replaceQuotes (pageLabel page)
    +:+ dquote +:+ "]" in
  isLogin page = true ∧
  page ∈ loginPages pages ∧
  0 < length (loginPages pages) ∧
  countLine ∈ summaryLines target generated pages uxCounts ∧
  includes (summary a) countLine = true ∧
  includes (summary a) "- Login flow: Home -> Login -> Post-login landing" = true ∧
  mkNode i page ∈ authMembers pages ∧
  inPublic pages (mkNode i page) = false ∧
  (∃ before after,
     mermaidLines pages
     = before ++ groupBlock "  subgraph Auth" (authMembers pages) ++ after) ∧
  (∃ before earlier later after,
     authMembers pages = earlier ++ mkNode i page :: later ∧
     mermaidLines pages
     = before ++ ["  subgraph Auth"] ++ List.map nodeLine earlier ++ [line]
       ++ List.map nodeLine later ++ ["  end"] ++ after) ∧
  includes (mermaid a) line = true.
Proof.
  intros Hpage Hflag. cbv zeta.
  assert (isLogin page = true) as Hlogin.
  { unfold isLogin. by rewrite Hflag. }
  assert (page ∈ loginPages pages) as Hin.
  { apply list_elem_of_In, filter_In. split; [|done].
    apply list_elem_of_In. by eapply list_elem_of_lookup_2. }
  assert (mkNode i page ∈ authMembers pages) as Hmember.
  { by apply (tagged_member isLogin pages i page). }
  assert (has (loginSet pages) (node_url (mkNode i page)) = true) as Hset.
  { unfold authMembers in Hmember.
    by apply list_elem_of_In, filter_In in Hmember as [_ ?]. }
  assert ("- Login-related pages: " +:+ natToString (length (loginPages pages))
          ∈ summaryLines target generated pages uxCounts) as Hcount.
  { unfold summaryLines. rewrite !elem_of_app. do 5 right.
    do 3 apply list_elem_of_further. apply list_elem_of_here. }
  assert (∃ before earlier later after,
     authMembers pages = earlier ++ mkNode i page :: later ∧
     mermaidLines pages
     = before ++ ["  subgraph Auth"] ++ List.map nodeLine earlier
       ++ ["    " +:+ nodeId i +:+ "[" +:+ dquote +:+ replaceQuotes (pageLabel page)
           +:+ dquote +:+ "]"]
       ++ List.map nodeLine later ++ ["  end"] ++ after) as Hline.
  { apply list_elem_of_split in Hmember as (earlier & later & E).
    exists (["flowchart LR"] ++ groupBlock "  subgraph Public" (publicMembers pages)),
      earlier, later.
    eexists. split; [done |].
    rewrite mermaidLines_blocks, (nonEmpty_elem _ _ Hin), E.
    unfold groupBlock at 2. rewrite map_app. cbn [List.map].
    rewrite <- !app_assoc. reflexivity. }
  split_and!; try done.
  - destruct (loginPages pages); [by apply elem_of_nil in Hin | simpl; lia].
  - by apply includes_line.
  - apply includes_line. unfold summaryLines.
    rewrite (nonEmpty_elem _ _ Hin), !elem_of_app.
    right. left. apply list_elem_of_here.
  - unfold inPublic. by rewrite Hset.
  - rewrite mermaidLines_blocks, (nonEmpty_elem _ _ Hin).
    exists (["flowchart LR"] ++ groupBlock "  subgraph Public" (publicMembers pages)).
    eexists. rewrite <- !app_assoc. reflexivity.
  - destruct Hline as (before & earlier & later & after & _ & E).
    cbn [mermaid buildFlowArtifacts]. apply includes_line. rewrite E.
    rewrite !elem_of_app. right. right. right. left. apply list_elem_of_here.
Qed.

(** The login page of the test of the repository. *)
Lemma C9_witness :
  testPages !! 1
    = Some (mkPage "https://example.com/login" (Some "Login") None
              (Some ["https://example.com/dashboard"]) (Some true)) ∧
  includes (summary testArtifacts) "- Login-related pages: 1" = true ∧
  includes (mermaid testArtifacts)
    ("    p2[" +:+ dquote +:+ "Login" +:+ dquote +:+ "]") = true ∧
  ∃ before after,
    mermaidLines testPages
    = before ++ groupBlock "  subgraph Auth" (authMembers testPages) ++ after.
Proof.
  split; [reflexivity |].
  destruct (C9_password_input_is_login "https://example.com" "2026-02-21T00:00:00.000Z"
              testPages (Some testUx) 1 _ eq_refl eq_refl)
    as (_ & _ & _ & _ & Hcount & _ & _ & _ & Hblock & _ & Hline).
  exact (conj Hcount (conj Hline Hblock)).
Defined.

(** C10: when two pages share a url, each has its own node and
    [nodeCount] counts both, the url-to-id map sends the url to the id of
    the last page that has it, both ends of every edge are ids of last
    occurrences, and the id of the earlier page is an end of no edge. *)
Theorem C10_duplicate_urls (target : string) (pages : list PageContext)
    (uxCounts : option UxCounts) (generated : string)
    (i j : nat) (pi pj : PageContext) :
  i < j → pages !! i = Some pi → pages !! j = Some pj → url pi = url pj →
  let a := buildFlowArtifacts target pages uxCounts generated in
  nodeCount (flowMeta a) = length pages ∧
  nodes a !! i = Some (mkNode i pi) ∧
  nodes a !! j = Some (mkNode j pj) ∧
  (∃ k, i < k ∧ isLast pages (url pi) k ∧
        urlToId pages !! url pi = Some (nodeId k)) ∧
  (∀ e, e ∈ edges a →
     ∃ page link k l, page ∈ pages ∧ link ∈ default [] (links page) ∧
       isLast pages (url page) k ∧ isLast pages link l ∧
       e = edgeText (nodeId k) (nodeId l)) ∧
  (∀ f t, edgeText f t ∈ edges a → f ≠ nodeId i ∧ t ≠ nodeId i).
Proof.
  intros Hij Hi Hj Hu. cbv zeta. unfold buildFlowArtifacts.
  cbn [flowMeta nodeCount nodes edges].
  assert (∀ k, isLast pages (url pi) k → i < k) as Hlast.
  { intros k [_ Hlater]. destruct (decide (k < j)) as [Hlt|]; [|lia].
    by destruct (Hlater _ _ Hlt Hj). }
  assert (∀ u, ¬ isLast pages u i) as Hnot.
  { intros u Hl. pose proof Hl as [(q & Hq & Hqu) _].
    assert (q = pi) as -> by congruence. subst u.
    apply Hlast in Hl. lia. }
  split_and!.
  - apply length_buildNodes.
  - by rewrite lookup_buildNodes, Hi.
  - by rewrite lookup_buildNodes, Hj.
  - destruct (urlToId_is_Some pages pi) as [v Hv].
    { by eapply list_elem_of_lookup_2. }
    pose proof Hv as (k & Hk & ->)%urlToId_Some.
    exists k. split_and!; auto.
  - intros e. apply elem_of_limitedEdges.
  - intros f t (page & link & k & l & _ & _ & Hk & Hl & E)%elem_of_limitedEdges.
    split; intros ->.
    + symmetry in E. apply edgeText_from in E; [|by apply nodeId_free].
      apply nodeId_inj in E as ->. by eapply Hnot.
    + symmetry in E. apply edgeText_to in E; [|by apply nodeId_free].
      apply nodeId_inj in E as ->. by eapply Hnot.
Qed.

(** Three pages, two of them with one url. *)
Lemma C10_witness :
  let a := buildFlowArtifacts "https://x/a" duplicatePages None "now" in
  nodeCount (flowMeta a) = 3 ∧
  edges a = [edgeText "p3" "p2"; edgeText "p2" "p3"] ∧
  (∃ k, 0 < k ∧ isLast duplicatePages "https://x/a" k ∧
        urlToId duplicatePages !! "https://x/a" = Some (nodeId k)) ∧
  (∀ f t, edgeText f t ∈ edges a → f ≠ "p1" ∧ t ≠ "p1").
Proof.
  cbv zeta.
  destruct (C10_duplicate_urls "https://x/a" duplicatePages None "now" 0 2 _ _
              ltac:(lia) eq_refl eq_refl eq_refl)
    as (Hcount & _ & _ & Hlast & _ & Hfree).
  exact (conj Hcount (conj eq_refl (conj Hlast Hfree))).
Defined.

End BuildFlowFacts.

(** ** Facts about the discovery run *)

Module RunDiscoveryFacts.
Import Js JsFacts RunDiscovery.

(** *** The rules of the program logic *)

Lemma spec_weaken {A} (Q : Event → Prop) (R R' : A → Prop) (m : M A) :
  (∀ a, R a → R' a) → spec Q R m → spec Q R' m.
Proof.
  intros HR Hm s. destruct (Hm s) as (evs & Ht & HQ & Ha).
  exists evs. split_and!; auto.
Qed.

Lemma spec_ret {A} (Q : Event → Prop) (R : A → Prop) (a : A) :
  R a → spec Q R (mret a).
Proof.
  intros Ha s. exists []. simpl. rewrite app_nil_r.
  split_and!; [done | constructor | by intros ? [= <-]].
Qed.

Lemma spec_throw {A} (Q : Event → Prop) (R : A → Prop) (e : string) :
  spec Q R (throw e).
Proof. intros s. exists []. simpl. rewrite app_nil_r. split_and!; [done | constructor | done]. Qed.

Lemma spec_hang {A} (Q : Event → Prop) (R : A → Prop) : spec Q R hang.
Proof. intros s. exists []. simpl. rewrite app_nil_r. split_and!; [done | constructor | done]. Qed.

Lemma spec_emit (Q : Event → Prop) (R : unit → Prop) (ev : Event) :
  Q ev → R tt → spec Q R (emit ev).
Proof.
  intros Hev HR s. exists [ev]. simpl.
  split_and!; [done | by constructor | by intros [] _].
Qed.

Lemma spec_setContainerStarted (Q : Event → Prop) (R : unit → Prop) (b : bool) :
  R tt → spec Q R (setContainerStarted b).
Proof.
  intros HR s. exists []. simpl. rewrite app_nil_r.
  split_and!; [done | constructor | by intros [] _].
Qed.

Lemma spec_getContainerStarted (Q : Event → Prop) :
  spec Q any getContainerStarted.
Proof.
  intros s. exists []. simpl. rewrite app_nil_r. split_and!; [done | constructor | done].
Qed.

Lemma spec_getTrace (Q : Event → Prop) : spec Q any getTrace.
Proof.
  intros s. exists []. simpl. rewrite app_nil_r. split_and!; [done | constructor | done].
Qed.

Lemma spec_bind {A B} (Q : Event → Prop) (R : A → Prop) (R' : B → Prop)
    (m : M A) (k : A → M B) :
  spec Q R m → (∀ a, R a → spec Q R' (k a)) → spec Q R' (m ≫= k).
Proof.
  intros Hm Hk s. unfold mbind, M_bind.
  destruct (Hm s) as (evs & Ht & HQ & Ha).
  destruct (m s) as [[a| e |] s']; simpl in *.
  - destruct (Hk a (Ha a eq_refl) s') as (evs' & Ht' & HQ' & Ha').
    exists (evs ++ evs'). rewrite Ht', Ht, app_assoc.
    split_and!; [done | by apply Forall_app | done].
  - exists evs. split_and!; done.
  - exists evs. split_and!; done.
Qed.

Lemma spec_tryCatch {A} (Q : Event → Prop) (R : A → Prop)
    (body : M A) (handler : string → M A) :
  spec Q R body → (∀ e, spec Q R (handler e)) → spec Q R (tryCatch body handler).
Proof.
  intros Hb Hh s. unfold tryCatch.
  destruct (Hb s) as (evs & Ht & HQ & Ha).
  destruct (body s) as [[a| e |] s']; simpl in *.
  - exists evs. split_and!; done.
  - destruct (Hh e s') as (evs' & Ht' & HQ' & Ha').
    exists (evs ++ evs'). rewrite Ht', Ht, app_assoc.
    split_and!; [done | by apply Forall_app | done].
  - exists evs. split_and!; done.
Qed.

Lemma spec_tryFinally {A} (Q : Event → Prop) (R : A → Prop)
    (body : M A) (final : M unit) :
  spec Q R body → spec Q any final → spec Q R (tryFinally body final).
Proof.
  intros Hb Hf s. unfold tryFinally.
  destruct (Hb s) as (evs & Ht & HQ & Ha).
  destruct (body s) as [[a| e |] s']; simpl in *.
  - destruct (Hf s') as (evs' & Ht' & HQ' & _).
    destruct (final s') as [[[]| e' |] s'']; simpl in *;
      exists (evs ++ evs'); rewrite Ht', Ht, app_assoc;
      (split_and!; [done | by apply Forall_app | done]).
  - destruct (Hf s') as (evs' & Ht' & HQ' & _).
    destruct (final s') as [[[]| e' |] s'']; simpl in *;
      exists (evs ++ evs'); rewrite Ht', Ht, app_assoc;
      (split_and!; [done | by apply Forall_app | done]).
  - exists evs. split_and!; done.
Qed.

Lemma spec_lift {A} (Q : Event → Prop) (R : A → Prop) (o : outcome A) :
  (∀ a, o = Returns a → R a) → spec Q R (lift o).
Proof.
  intros HR. destruct o as [a|e]; simpl.
  - apply spec_ret. by apply HR.
  - apply spec_throw.
Qed.

Lemma spec_if {A} (Q : Event → Prop) (R : A → Prop) (b : bool) (m1 m2 : M A) :
  spec Q R m1 → spec Q R m2 → spec Q R (if b then m1 else m2).
Proof. by destruct b. Qed.

Lemma spec_execSync (Q : Event → Prop) (c : Command) (o : outcome unit) :
  Q (Exec c (succeeded o)) → spec Q any (execSync c o).
Proof.
  intros Hev. unfold execSync. eapply (spec_bind _ any); [by apply spec_emit |].
  intros _ _. by apply spec_lift.
Qed.

Lemma spec_fetch {A} (Q : Event → Prop) (r : Request) (o : outcome A) :
  Q (Fetch r) → spec Q (λ a, o = Returns a) (fetch r o).
Proof.
  intros Hev. unfold fetch. eapply (spec_bind _ any); [by apply spec_emit |].
  intros _ _. by apply spec_lift.
Qed.

(** The same rules for [keeps]. *)

Lemma keeps_ret {A} (a : A) : keeps (mret a : M A).
Proof. done. Qed.

Lemma keeps_throw {A} (e : string) : keeps (throw e : M A).
Proof. done. Qed.

Lemma keeps_hang {A} : keeps (hang : M A).
Proof. done. Qed.

Lemma keeps_emit (ev : Event) : keeps (emit ev).
Proof. done. Qed.

Lemma keeps_getTrace : keeps getTrace.
Proof. done. Qed.

Lemma keeps_bind {A B} (m : M A) (k : A → M B) :
  keeps m → (∀ a, keeps (k a)) → keeps (m ≫= k).
Proof.
  intros Hm Hk s. unfold mbind, M_bind. specialize (Hm s).
  destruct (m s) as [[a| e |] s']; simpl in *; [|done..].
  by rewrite Hk.
Qed.

Lemma keeps_tryCatch {A} (body : M A) (handler : string → M A) :
  keeps body → (∀ e, keeps (handler e)) → keeps (tryCatch body handler).
Proof.
  intros Hb Hh s. unfold tryCatch. specialize (Hb s).
  destruct (body s) as [[a| e |] s']; simpl in *; [done | | done].
  by rewrite Hh.
Qed.

Lemma keeps_lift {A} (o : outcome A) : keeps (lift o).
Proof. by destruct o. Qed.

Lemma keeps_if {A} (b : bool) (m1 m2 : M A) :
  keeps m1 → keeps m2 → keeps (if b then m1 else m2).
Proof. by destruct b. Qed.

Lemma keeps_execSync (c : Command) (o : outcome unit) : keeps (execSync c o).
Proof. apply keeps_bind; [apply keeps_emit | intros; apply keeps_lift]. Qed.

Lemma keeps_fetch {A} (r : Request) (o : outcome A) : keeps (fetch r o).
Proof. apply keeps_bind; [apply keeps_emit | intros; apply keeps_lift]. Qed.

(** *** The blocks of the script *)

Section Blocks.
Variable env : Env.
Variable Q : Event → Prop.
Hypothesis Hbenign : benign Q.

Lemma spec_writeJson (data : string → UrlsArtifact) :
  (∀ n ok, Q (WriteUrls (data (clock env n)) ok)) →
  spec Q any (writeJson env data).
Proof.
  intros Hw. unfold writeJson. eapply (spec_bind _ any); [apply spec_getTrace |].
  intros t _. eapply (spec_bind _ any); [by apply spec_emit |].
  intros _ _. by apply spec_lift.
Qed.

Lemma spec_getAuthCookies : spec Q any (getAuthCookies env).
Proof.
  destruct Hbenign as (_ & _ & Hwarn & _). unfold getAuthCookies. cbv zeta.
  apply spec_if.
  - eapply (spec_bind _ any); [by apply spec_emit |]. intros _ _. by apply spec_ret.
  - eapply (spec_bind _ any); [by apply spec_lift |]. intros c _. by apply spec_ret.
Qed.

Lemma spec_waitReady (budget attempt : nat) :
  spec Q any (waitReady env budget attempt).
Proof.
  destruct Hbenign as (Hfetch & Hsleep & _).
  revert attempt. induction budget as [|budget IH]; intros attempt; simpl.
  - by apply spec_ret.
  - eapply (spec_bind _ any); [by apply spec_emit |]. intros _ _.
    destruct (versionProbe env attempt) as [[|]|e];
      [by apply spec_ret | |];
      (eapply (spec_bind _ any); [by apply spec_emit | intros _ _; apply IH]).
Qed.

Lemma spec_pollSpider (scanId : string) (polls : list (outcome string)) :
  spec Q any (pollSpider scanId polls).
Proof.
  destruct Hbenign as (Hfetch & Hsleep & _).
  induction polls as [|o polls IH]; simpl; [apply spec_hang |].
  eapply (spec_bind _ any); [by apply spec_emit |]. intros _ _.
  eapply spec_bind; [by apply spec_fetch |]. intros status _.
  apply spec_if; [by apply spec_ret | apply IH].
Qed.

Lemma spec_pollAjax (polls : list (outcome string)) :
  spec Q any (pollAjax polls).
Proof.
  destruct Hbenign as (Hfetch & Hsleep & _).
  induction polls as [|o polls IH]; simpl; [apply spec_hang |].
  eapply (spec_bind _ any); [by apply spec_emit |]. intros _ _.
  eapply spec_bind; [by apply spec_fetch |]. intros status _.
  apply spec_if; [by apply spec_ret | apply IH].
Qed.

Lemma spec_scan (cookieHeader : string) : spec Q (scanned env) (scan env cookieHeader).
Proof.
  pose proof Hbenign as (Hfetch & Hsleep & _). unfold scan.
  eapply (spec_bind _ any); [apply spec_waitReady |]. intros ready _.
  eapply (spec_bind _ any).
  { apply spec_if; [by apply spec_ret | apply spec_throw]. }
  intros _ _. eapply (spec_bind _ any).
  { apply spec_if; [|by apply spec_ret].
    eapply spec_weaken; [|by apply spec_fetch]. done. }
  intros _ _. eapply spec_bind; [by apply spec_fetch |]. intros scanId _.
  eapply (spec_bind _ any); [apply spec_pollSpider |]. intros _ _.
  eapply (spec_bind _ any).
  { eapply spec_weaken; [|by apply spec_fetch]. done. }
  intros _ _. eapply (spec_bind _ any); [apply spec_pollAjax |]. intros _ _.
  eapply spec_bind; [by apply spec_fetch |]. intros core Hcore.
  eapply spec_bind; [by apply spec_fetch |]. intros spider Hspider.
  cbv zeta. unfold filterSameOrigin.
  destruct (urlOrigin env (TARGET_URL env)) as [origin|] eqn:Horigin.
  - eapply (spec_bind _ (λ f, f = List.filter (hasOrigin env origin)
                                  (allUrls core spider)));
      [by apply spec_ret |].
    intros filtered ->. apply spec_ret. by exists core, spider, origin.
  - eapply (spec_bind _ (λ _, False)); [apply spec_throw | by intros ? []].
Qed.

Hypothesis HexecInfo : ∀ ok, Q (Exec DockerInfo ok).
Hypothesis HexecRun : ∀ n p r d ok, Q (Exec (DockerRun n p r d) ok).
Hypothesis HexecRm : ∀ n ok, Q (Exec (DockerRm n) ok).
Hypothesis Hfallback : ∀ reason n ok,
  reason ∈ reasonCodes →
  Q (WriteUrls (fallbackArtifact env reason (clock env n)) ok).
Hypothesis Hsuccess : ∀ found n ok,
  scanned env found →
  Q (WriteUrls (successArtifact env found.1 found.2 (clock env n)) ok).

Lemma spec_writeFallbackUrls (reason : string) :
  reason ∈ reasonCodes → spec Q any (writeFallbackUrls env reason).
Proof. intros Hr. apply spec_writeJson. intros n ok. by apply Hfallback. Qed.

Lemma spec_scanAndWrite (cookieHeader : string) :
  spec Q any (scanAndWrite env cookieHeader).
Proof.
  unfold scanAndWrite.
  eapply spec_bind; [apply spec_scan |]. intros [all filtered] Hfound.
  apply spec_writeJson. intros n ok. by apply (Hsuccess (all, filtered)).
Qed.

Lemma spec_tryBlock (cookieHeader : string) : spec Q any (tryBlock env cookieHeader).
Proof.
  unfold tryBlock.
  eapply (spec_bind _ any); [by apply spec_execSync |]. intros _ _.
  eapply (spec_bind _ any); [by apply spec_setContainerStarted |]. intros _ _.
  apply spec_scanAndWrite.
Qed.

Lemma spec_catchBlock (message : string) : spec Q any (catchBlock env message).
Proof.
  destruct Hbenign as (_ & _ & _ & Herror). unfold catchBlock.
  eapply (spec_bind _ any); [by apply spec_emit |]. intros _ _.
  apply spec_writeFallbackUrls. unfold reasonCodes.
  apply list_elem_of_further, list_elem_of_here.
Qed.

Lemma spec_finallyBlock : spec Q any (finallyBlock env).
Proof.
  unfold finallyBlock.
  eapply (spec_bind _ any); [apply spec_getContainerStarted |]. intros started _.
  apply spec_if; [|by apply spec_ret].
  apply spec_tryCatch; [by apply spec_execSync | intros; by apply spec_ret].
Qed.

Lemma spec_authPhase : spec Q any (authPhase env).
Proof.
  unfold authPhase. apply spec_if; [|by apply spec_ret].
  eapply (spec_bind _ any); [apply spec_getAuthCookies |].
  intros; by apply spec_ret.
Qed.

Lemma spec_checkRuntime : spec Q any (checkRuntime env).
Proof.
  destruct Hbenign as (_ & _ & Hwarn & _). unfold checkRuntime.
  apply spec_tryCatch.
  - eapply (spec_bind _ any); [by apply spec_execSync |].
    intros; by apply spec_ret.
  - intros e. eapply (spec_bind _ any); [by apply spec_emit |]. intros _ _.
    eapply (spec_bind _ any); [|intros; by apply spec_ret].
    apply spec_writeFallbackUrls. apply list_elem_of_here.
Qed.

Lemma spec_main : spec Q any (main env).
Proof.
  unfold main.
  eapply (spec_bind _ any); [apply spec_authPhase |].
  intros cookieHeader _.
  eapply (spec_bind _ any); [apply spec_checkRuntime |].
  intros dockerAvailable _. apply spec_if; [|by apply spec_ret].
  eapply (spec_bind _ any); [by apply spec_setContainerStarted |]. intros _ _.
  apply spec_tryFinally; [|apply spec_finallyBlock].
  apply spec_tryCatch; [apply spec_tryBlock | apply spec_catchBlock].
Qed.

Lemma spec_topHandler (message : string) : spec Q any (topHandler env message).
Proof.
  destruct Hbenign as (_ & _ & _ & Herror). unfold topHandler.
  eapply (spec_bind _ any); [by apply spec_emit |]. intros _ _.
  apply spec_writeFallbackUrls. unfold reasonCodes.
  do 2 apply list_elem_of_further. apply list_elem_of_here.
Qed.

Lemma spec_discover : spec Q any (discover env).
Proof. apply spec_tryCatch; [apply spec_main | apply spec_topHandler]. Qed.

(** Every event of a run satisfies [Q]. *)
Lemma run_events : Forall Q (trace (run env).2).
Proof.
  destruct (spec_discover {| trace := []; containerStarted := false |})
    as (evs & Ht & HQ & _).
  unfold run. by rewrite Ht.
Qed.

End Blocks.

(** The blocks that leave [containerStarted] alone. *)
Section Keeps.
Variable env : Env.

Lemma keeps_writeJson (data : string → UrlsArtifact) : keeps (writeJson env data).
Proof.
  unfold writeJson. apply keeps_bind; [apply keeps_getTrace |]. intros t.
  apply keeps_bind; [apply keeps_emit | intros; apply keeps_lift].
Qed.

Lemma keeps_getAuthCookies : keeps (getAuthCookies env).
Proof.
  unfold getAuthCookies. cbv zeta. apply keeps_if.
  - apply keeps_bind; [apply keeps_emit | intros; apply keeps_ret].
  - apply keeps_bind; [apply keeps_lift | intros; apply keeps_ret].
Qed.

Lemma keeps_authPhase : keeps (authPhase env).
Proof.
  unfold authPhase. apply keeps_if; [|apply keeps_ret].
  apply keeps_bind; [apply keeps_getAuthCookies | intros; apply keeps_ret].
Qed.

Lemma keeps_checkRuntime : keeps (checkRuntime env).
Proof.
  unfold checkRuntime. apply keeps_tryCatch.
  - apply keeps_bind; [apply keeps_execSync | intros; apply keeps_ret].
  - intros e. apply keeps_bind; [apply keeps_emit |]. intros _.
    apply keeps_bind; [apply keeps_writeJson | intros; apply keeps_ret].
Qed.

Lemma keeps_waitReady (budget attempt : nat) : keeps (waitReady env budget attempt).
Proof.
  revert attempt. induction budget as [|budget IH]; intros attempt; simpl.
  - apply keeps_ret.
  - apply keeps_bind; [apply keeps_emit |]. intros _.
    destruct (versionProbe env attempt) as [[|]|e]; [apply keeps_ret | |];
      (apply keeps_bind; [apply keeps_emit | intros; apply IH]).
Qed.

Lemma keeps_pollSpider (scanId : string) (polls : list (outcome string)) :
  keeps (pollSpider scanId polls).
Proof.
  induction polls as [|o polls IH]; simpl; [apply keeps_hang |].
  apply keeps_bind; [apply keeps_emit |]. intros _.
  apply keeps_bind; [apply keeps_fetch |]. intros status.
  apply keeps_if; [apply keeps_ret | apply IH].
Qed.

Lemma keeps_pollAjax (polls : list (outcome string)) : keeps (pollAjax polls).
Proof.
  induction polls as [|o polls IH]; simpl; [apply keeps_hang |].
  apply keeps_bind; [apply keeps_emit |]. intros _.
  apply keeps_bind; [apply keeps_fetch |]. intros status.
  apply keeps_if; [apply keeps_ret | apply IH].
Qed.

Lemma keeps_scan (cookieHeader : string) : keeps (scan env cookieHeader).
Proof.
  unfold scan.
  apply keeps_bind; [apply keeps_waitReady |]. intros ready.
  apply keeps_bind; [apply keeps_if; [apply keeps_ret | apply keeps_throw] |].
  intros _.
  apply keeps_bind; [apply keeps_if; [apply keeps_fetch | apply keeps_ret] |].
  intros _. apply keeps_bind; [apply keeps_fetch |]. intros scanId.
  apply keeps_bind; [apply keeps_pollSpider |]. intros _.
  apply keeps_bind; [apply keeps_fetch |]. intros _.
  apply keeps_bind; [apply keeps_pollAjax |]. intros _.
  apply keeps_bind; [apply keeps_fetch |]. intros core.
  apply keeps_bind; [apply keeps_fetch |]. intros spider. cbv zeta.
  apply keeps_bind; [|intros; apply keeps_ret].
  unfold filterSameOrigin. destruct (urlOrigin env (TARGET_URL env));
    [apply keeps_ret | apply keeps_throw].
Qed.

Lemma keeps_scanAndWrite (cookieHeader : string) : keeps (scanAndWrite env cookieHeader).
Proof.
  unfold scanAndWrite. apply keeps_bind; [apply keeps_scan |].
  intros [all filtered]. apply keeps_writeJson.
Qed.

Lemma keeps_catchBlock (message : string) : keeps (catchBlock env message).
Proof.
  unfold catchBlock. apply keeps_bind; [apply keeps_emit |]. intros _.
  apply keeps_writeJson.
Qed.

Lemma keeps_topHandler (message : string) : keeps (topHandler env message).
Proof.
  unfold topHandler. apply keeps_bind; [apply keeps_emit |]. intros _.
  apply keeps_writeJson.
Qed.

End Keeps.

(** A block that satisfies [spec Q] and [keeps] runs to a state that
    differs by appended [Q] events only. *)
Lemma framed_run_post {A} (Q : Event → Prop) (R : A → Prop) (m : M A) (s : State) :
  spec Q R m → keeps m →
  ∃ r evs, m s = (r, {| trace := trace s ++ evs;
                        containerStarted := containerStarted s |}) ∧
           Forall Q evs ∧ ∀ a, r = Done a → R a.
Proof.
  intros Hm Hk. destruct (Hm s) as (evs & Ht & HQ & Ha). specialize (Hk s).
  destruct (m s) as [r [t c]]. simpl in *. subst. by exists r, evs.
Qed.

Lemma framed_run {A} (Q : Event → Prop) (m : M A) (s : State) :
  spec Q any m → keeps m →
  ∃ r evs, m s = (r, {| trace := trace s ++ evs;
                        containerStarted := containerStarted s |}) ∧
           Forall Q evs.
Proof.
  intros Hm Hk. destruct (framed_run_post Q any m s Hm Hk) as (r & evs & H1 & H2 & _).
  by exists r, evs.
Qed.

(** *** Teardown *)

Lemma benign_quiet : benign quietEvent.
Proof. by split_and!. Qed.

Lemma teardowns_app (t evs : list Event) :
  teardowns (t ++ evs) = teardowns t ++ teardowns evs.
Proof. apply List.filter_app. Qed.

Lemma engineStarted_app (t evs : list Event) :
  engineStarted (t ++ evs) = engineStarted t || engineStarted evs.
Proof. apply existsb_app. Qed.

Lemma teardowns_quiet (evs : list Event) : Forall quietEvent evs → teardowns evs = [].
Proof.
  induction 1 as [|ev evs [Hev _] _ IH]; [done |].
  unfold teardowns in *. simpl. by rewrite Hev.
Qed.

Lemma engineStarted_quiet (evs : list Event) :
  Forall quietEvent evs → engineStarted evs = false.
Proof.
  induction 1 as [|ev evs [_ Hev] _ IH]; [done |].
  unfold engineStarted in *. simpl. by rewrite Hev.
Qed.

Section Teardown.
Variable env : Env.

Lemma quiet_authPhase (s : State) :
  ∃ r evs, authPhase env s
           = (r, {| trace := trace s ++ evs; containerStarted := containerStarted s |})
           ∧ Forall quietEvent evs.
Proof.
  apply framed_run; [|apply keeps_authPhase].
  apply spec_authPhase, benign_quiet.
Qed.

Lemma quiet_checkRuntime (s : State) :
  ∃ r evs, checkRuntime env s
           = (r, {| trace := trace s ++ evs; containerStarted := containerStarted s |})
           ∧ Forall quietEvent evs.
Proof.
  apply framed_run; [|apply keeps_checkRuntime].
  apply spec_checkRuntime; [apply benign_quiet | done..].
Qed.

Lemma quiet_scanAndWrite (h : string) (s : State) :
  ∃ r evs, scanAndWrite env h s
           = (r, {| trace := trace s ++ evs; containerStarted := containerStarted s |})
           ∧ Forall quietEvent evs.
Proof.
  apply framed_run; [|apply keeps_scanAndWrite].
  apply spec_scanAndWrite; [apply benign_quiet | done].
Qed.

Lemma quiet_catchBlock (e : string) (s : State) :
  ∃ r evs, catchBlock env e s
           = (r, {| trace := trace s ++ evs; containerStarted := containerStarted s |})
           ∧ Forall quietEvent evs.
Proof.
  apply framed_run; [|apply keeps_catchBlock].
  apply spec_catchBlock; [apply benign_quiet | done].
Qed.

Lemma quiet_topHandler (e : string) (s : State) :
  ∃ r evs, topHandler env e s
           = (r, {| trace := trace s ++ evs; containerStarted := containerStarted s |})
           ∧ Forall quietEvent evs.
Proof.
  apply framed_run; [|apply keeps_topHandler].
  apply spec_topHandler; [apply benign_quiet | done].
Qed.

(** The [finally] block always completes; it removes the engine when
    [containerStarted] is set and prints nothing. *)
Lemma finallyBlock_run (s : State) :
  finallyBlock env s
  = (Done tt,
     if containerStarted s
     then {| trace := trace s ++ [Exec (DockerRm (containerName env))
                                    (succeeded (dockerRm env))];
             containerStarted := true |}
     else s).
Proof.
  destruct s as [t [|]]; unfold finallyBlock, tryCatch, execSync; simpl;
    [|done].
  destruct (dockerRm env) as [[]|e]; done.
Qed.

Lemma tryBlock_throws (h e : string) (t : list Event) :
  dockerRun env = Throws e →
  ∃ ev, quietEvent ev ∧
    tryBlock env h {| trace := t; containerStarted := false |}
    = (Raised e, {| trace := t ++ [ev]; containerStarted := false |}).
Proof.
  intros Hrun. eexists. split; [|unfold tryBlock, execSync; by rewrite Hrun].
  done.
Qed.

Lemma tryBlock_returns (h : string) (t : list Event) :
  dockerRun env = Returns tt →
  ∃ r evs, Forall quietEvent evs ∧
    tryBlock env h {| trace := t; containerStarted := false |}
    = (r, {| trace := t ++ (engineStart env) :: evs; containerStarted := true |}).
Proof.
  intros Hrun.
  destruct (quiet_scanAndWrite h
              {| trace := t ++ [engineStart env]; containerStarted := true |})
    as (r & evs & Hrest & HQ). simpl in Hrest.
  exists r, evs. split; [done |].
  unfold tryBlock, execSync. rewrite Hrun.
  unfold mbind, M_bind. simpl. unfold engineStart in Hrest.
  rewrite Hrest. by rewrite <- app_assoc.
Qed.

Lemma engineStart_not_teardown : isTeardown (engineStart env) = false.
Proof. done. Qed.

Lemma shape_not_started (r : result unit) (evs : list Event) :
  Forall quietEvent evs → teardownShape env r evs.
Proof. left. auto using engineStarted_quiet, teardowns_quiet. Qed.

Lemma shape_hangs (pre mid : list Event) :
  Forall quietEvent pre → Forall quietEvent mid →
  teardownShape env Hangs (pre ++ (engineStart env) :: mid).
Proof.
  intros Hpre Hmid. right. left. split_and!; [|done|].
  - rewrite engineStarted_app. simpl. apply orb_true_r.
  - rewrite teardowns_app, (teardowns_quiet pre) by done.
    unfold teardowns. simpl. by apply teardowns_quiet.
Qed.

Lemma shape_torn_down (r : result unit) (pre mid post : list Event) :
  r ≠ Hangs →
  Forall quietEvent pre → Forall quietEvent mid → Forall quietEvent post →
  teardownShape env r (pre ++ (engineStart env) :: mid ++ (teardown env) :: post).
Proof.
  intros Hr Hpre Hmid Hpost. right. right. split_and!; [|done|].
  - rewrite engineStarted_app. simpl. apply orb_true_r.
  - rewrite teardowns_app, (teardowns_quiet pre) by done.
    unfold teardowns. simpl. fold (teardowns (mid ++ (teardown env) :: post)).
    rewrite teardowns_app, (teardowns_quiet mid) by done.
    unfold teardowns. simpl. fold (teardowns post).
    by rewrite (teardowns_quiet post).
Qed.

(** The [try], [catch] and [finally] blocks of [main] together. *)
Lemma engine_block (h : string) (t : list Event) :
  ∃ r mid,
    Forall quietEvent mid ∧
    ((∃ c, tryFinally (tryCatch (tryBlock env h) (catchBlock env)) (finallyBlock env)
             {| trace := t; containerStarted := false |}
           = (r, {| trace := t ++ mid; containerStarted := c |})) ∨
     (r = Hangs ∧ ∃ c,
        tryFinally (tryCatch (tryBlock env h) (catchBlock env)) (finallyBlock env)
          {| trace := t; containerStarted := false |}
        = (r, {| trace := t ++ (engineStart env) :: mid; containerStarted := c |})) ∨
     (r ≠ Hangs ∧ ∃ c,
        tryFinally (tryCatch (tryBlock env h) (catchBlock env)) (finallyBlock env)
          {| trace := t; containerStarted := false |}
        = (r, {| trace := t ++ (engineStart env) :: mid ++ [teardown env];
                 containerStarted := c |}))).
Proof.
  unfold tryFinally, tryCatch.
  destruct (dockerRun env) as [[]|e] eqn:Hrun.
  - destruct (tryBlock_returns h t Hrun) as (r & evs & HQ & ->).
    destruct r as [[]|e|].
    + rewrite finallyBlock_run. simpl.
      exists (Done tt), evs. split; [done |]. right. right.
      split; [done |]. exists true. by rewrite <- app_assoc.
    + destruct (quiet_catchBlock e
                  {| trace := t ++ (engineStart env) :: evs; containerStarted := true |})
        as (r & evs' & -> & HQ'). simpl.
      destruct r as [[]|e'|].
      * rewrite finallyBlock_run. simpl.
        exists (Done tt), (evs ++ evs'). split; [by apply Forall_app |].
        right. right. split; [done |]. exists true.
        by rewrite <- !app_assoc.
      * rewrite finallyBlock_run. simpl.
        exists (Raised e'), (evs ++ evs'). split; [by apply Forall_app |].
        right. right. split; [done |]. exists true.
        by rewrite <- !app_assoc.
      * exists Hangs, (evs ++ evs'). split; [by apply Forall_app |].
        right. left. split; [done |]. exists true.
        by rewrite <- !app_assoc.
    + exists Hangs, evs. split; [done |]. right. left.
      split; [done |]. by exists true.
  - destruct (tryBlock_throws h e t Hrun) as (ev & Hev & ->).
    destruct (quiet_catchBlock e
                {| trace := t ++ [ev]; containerStarted := false |})
      as (r & evs' & -> & HQ'). simpl.
    exists r, (ev :: evs'). split; [by constructor |]. left. exists false.
    destruct r as [[]|e'|]; rewrite ?finallyBlock_run; simpl;
      by rewrite <- app_assoc.
Qed.

(** The top-level handler, applied to the result of [main]. *)
Lemma topHandler_after (r : result unit) (s : State) :
  ∃ r' post,
    Forall quietEvent post ∧ (r' = Hangs ↔ r = Hangs) ∧
    match r with
    | Raised e => topHandler env e s
    | _ => (r, s)
    end = (r', {| trace := trace s ++ post; containerStarted := containerStarted s |}).
Proof.
  destruct r as [[]|e|].
  - exists (Done tt), []. rewrite app_nil_r. by destruct s.
  - destruct (quiet_topHandler e s) as (r' & post & Hrun & HQ).
    exists r', post. split_and!; [done | |done].
    split; [|done]. intros ->.
    revert Hrun. unfold topHandler, writeFallbackUrls, writeJson, emit, getTrace,
      mbind, M_bind. simpl.
    by destruct (writeUrls env _).
  - exists Hangs, []. rewrite app_nil_r. by destruct s.
Qed.

Lemma main_unfold (s : State) :
  main env s
  = match authPhase env s with
    | (Done h, s1) =>
        match checkRuntime env s1 with
        | (Done true, s2) =>
            tryFinally (tryCatch (tryBlock env h) (catchBlock env))
              (finallyBlock env)
              {| trace := trace s2; containerStarted := false |}
        | (Done false, s2) => (Done tt, s2)
        | (Raised e, s2) => (Raised e, s2)
        | (Hangs, s2) => (Hangs, s2)
        end
    | (Raised e, s1) => (Raised e, s1)
    | (Hangs, s1) => (Hangs, s1)
    end.
Proof.
  unfold main, mbind, M_bind.
  destruct (authPhase env s) as [[h|e|] s1]; try done.
  destruct (checkRuntime env s1) as [[[|]|e|] s2]; done.
Qed.

Lemma run_unfold :
  run env
  = match (main env {| trace := []; containerStarted := false |}).1 with
    | Raised e =>
        topHandler env e (main env {| trace := []; containerStarted := false |}).2
    | _ => main env {| trace := []; containerStarted := false |}
    end.
Proof.
  unfold run, discover, tryCatch.
  by destruct (main env _) as [[[]|e|] s].
Qed.

(** Every run has one of the three shapes. *)
Lemma run_teardownShape : teardownShape env (run env).1 (trace (run env).2).
Proof.
  rewrite run_unfold, main_unfold.
  destruct (quiet_authPhase {| trace := []; containerStarted := false |})
    as (r1 & evs1 & -> & H1). simpl.
  destruct r1 as [h|e|]; cycle 1.
  { simpl.
    destruct (topHandler_after (Raised e)
                {| trace := evs1; containerStarted := false |})
      as (r' & post & HQ & _ & ->). simpl.
    apply shape_not_started. by apply Forall_app. }
  { simpl. by apply shape_not_started. }
  destruct (quiet_checkRuntime {| trace := evs1; containerStarted := false |})
    as (r2 & evs2 & -> & H2). simpl.
  destruct r2 as [[|]|e|]; cycle 1.
  { simpl. apply shape_not_started. by apply Forall_app. }
  { simpl.
    destruct (topHandler_after (Raised e)
                {| trace := evs1 ++ evs2; containerStarted := false |})
      as (r' & post & HQ & _ & ->). simpl.
    apply shape_not_started. rewrite !Forall_app; by split_and!. }
  { simpl. apply shape_not_started. by apply Forall_app. }
  destruct (engine_block h (evs1 ++ evs2))
    as (r & mid & Hmid & [(c & ->)|[(-> & c & ->)|(Hr & c & ->)]]).
  - simpl.
    destruct (topHandler_after r
                {| trace := (evs1 ++ evs2) ++ mid; containerStarted := c |})
      as (r' & post & HQ & _ & Hrun). simpl in Hrun.
    destruct r as [[]|e|]; simpl; rewrite ?Hrun; simpl;
      apply shape_not_started; rewrite !Forall_app; by split_and!.
  - simpl. apply shape_hangs; [by apply Forall_app | done].
  - simpl.
    destruct (topHandler_after r
                {| trace := (evs1 ++ evs2) ++ (engineStart env) :: mid ++ [teardown env];
                   containerStarted := c |})
      as (r' & post & HQ & Hiff & Hrun). simpl in Hrun.
    assert (teardownShape env r'
              (((evs1 ++ evs2) ++ (engineStart env) :: mid ++ [teardown env]) ++ post)) as Hshape.
    { replace (((evs1 ++ evs2) ++ (engineStart env) :: mid ++ [teardown env]) ++ post)
        with ((evs1 ++ evs2) ++ (engineStart env) :: mid ++ (teardown env) :: post).
      2:{ rewrite <- (app_assoc (evs1 ++ evs2)). simpl. by rewrite <- (app_assoc mid). }
      apply shape_torn_down; [|by apply Forall_app|done..].
      intros ?. by apply Hr, Hiff. }
    destruct r as [[]|e|]; simpl; rewrite ?Hrun; simpl; [| |done].
    + injection Hrun as <- Hpost. by rewrite <- Hpost in Hshape.
    + done.
Qed.

End Teardown.

(** *** A failing teardown changes nothing else *)

Section Independence.
Variable env : Env.

Lemma normal_app (t evs : list Event) : normal (t ++ evs) = normal t ++ normal evs.
Proof. apply map_app. Qed.

Lemma writes_normal (t : list Event) :
  length (List.filter isWrite (normal t)) = length (List.filter isWrite t).
Proof.
  induction t as [|ev t IH]; [done |]. simpl.
  destruct ev as [[]| | | | |]; simpl; by rewrite ?IH.
Qed.

Lemma written_normal (t : list Event) : written (normal t) = written t.
Proof.
  induction t as [|ev t IH]; [done |].
  destruct ev as [[]| | | | |]; simpl; by rewrite ?IH.
Qed.

Lemma attempted_normal (t : list Event) : attempted (normal t) = attempted t.
Proof.
  induction t as [|ev t IH]; [done |].
  destruct ev as [[]| | | | |]; simpl; by rewrite ?IH.
Qed.

Lemma consoleLines_normal (t : list Event) : consoleLines (normal t) = consoleLines t.
Proof.
  induction t as [|ev t IH]; [done |]. unfold consoleLines in *.
  destruct ev as [[]| | | | |]; simpl; by rewrite ?IH.
Qed.

Lemma topHandler_normal (e : string) (s1 s2 : State) :
  normal (trace s1) = normal (trace s2) →
  (topHandler env e s1).1 = (topHandler env e s2).1 ∧
  normal (trace (topHandler env e s1).2) = normal (trace (topHandler env e s2).2).
Proof.
  intros Hn.
  assert (length (List.filter isWrite (trace s1))
          = length (List.filter isWrite (trace s2))) as Hw.
  { by rewrite <- (writes_normal (trace s1)), Hn, writes_normal. }
  unfold topHandler, writeFallbackUrls, writeJson, emit, getTrace, mbind, M_bind.
  simpl. rewrite !List.filter_app, !length_app, Hw. simpl.
  destruct (writeUrls env _); simpl; rewrite !normal_app, Hn; done.
Qed.

Lemma finallyBlock_normal (s : State) :
  (finallyBlock (withDockerRm (Returns tt) env) s).1 = (finallyBlock env s).1 ∧
  normal (trace (finallyBlock (withDockerRm (Returns tt) env) s).2)
  = normal (trace (finallyBlock env s).2).
Proof.
  rewrite !finallyBlock_run. simpl. split; [done |].
  destruct (containerStarted s); [|done]. simpl. by rewrite !normal_app.
Qed.

Lemma waitReady_independent (o : outcome unit) (budget attempt : nat) :
  waitReady (withDockerRm o env) budget attempt = waitReady env budget attempt.
Proof.
  revert attempt. induction budget as [|budget IH]; intros attempt; [done |].
  simpl. by rewrite IH.
Qed.

Lemma tryBlock_independent (o : outcome unit) (h : string) :
  tryBlock (withDockerRm o env) h = tryBlock env h.
Proof.
  unfold tryBlock, scanAndWrite, scan. by rewrite waitReady_independent.
Qed.

Lemma main_independent (s : State) :
  (main (withDockerRm (Returns tt) env) s).1 = (main env s).1 ∧
  normal (trace (main (withDockerRm (Returns tt) env) s).2)
  = normal (trace (main env s).2).
Proof.
  rewrite !main_unfold.
  change (authPhase (withDockerRm (Returns tt) env)) with (authPhase env).
  destruct (authPhase env s) as [[h|e|] s1]; [|done..].
  change (checkRuntime (withDockerRm (Returns tt) env)) with (checkRuntime env).
  destruct (checkRuntime env s1) as [[[|]|e|] s2]; [|done..].
  unfold tryFinally.
  rewrite tryBlock_independent.
  change (catchBlock (withDockerRm (Returns tt) env)) with (catchBlock env).
  destruct (tryCatch (tryBlock env h) (catchBlock env) _) as [[[]|e|] s3];
    [| |done];
    pose proof (finallyBlock_normal s3) as [Hr Hn];
    rewrite !finallyBlock_run in *; simpl in *; done.
Qed.

(** The result of a run, what it writes and what it prints do not depend
    on the outcome of [docker rm]. *)
Lemma run_independent :
  (run (withDockerRm (Returns tt) env)).1 = (run env).1 ∧
  normal (trace (run (withDockerRm (Returns tt) env)).2)
  = normal (trace (run env).2).
Proof.
  rewrite !run_unfold.
  destruct (main_independent {| trace := []; containerStarted := false |})
    as [Hr Hn].
  destruct (main env _) as [r s], (main (withDockerRm _ env) _) as [r' s'].
  simpl in *. subst r'. destruct r as [[]|e|]; [done | | done].
  change (topHandler (withDockerRm (Returns tt) env)) with (topHandler env).
  by apply topHandler_normal.
Qed.

End Independence.

(** *** Runs that return *)

Lemma returns_ret {A} (a : A) : returns (mret a : M A).
Proof. by intros s. Qed.

Lemma returns_throw {A} (e : string) : returns (throw e : M A).
Proof. by intros s. Qed.

Lemma returns_emit (ev : Event) : returns (emit ev).
Proof. by intros s. Qed.

Lemma returns_lift {A} (o : outcome A) : returns (lift o).
Proof. by destruct o. Qed.

Lemma returns_bind {A B} (m : M A) (k : A → M B) :
  returns m → (∀ a, returns (k a)) → returns (m ≫= k).
Proof.
  intros Hm Hk s. unfold mbind, M_bind. specialize (Hm s).
  destruct (m s) as [[a|e|] s']; [apply Hk | done | done].
Qed.

Lemma returns_tryCatch {A} (body : M A) (handler : string → M A) :
  returns body → (∀ e, returns (handler e)) → returns (tryCatch body handler).
Proof.
  intros Hb Hh s. unfold tryCatch. specialize (Hb s).
  destruct (body s) as [[a|e|] s']; [done | apply Hh | done].
Qed.

Lemma returns_tryFinally {A} (body : M A) (final : M unit) :
  returns body → returns final → returns (tryFinally body final).
Proof.
  intros Hb Hf s. unfold tryFinally. specialize (Hb s).
  destruct (body s) as [[a|e|] s']; [| |done];
    specialize (Hf s'); by destruct (final s') as [[[]|e'|] s''].
Qed.

Lemma returns_if {A} (b : bool) (m1 m2 : M A) :
  returns m1 → returns m2 → returns (if b then m1 else m2).
Proof. by destruct b. Qed.

Lemma returns_execSync (c : Command) (o : outcome unit) : returns (execSync c o).
Proof. apply returns_bind; [apply returns_emit | intros; apply returns_lift]. Qed.

Lemma returns_fetch {A} (r : Request) (o : outcome A) : returns (fetch r o).
Proof. apply returns_bind; [apply returns_emit | intros; apply returns_lift]. Qed.

Lemma returns_pollSpider (scanId : string) (polls : list (outcome string)) :
  existsb (settles "100") polls = true → returns (pollSpider scanId polls).
Proof.
  induction polls as [|o polls IH]; [done |]. intros Hsettles s.
  simpl in *. unfold fetch, mbind, M_bind, emit, lift.
  destruct o as [status|e]; simpl in *; [|done].
  destruct (String.eqb status "100"); [done |]. by apply IH.
Qed.

Lemma returns_pollAjax (polls : list (outcome string)) :
  existsb (settles "stopped") polls = true → returns (pollAjax polls).
Proof.
  induction polls as [|o polls IH]; [done |]. intros Hsettles s.
  simpl in *. unfold fetch, mbind, M_bind, emit, lift.
  destruct o as [status|e]; simpl in *; [|done].
  destruct (String.eqb status "stopped"); [done |]. by apply IH.
Qed.

Section Returns.
Variable env : Env.

Lemma returns_writeJson (data : string → UrlsArtifact) : returns (writeJson env data).
Proof.
  unfold writeJson. apply returns_bind; [done |]. intros t.
  apply returns_bind; [apply returns_emit | intros; apply returns_lift].
Qed.

Lemma returns_authPhase : returns (authPhase env).
Proof.
  unfold authPhase, getAuthCookies. cbv zeta.
  apply returns_if; [|apply returns_ret].
  apply returns_bind; [|intros; apply returns_ret].
  apply returns_if.
  - apply returns_bind; [apply returns_emit | intros; apply returns_ret].
  - apply returns_bind; [apply returns_lift | intros; apply returns_ret].
Qed.

Lemma returns_checkRuntime : returns (checkRuntime env).
Proof.
  unfold checkRuntime. apply returns_tryCatch.
  - apply returns_bind; [apply returns_execSync | intros; apply returns_ret].
  - intros e. apply returns_bind; [apply returns_emit |]. intros _.
    apply returns_bind; [apply returns_writeJson | intros; apply returns_ret].
Qed.

Lemma returns_waitReady (budget attempt : nat) : returns (waitReady env budget attempt).
Proof.
  revert attempt. induction budget as [|budget IH]; intros attempt; simpl.
  - apply returns_ret.
  - apply returns_bind; [apply returns_emit |]. intros _.
    destruct (versionProbe env attempt) as [[|]|e]; [apply returns_ret | |];
      (apply returns_bind; [apply returns_emit | intros; apply IH]).
Qed.

Lemma returns_scan (cookieHeader : string) :
  pollsSettle env → returns (scan env cookieHeader).
Proof.
  intros [Hspider Hajax]. unfold scan.
  apply returns_bind; [apply returns_waitReady |]. intros ready.
  apply returns_bind; [apply returns_if; [apply returns_ret | apply returns_throw] |].
  intros _.
  apply returns_bind; [apply returns_if; [apply returns_fetch | apply returns_ret] |].
  intros _. apply returns_bind; [apply returns_fetch |]. intros scanId.
  apply returns_bind; [by apply returns_pollSpider |]. intros _.
  apply returns_bind; [apply returns_fetch |]. intros _.
  apply returns_bind; [by apply returns_pollAjax |]. intros _.
  apply returns_bind; [apply returns_fetch |]. intros core.
  apply returns_bind; [apply returns_fetch |]. intros spider. cbv zeta.
  apply returns_bind; [|intros; apply returns_ret].
  unfold filterSameOrigin. destruct (urlOrigin env (TARGET_URL env));
    [apply returns_ret | apply returns_throw].
Qed.

Lemma returns_main : pollsSettle env → returns (main env).
Proof.
  intros Hpolls. unfold main.
  apply returns_bind; [apply returns_authPhase |]. intros cookieHeader.
  apply returns_bind; [apply returns_checkRuntime |]. intros dockerAvailable.
  apply returns_if; [|apply returns_ret].
  apply returns_bind; [done |]. intros _.
  apply returns_tryFinally.
  - apply returns_tryCatch.
    + unfold tryBlock. apply returns_bind; [apply returns_execSync |]. intros _.
      apply returns_bind; [done |]. intros _.
      unfold scanAndWrite. apply returns_bind; [by apply returns_scan |].
      intros [all filtered]. apply returns_writeJson.
    + intros e. unfold catchBlock.
      apply returns_bind; [apply returns_emit | intros; apply returns_writeJson].
  - intros s. by rewrite finallyBlock_run.
Qed.

(** The script returns whenever its two status loops come to an end. *)
Lemma run_returns : pollsSettle env → (run env).1 ≠ Hangs.
Proof.
  intros Hpolls. unfold run, discover. apply returns_tryCatch.
  - by apply returns_main.
  - intros e. unfold topHandler.
    apply returns_bind; [apply returns_emit | intros; apply returns_writeJson].
Qed.

End Returns.

(** *** Properties of the specification: teardown *)

(** C1, as the code has it: a run returns when its status loops come to an
    end; in every run that returns, the engine instance is removed exactly
    once when it was started (whether the scan succeeded, failed or timed
    out waiting for readiness) and never when it was not; a failure of the
    removal is swallowed without a word: the result of the run, what it
    writes and what it prints are those of the run in which the removal
    succeeds. *)
Theorem C1_teardown_exactly_once (env : Env) :
  (pollsSettle env → (run env).1 ≠ Hangs) ∧
  ((run env).1 ≠ Hangs → engineStarted (trace (run env).2) = true →
     teardowns (trace (run env).2)
     = [Exec (DockerRm (containerName env)) (succeeded (dockerRm env))]) ∧
  (engineStarted (trace (run env).2) = false →
     teardowns (trace (run env).2) = []) ∧
  (run (withDockerRm (Returns tt) env)).1 = (run env).1 ∧
  written (trace (run (withDockerRm (Returns tt) env)).2)
    = written (trace (run env).2) ∧
  consoleLines (trace (run (withDockerRm (Returns tt) env)).2)
    = consoleLines (trace (run env).2).
Proof.
  destruct (run_independent env) as [Hr Hn].
  split_and!.
  - apply run_returns.
  - intros Hreturns Hstarted.
    destruct (run_teardownShape env) as [[Hs _]|[(_ & Hh & _)|(_ & _ & Ht)]];
      [congruence | done | done].
  - intros Hstarted.
    destruct (run_teardownShape env) as [[_ Ht]|[(Hs & _)|(Hs & _)]];
      [done | congruence | congruence].
  - done.
  - by rewrite <- (written_normal (trace (run env).2)), <- Hn, written_normal.
  - by rewrite <- (consoleLines_normal (trace (run env).2)), <- Hn, consoleLines_normal.
Qed.

(** The three paths of the claim, a run without the runtime, and a run in
    which the removal fails. *)
Lemma C1_witness :
  (teardowns (trace (run successEnv).2) = [Exec (DockerRm "zap-1771632000000") true] ∧
   teardowns (trace (run scanFailsEnv).2) = [Exec (DockerRm "zap-1771632000000") true] ∧
   teardowns (trace (run neverReadyEnv).2) = [Exec (DockerRm "zap-1771632000000") true] ∧
   teardowns (trace (run noDockerEnv).2) = []) ∧
  (run teardownFailsEnv).1 = Done tt ∧
  teardowns (trace (run teardownFailsEnv).2)
    = [Exec (DockerRm "zap-1771632000000") false].
Proof.
  assert (∀ env, pollsSettle env →
            engineStarted (trace (run env).2) = true →
            teardowns (trace (run env).2)
            = [Exec (DockerRm (containerName env)) (succeeded (dockerRm env))])
    as Honce.
  { intros env Hpolls.
    destruct (C1_teardown_exactly_once env) as (Hreturns & Hstarted & _).
    apply Hstarted, Hreturns, Hpolls. }
  split_and!.
  - apply (Honce successEnv); [by split | reflexivity].
  - apply (Honce scanFailsEnv); [by split | reflexivity].
  - apply (Honce neverReadyEnv); [by split | vm_compute; reflexivity].
  - destruct (C1_teardown_exactly_once noDockerEnv) as (_ & _ & Hnone & _).
    by apply Hnone.
  - reflexivity.
  - apply (Honce teardownFailsEnv); [by split | reflexivity].
Defined.

(** C1 as stated fails where it has the failure of the teardown logged:
    in the run below the scan succeeds, [docker rm] fails, and the script
    prints nothing at all. *)
Lemma C1_teardown_failure_not_logged :
  (run teardownFailsEnv).1 = Done tt ∧
  teardowns (trace (run teardownFailsEnv).2)
    = [Exec (DockerRm "zap-1771632000000") false] ∧
  consoleLines (trace (run teardownFailsEnv).2) = [].
Proof. split_and!; reflexivity. Qed.

(** *** Properties of the specification: the artifact *)

Lemma run_artifacts (env : Env) : Forall (artifactEvent env) (trace (run env).2).
Proof.
  apply run_events; try done.
  - intros reason n ok Hreason. left. by exists reason.
  - intros found n ok Hfound. right. by exists found.
Qed.

Lemma written_artifact (env : Env) (a : UrlsArtifact) (ok : bool) :
  WriteUrls a ok ∈ trace (run env).2 → artifactEvent env (WriteUrls a ok).
Proof.
  intros Hin. pose proof (run_artifacts env) as Hall.
  rewrite Forall_forall in Hall. by apply Hall.
Qed.

Lemma hasOrigin_true (env : Env) (origin u : string) :
  hasOrigin env origin u = true ↔ urlOrigin env u = Some origin.
Proof.
  unfold hasOrigin. destruct (urlOrigin env u) as [o|]; [|done].
  rewrite String.eqb_eq. split; congruence.
Qed.

Lemma urls_successArtifact (env : Env) (all filtered : list string) (g : string) :
  List.map url (urls (successArtifact env all filtered g)) = filtered.
Proof.
  simpl. rewrite List.map_map. simpl. apply List.map_id.
Qed.

(** C3, as the code has it: an artifact written without an [error] field
    comes from a completed aggregation; every entry carries the source
    [zap], and the urls are the union of the url list of the engine and the
    result list of the spider, without duplicates, restricted to the urls
    with the origin of the target. *)
Theorem C3_success_urls (env : Env) (a : UrlsArtifact) (ok : bool) :
  WriteUrls a ok ∈ trace (run env).2 →
  error a = None →
  ∃ core spider origin,
    coreUrls env = Returns core ∧ spiderResults env = Returns spider ∧
    urlOrigin env (TARGET_URL env) = Some origin ∧
    (∀ entry, entry ∈ urls a → source entry = "zap") ∧
    List.map url (urls a)
      = List.filter (hasOrigin env origin)
          (Set_of (default [] core ++ default [] spider)) ∧
    NoDup (List.map url (urls a)) ∧
    (∀ u, u ∈ List.map url (urls a) ↔
          (u ∈ default [] core ∨ u ∈ default [] spider) ∧
          urlOrigin env u = Some origin) ∧
    total a = length (Set_of (default [] core ++ default [] spider)) ∧
    sameOrigin a = length (urls a).
Proof.
  intros Hin Herr.
  destruct (written_artifact env a ok Hin) as [(reason & _ & Ha)|(found & Hfound & Ha)].
  { rewrite Ha in Herr. discriminate. }
  destruct Hfound as (core & spider & origin & Hcore & Hspider & Horigin & ->).
  simpl in Ha. exists core, spider, origin. rewrite Ha.
  rewrite urls_successArtifact. unfold allUrls.
  split_and!; try done.
  - simpl. intros entry Hentry%list_elem_of_In.
    apply in_map_iff in Hentry as (u & <- & _). done.
  - apply NoDup_ListNoDup, List.NoDup_filter, NoDup_ListNoDup, NoDup_Set_of.
  - intros u. rewrite list_elem_of_In, filter_In, <- list_elem_of_In.
    by rewrite elem_of_Set_of, elem_of_app, hasOrigin_true.
  - simpl. by rewrite length_map.
Qed.

(** The run in which every call returns. *)
Lemma C3_witness :
  written (trace (run successEnv).2) = [successWritten] ∧
  ∃ core spider origin,
    coreUrls successEnv = Returns core ∧ spiderResults successEnv = Returns spider ∧
    urlOrigin successEnv (TARGET_URL successEnv) = Some origin ∧
    (∀ entry, entry ∈ urls successWritten → source entry = "zap") ∧
    List.map url (urls successWritten)
      = List.filter (hasOrigin successEnv origin)
          (Set_of (default [] core ++ default [] spider)) ∧
    NoDup (List.map url (urls successWritten)) ∧
    (∀ u, u ∈ List.map url (urls successWritten) ↔
          (u ∈ default [] core ∨ u ∈ default [] spider) ∧
          urlOrigin successEnv u = Some origin) ∧
    total successWritten = length (Set_of (default [] core ++ default [] spider)) ∧
    sameOrigin successWritten = length (urls successWritten).
Proof.
  split; [reflexivity |].
  apply (C3_success_urls successEnv successWritten true); [|reflexivity].
  apply (list_elem_of_lookup_2 _ 19). reflexivity.
Defined.

(** C3 as stated fails on the source tag: the entries of a successful run
    carry [zap], none carries [engine]. *)
Lemma C3_source_counterexample :
  written (trace (run successEnv).2) = [successWritten] ∧
  List.map source (urls successWritten) = ["zap"; "zap"; "zap"] ∧
  ¬ (∀ entry, entry ∈ urls successWritten → source entry = "engine").
Proof.
  split_and!; [reflexivity | reflexivity |].
  intros H. specialize (H _ (list_elem_of_here _ _)). discriminate.
Qed.

(** *** The order of the writes *)

Lemma benign_silent : benign silentEvent.
Proof. by split_and!. Qed.

Lemma attempted_app (t evs : list Event) :
  attempted (t ++ evs) = attempted t ++ attempted evs.
Proof. apply omap_app. Qed.

Lemma written_app (t evs : list Event) :
  written (t ++ evs) = written t ++ written evs.
Proof. apply omap_app. Qed.

Lemma attempted_silent (evs : list Event) : Forall silentEvent evs → attempted evs = [].
Proof.
  induction 1 as [|ev evs Hev _ IH]; [done |].
  destruct ev; done.
Qed.


Lemma writes_attempted (t : list Event) :
  length (List.filter isWrite t) = length (attempted t).
Proof.
  induction t as [|ev t IH]; [done |]. destruct ev; simpl; by rewrite ?IH.
Qed.

Section Writes.
Variable env : Env.

Lemma writeJson_run (data : string → UrlsArtifact) (s : State) :
  writeJson env data s
  = (raised (writeUrls env (length (attempted (trace s)))),
     {| trace := trace s ++
                 [WriteUrls (data (clock env (length (attempted (trace s)))))
                    (succeeded (writeUrls env (length (attempted (trace s)))))];
        containerStarted := containerStarted s |}).
Proof.
  unfold writeJson, getTrace, emit, mbind, M_bind. simpl.
  rewrite writes_attempted. by destruct (writeUrls env _) as [[]|e].
Qed.

Lemma catchBlock_run (e : string) (s : State) :
  catchBlock env e s
  = (raised (writeUrls env (length (attempted (trace s)))),
     {| trace := trace s ++
                 [ConsoleError ("Discovery failed: " +:+ e);
                  WriteUrls (fallbackArtifact env "zap_failed"
                               (clock env (length (attempted (trace s)))))
                    (succeeded (writeUrls env (length (attempted (trace s)))))];
        containerStarted := containerStarted s |}).
Proof.
  unfold catchBlock, writeFallbackUrls, emit, mbind, M_bind.
  rewrite writeJson_run. simpl.
  rewrite attempted_app. simpl. rewrite app_nil_r, <- app_assoc. done.
Qed.

Lemma topHandler_run (e : string) (s : State) :
  topHandler env e s
  = (raised (writeUrls env (length (attempted (trace s)))),
     {| trace := trace s ++
                 [ConsoleError ("Discovery failed: " +:+ e);
                  WriteUrls (fallbackArtifact env "unexpected_error"
                               (clock env (length (attempted (trace s)))))
                    (succeeded (writeUrls env (length (attempted (trace s)))))];
        containerStarted := containerStarted s |}).
Proof.
  unfold topHandler, writeFallbackUrls, emit, mbind, M_bind.
  rewrite writeJson_run. simpl.
  rewrite attempted_app. simpl. rewrite app_nil_r, <- app_assoc. done.
Qed.

Lemma checkRuntime_available (s : State) :
  dockerInfo env = Returns tt →
  checkRuntime env s
  = (Done true, {| trace := trace s ++ [Exec DockerInfo true];
                   containerStarted := containerStarted s |}).
Proof. intros H. unfold checkRuntime, tryCatch, execSync. by rewrite H. Qed.

Lemma checkRuntime_unavailable (e : string) (s : State) :
  dockerInfo env = Throws e →
  checkRuntime env s
  = (match writeUrls env (length (attempted (trace s))) with
     | Returns _ => Done false
     | Throws e' => Raised e'
     end,
     {| trace := trace s ++
                 [Exec DockerInfo false;
                  ConsoleWarn "Docker is not available. Writing fallback URLs only.";
                  WriteUrls (fallbackArtifact env "docker_unavailable"
                               (clock env (length (attempted (trace s)))))
                    (succeeded (writeUrls env (length (attempted (trace s)))))];
        containerStarted := containerStarted s |}).
Proof.
  intros H. unfold checkRuntime, tryCatch, execSync, writeFallbackUrls.
  rewrite H. unfold emit, mbind, M_bind. simpl.
  rewrite writeJson_run. simpl.
  rewrite !attempted_app. simpl. rewrite !app_nil_r, <- !app_assoc. simpl.
  by destruct (writeUrls env _) as [[]|e'].
Qed.

Lemma silent_authPhase (s : State) :
  ∃ r evs, authPhase env s
           = (r, {| trace := trace s ++ evs; containerStarted := containerStarted s |})
           ∧ Forall silentEvent evs.
Proof.
  apply framed_run; [|apply keeps_authPhase].
  apply spec_authPhase, benign_silent.
Qed.


Lemma attempted_finallyBlock (s : State) :
  attempted (trace (finallyBlock env s).2) = attempted (trace s) ∧
  written (trace (finallyBlock env s).2) = written (trace s).
Proof.
  rewrite finallyBlock_run. simpl. destruct (containerStarted s); [|done].
  simpl. by rewrite attempted_app, written_app, !app_nil_r.
Qed.



(** The paths of a run. *)


Lemma run_unavailable (h e : string) (s1 : State) :
  authPhase env initial = (Done h, s1) → dockerInfo env = Throws e →
  run env
  = match (checkRuntime env s1).1 with
    | Raised e' => topHandler env e' (checkRuntime env s1).2
    | _ => (Done tt, (checkRuntime env s1).2)
    end.
Proof.
  intros H Hinfo. rewrite run_unfold, main_unfold. fold initial. rewrite H.
  rewrite (checkRuntime_unavailable e) by done.
  by destruct (writeUrls env _) as [[]|e'].
Qed.


Lemma run_try_raises (h e : string) (s1 s3 : State) :
  authPhase env initial = (Done h, s1) → dockerInfo env = Returns tt →
  tryBlock env h (atTry s1) = (Raised e, s3) →
  run env
  = match (catchBlock env e s3).1 with
    | Raised e' =>
        topHandler env e' (finallyBlock env (catchBlock env e s3).2).2
    | _ => (Done tt, (finallyBlock env (catchBlock env e s3).2).2)
    end.
Proof.
  intros H Hinfo Htry. rewrite run_unfold, main_unfold. fold initial. rewrite H.
  rewrite checkRuntime_available by done. simpl.
  unfold tryFinally, tryCatch. fold (atTry s1). rewrite Htry.
  rewrite catchBlock_run. simpl.
  destruct (writeUrls env _) as [[]|e']; simpl; by rewrite finallyBlock_run.
Qed.




(** The artifacts of the failure paths, in the order of their writes. *)

Lemma attempted_unavailable (h e : string) (s1 : State) :
  authPhase env initial = (Done h, s1) → dockerInfo env = Throws e →
  attempted (trace (run env).2)
  = fallbackArtifact env "docker_unavailable" (clock env 0) :: afterFailedWrite env 0.
Proof.
  intros Hauth Hinfo.
  destruct (silent_authPhase initial) as (r1 & evs1 & Hauth' & H1).
  rewrite Hauth in Hauth'. injection Hauth' as <- ->.
  rewrite (run_unavailable h e _ Hauth Hinfo), (checkRuntime_unavailable e) by done.
  cbn [fst snd trace]. rewrite (attempted_silent evs1) by done.
  unfold afterFailedWrite. simpl.
  destruct (writeUrls env 0) as [[]|e'] eqn:Hw; cbn [fst snd].
  - simpl. by rewrite attempted_app, (attempted_silent evs1).
  - rewrite topHandler_run. cbn [fst snd trace].
    by rewrite !attempted_app, (attempted_silent evs1).
Qed.

Lemma attempted_try_raises (h e : string) (s1 s3 : State) :
  authPhase env initial = (Done h, s1) → dockerInfo env = Returns tt →
  tryBlock env h (atTry s1) = (Raised e, s3) →
  attempted (trace (run env).2)
  = attempted (trace s3)
    ++ fallbackArtifact env "zap_failed" (clock env (length (attempted (trace s3))))
       :: afterFailedWrite env (length (attempted (trace s3))).
Proof.
  intros Hauth Hinfo Htry.
  rewrite (run_try_raises h e _ _ Hauth Hinfo Htry), catchBlock_run.
  cbn [fst snd]. unfold afterFailedWrite.
  destruct (writeUrls env (length (attempted (trace s3)))) as [[]|e'] eqn:Hw;
    cbn [raised fst snd].
  - match goal with
    | |- context [finallyBlock env ?s] =>
        destruct (attempted_finallyBlock s) as [-> _]
    end.
    simpl. by rewrite attempted_app.
  - rewrite topHandler_run. cbn [fst snd trace]. rewrite attempted_app.
    match goal with
    | |- context [finallyBlock env ?s] =>
        destruct (attempted_finallyBlock s) as [Hf _]
    end.
    rewrite !Hf. simpl. rewrite !attempted_app, length_app. simpl.
    by rewrite Nat.add_1_r, <- app_assoc.
Qed.

Lemma attempted_main_raises (e : string) :
  (main env initial).1 = Raised e →
  attempted (trace (run env).2)
  = attempted (trace (main env initial).2)
    ++ [fallbackArtifact env "unexpected_error"
          (clock env (length (attempted (trace (main env initial).2))))].
Proof.
  intros Hmain. rewrite run_unfold. fold initial. rewrite Hmain.
  rewrite topHandler_run. simpl. by rewrite attempted_app.
Qed.

(** The readiness loop when no request is answered. *)
Lemma waitReady_exhausted (budget attempt : nat) (s : State) :
  (∀ k, attempt ≤ k < attempt + budget → versionProbe env k ≠ Returns true) →
  waitReady env budget attempt s
  = (Done false, {| trace := trace s ++ probeEvents budget;
                    containerStarted := containerStarted s |}).
Proof.
  revert attempt s. induction budget as [|budget IH]; intros attempt s Hfail.
  - unfold probeEvents. simpl. rewrite app_nil_r. by destruct s.
  - simpl. unfold mbind, M_bind, emit. simpl.
    assert (versionProbe env attempt ≠ Returns true) as Hnow by (apply Hfail; lia).
    change (probeEvents (S budget))
      with ([Fetch Version; Sleep 1000] ++ probeEvents budget).
    destruct (versionProbe env attempt) as [[|]|e]; [done | |];
      (rewrite IH by (intros k Hk; apply Hfail; lia);
       simpl; by rewrite <- !app_assoc).
Qed.

Lemma silent_probeEvents (n : nat) : Forall silentEvent (probeEvents n).
Proof.
  unfold probeEvents. induction n as [|n IH]; [constructor |].
  simpl. by repeat constructor.
Qed.

Lemma requests_probeEvents (n : nat) :
  List.filter isVersionRequest (probeEvents n) = replicate n (Fetch Version).
Proof.
  unfold probeEvents. induction n as [|n IH]; [done |].
  simpl. by rewrite IH.
Qed.

Lemma bind_done {A B} (m : M A) (k : A → M B) (s s' : State) (a : A) :
  m s = (Done a, s') → (m ≫= k) s = k a s'.
Proof. intros H. unfold mbind, M_bind. by rewrite H. Qed.

Lemma bind_raised {A B} (m : M A) (k : A → M B) (s s' : State) (e : string) :
  m s = (Raised e, s') → (m ≫= k) s = (Raised e, s').
Proof. intros H. unfold mbind, M_bind. by rewrite H. Qed.

Lemma scan_exhausted (h : string) (s : State) :
  (∀ k, k < 90 → versionProbe env k ≠ Returns true) →
  scan env h s
  = (Raised "ZAP API did not become ready.",
     {| trace := trace s ++ probeEvents 90;
        containerStarted := containerStarted s |}).
Proof.
  intros Hfail. unfold scan.
  erewrite bind_done; [|apply waitReady_exhausted; intros k Hk; apply Hfail; lia].
  by erewrite bind_raised.
Qed.

Lemma tryBlock_exhausted (h : string) (s : State) :
  dockerRun env = Returns tt →
  (∀ k, k < 90 → versionProbe env k ≠ Returns true) →
  ∃ s3, tryBlock env h s = (Raised "ZAP API did not become ready.", s3) ∧
        attempted (trace s3) = attempted (trace s) ∧
        List.filter isVersionRequest (trace s3)
        = List.filter isVersionRequest (trace s) ++ replicate 90 (Fetch Version).
Proof.
  intros Hrun Hfail. eexists. split.
  - unfold tryBlock, execSync. rewrite Hrun.
    erewrite bind_done; [|reflexivity].
    erewrite bind_done; [|reflexivity].
    unfold scanAndWrite. erewrite bind_raised; [reflexivity |].
    by apply scan_exhausted.
  - cbn [trace containerStarted].
    rewrite !attempted_app, !List.filter_app, requests_probeEvents,
      (attempted_silent (probeEvents 90)) by apply silent_probeEvents.
    split; [by rewrite !app_nil_r |].
    simpl (List.filter _ [_]). by rewrite app_nil_r.
Qed.

End Writes.

(** *** Properties of the specification: reason codes and fallback *)

Lemma authPhase_silent_trace (env : Env) (h : string) (s1 : State) :
  authPhase env initial = (Done h, s1) → attempted (trace s1) = [].
Proof.
  intros Hauth. destruct (silent_authPhase env initial) as (r & evs & Hrun & Hs).
  rewrite Hauth in Hrun. injection Hrun as _ ->. by apply attempted_silent.
Qed.

(** C2, as the code has it: the [error] field of a written artifact is one
    of the three codes [docker_unavailable], [zap_failed] and
    [unexpected_error]. A failed probe of the runtime gives
    [docker_unavailable]; the exhaustion of the 90 readiness attempts, like
    any other exception of the [try] block, gives [zap_failed]; an
    exception that leaves [main] gives [unexpected_error]. *)
Theorem C2_reason_codes (env : Env) :
  (∀ a ok reason,
     WriteUrls a ok ∈ trace (run env).2 → error a = Some reason →
     reason ∈ reasonCodes) ∧
  (∀ h s1 e,
     authPhase env initial = (Done h, s1) → dockerInfo env = Throws e →
     attempted (trace (run env).2) !! 0
     = Some (fallbackArtifact env "docker_unavailable" (clock env 0))) ∧
  (∀ h s1,
     authPhase env initial = (Done h, s1) → dockerInfo env = Returns tt →
     dockerRun env = Returns tt →
     (∀ k, k < 90 → versionProbe env k ≠ Returns true) →
     attempted (trace (run env).2) !! 0
     = Some (fallbackArtifact env "zap_failed" (clock env 0))) ∧
  (∀ h s1 e s3,
     authPhase env initial = (Done h, s1) → dockerInfo env = Returns tt →
     tryBlock env h (atTry s1) = (Raised e, s3) →
     attempted (trace (run env).2) !! length (attempted (trace s3))
     = Some (fallbackArtifact env "zap_failed"
               (clock env (length (attempted (trace s3)))))) ∧
  (∀ e,
     (main env initial).1 = Raised e →
     last (attempted (trace (run env).2))
     = Some (fallbackArtifact env "unexpected_error"
               (clock env (length (attempted (trace (main env initial).2)))))).
Proof.
  split_and!.
  - intros a ok reason Hin Herr.
    destruct (written_artifact env a ok Hin) as [(r & Hr & Ha)|(found & _ & Ha)];
      rewrite Ha in Herr; simpl in Herr; [|done].
    by injection Herr as <-.
  - intros h s1 e Hauth Hinfo.
    by rewrite (attempted_unavailable env h e s1).
  - intros h s1 Hauth Hinfo Hrun Hfail.
    destruct (tryBlock_exhausted env h (atTry s1) Hrun Hfail) as (s3 & Htry & Hatt & _).
    rewrite (attempted_try_raises env h _ s1 s3 Hauth Hinfo Htry), Hatt.
    unfold atTry. cbn [trace]. rewrite attempted_app.
    by rewrite (authPhase_silent_trace env h s1 Hauth).
  - intros h s1 e s3 Hauth Hinfo Htry.
    rewrite (attempted_try_raises env h e s1 s3 Hauth Hinfo Htry).
    by rewrite lookup_app_r, Nat.sub_diag.
  - intros e Hmain. rewrite (attempted_main_raises env e Hmain).
    apply last_snoc.
Qed.

(** A run without the runtime, a run in which the engine never becomes
    ready, and a run in which a status poll fails. *)
Lemma C2_witness :
  attempted (trace (run noDockerEnv).2) !! 0
    = Some (fallbackArtifact noDockerEnv "docker_unavailable" (clock noDockerEnv 0)) ∧
  attempted (trace (run neverReadyEnv).2) !! 0
    = Some (fallbackArtifact neverReadyEnv "zap_failed" (clock neverReadyEnv 0)) ∧
  written (trace (run scanFailsEnv).2)
    = [fallbackArtifact scanFailsEnv "zap_failed" (clock scanFailsEnv 0)].
Proof.
  split_and!.
  - destruct (C2_reason_codes noDockerEnv) as (_ & Hprobe & _).
    by apply (Hprobe "" initial "docker: command not found").
  - destruct (C2_reason_codes neverReadyEnv) as (_ & _ & Htimeout & _).
    by apply (Htimeout "" initial).
  - reflexivity.
Defined.

(** C2 as stated fails on the codes: a run in which the engine never
    becomes ready writes [zap_failed], and a run without the runtime
    writes [docker_unavailable]; neither is one of the four codes of the
    claim, and no run writes [ready_timeout]. *)
Lemma C2_codes_counterexample :
  written (trace (run neverReadyEnv).2)
    = [fallbackArtifact neverReadyEnv "zap_failed" "2026-02-21T00:00:00.000Z"] ∧
  ("zap_failed" ∉ specReasonCodes) ∧
  written (trace (run noDockerEnv).2)
    = [fallbackArtifact noDockerEnv "docker_unavailable" "2026-02-21T00:00:00.000Z"] ∧
  ("docker_unavailable" ∉ specReasonCodes).
Proof.
  split_and!.
  - vm_compute. reflexivity.
  - intros H. repeat (apply elem_of_cons in H as [H|H]; [discriminate H |]).
    by apply elem_of_nil in H.
  - reflexivity.
  - intros H. repeat (apply elem_of_cons in H as [H|H]; [discriminate H |]).
    by apply elem_of_nil in H.
Qed.

Lemma elem_of_written (t : list Event) (a : UrlsArtifact) :
  a ∈ written t → WriteUrls a true ∈ t.
Proof.
  unfold written. intros (ev & Hev & Ha)%list_elem_of_omap.
  destruct ev as [| | | | |a' [|]]; try done. by injection Ha as ->.
Qed.



End RunDiscoveryFacts.

(** ** Facts about texts *)

Module JsTextFacts.
Import Js JsText JsFacts.

Lemma string_length_app (a b : string) :
  String.length (a +:+ b) = String.length a + String.length b.
Proof.
  induction a as [|c a IH]; [by rewrite app_nil |].
  rewrite app_cons. simpl. by rewrite IH.
Qed.

Lemma app_empty_r (a : string) : a +:+ "" = a.
Proof. induction a as [|c a IH]; [done |]. by rewrite app_cons, IH. Qed.

(** Two texts cut at the same place are equal piece by piece. *)
Lemma app_inj_length (a a' b b' : string) :
  String.length a = String.length a' → a +:+ b = a' +:+ b' → a = a' ∧ b = b'.
Proof.
  revert a'. induction a as [|c a IH]; intros [|c' a'] Hlen; try done.
  rewrite !app_cons. intros [= -> Heq].
  destruct (IH a') as [-> ->]; [by injection Hlen | done | done].
Qed.

Lemma app_inj_length_r (a a' b b' : string) :
  String.length b = String.length b' → a +:+ b = a' +:+ b' → a = a' ∧ b = b'.
Proof.
  intros Hlen Heq. apply app_inj_length; [|done].
  apply (f_equal String.length) in Heq. rewrite !string_length_app in Heq. lia.
Qed.

Lemma string_prefix_cons (a b : ascii) (p s : string) :
  String.prefix (String a p) (String b s) = Ascii.eqb a b && String.prefix p s.
Proof.
  cbn [String.prefix]. destruct (ascii_dec a b) as [->|Hne].
  - by rewrite Ascii.eqb_refl.
  - by apply Ascii.eqb_neq in Hne as ->.
Qed.

Lemma string_prefix_nil (s : string) : String.prefix "" s = true.
Proof. by destruct s. Qed.

Lemma all_chars_app (P : ascii → bool) (a b : string) :
  all_chars P (a +:+ b) = all_chars P a && all_chars P b.
Proof.
  induction a as [|c a IH]; [by rewrite app_nil |].
  rewrite app_cons. simpl. by rewrite IH, andb_assoc.
Qed.

Lemma all_chars_ext (P Q : ascii → bool) (s : string) :
  (∀ c, P c = Q c) → all_chars P s = all_chars Q s.
Proof. intros H. induction s as [|c s IH]; [done |]. simpl. by rewrite H, IH. Qed.

Lemma all_chars_sliceString (P : ascii → bool) (n : nat) (s : string) :
  all_chars P s = true → all_chars P (sliceString n s) = true.
Proof.
  revert s. induction n as [|n IH]; intros [|c s]; try done.
  simpl. intros [Hc Hs]%andb_prop. by rewrite Hc, IH.
Qed.

Lemma all_chars_dropStart (P Q : ascii → bool) (s : string) :
  all_chars P s = true → all_chars P (dropStart Q s) = true.
Proof.
  induction s as [|c s IH]; [done |]. simpl. intros H.
  destruct (Q c); [|done]. apply IH. by apply andb_prop in H as [_ H].
Qed.

Lemma all_chars_dropEnd (P Q : ascii → bool) (s : string) :
  all_chars P s = true → all_chars P (dropEnd Q s) = true.
Proof.
  induction s as [|c s IH]; [done |]. simpl. intros [Hc Hs]%andb_prop.
  destruct (Q c && negb (truthy (dropEnd Q s))); [done |].
  simpl. by rewrite Hc, IH.
Qed.

Lemma length_sliceString (n : nat) (s : string) :
  String.length (sliceString n s) ≤ n.
Proof.
  revert s. induction n as [|n IH]; intros [|c s]; simpl; try lia.
  specialize (IH s). lia.
Qed.

Lemma truthy_length (s : string) : truthy s = true → 1 ≤ String.length s.
Proof. destruct s; [done |]. simpl. lia. Qed.

Lemma headIs_dropStart (P : ascii → bool) (s : string) :
  headIs P (dropStart P s) = false.
Proof.
  induction s as [|c s IH]; [done |]. simpl.
  destruct (P c) eqn:Hc; [done |]. simpl. done.
Qed.

Lemma headIs_dropEnd (P Q : ascii → bool) (s : string) :
  headIs P s = false → headIs P (dropEnd Q s) = false.
Proof.
  destruct s as [|c s]; [done |]. simpl. intros Hc.
  by destruct (Q c && negb (truthy (dropEnd Q s))).
Qed.

Lemma headIs_sliceString (P : ascii → bool) (n : nat) (s : string) :
  headIs P s = false → headIs P (sliceString n s) = false.
Proof. by destruct n, s. Qed.

Lemma startsWith_char (c : ascii) (s : string) :
  startsWith s (String c "") = headIs (Ascii.eqb c) s.
Proof.
  destruct s as [|d s]; [done |]. unfold startsWith. simpl.
  destruct (ascii_dec c d) as [->|Hne].
  - rewrite Ascii.eqb_refl. by destruct s.
  - by apply Ascii.eqb_neq in Hne as ->.
Qed.

Lemma apart_dropStart (P Q : ascii → bool) (s : string) :
  apart P s = true → apart P (dropStart Q s) = true.
Proof.
  induction s as [|c s IH]; [done |]. intros H. simpl.
  destruct (Q c); [|done]. apply IH. simpl in H. by apply andb_prop in H as [_ H].
Qed.

Lemma headIs_dropEnd_inv (P Q : ascii → bool) (s : string) :
  headIs P (dropEnd Q s) = true → headIs P s = true.
Proof.
  destruct s as [|c s]; [done |]. simpl.
  by destruct (Q c && negb (truthy (dropEnd Q s))).
Qed.

Lemma apart_dropEnd (P Q : ascii → bool) (s : string) :
  apart P s = true → apart P (dropEnd Q s) = true.
Proof.
  induction s as [|c s IH]; [done |]. simpl. intros [Hc Hs]%andb_prop.
  destruct (Q c && negb (truthy (dropEnd Q s))); [done |].
  simpl. rewrite IH by done. rewrite andb_true_r.
  destruct (headIs P (dropEnd Q s)) eqn:Hh; [|by rewrite andb_false_r].
  apply headIs_dropEnd_inv in Hh. by rewrite Hh in Hc.
Qed.

Lemma headIs_sliceString_inv (P : ascii → bool) (n : nat) (s : string) :
  headIs P (sliceString n s) = true → headIs P s = true.
Proof. by destruct n, s. Qed.

Lemma apart_sliceString (P : ascii → bool) (n : nat) (s : string) :
  apart P s = true → apart P (sliceString n s) = true.
Proof.
  revert s. induction n as [|n IH]; intros [|c s]; try done.
  simpl. intros [Hc Hs]%andb_prop. rewrite IH by done. rewrite andb_true_r.
  destruct (headIs P (sliceString n s)) eqn:Hh; [|by rewrite andb_false_r].
  apply headIs_sliceString_inv in Hh. by rewrite Hh in Hc.
Qed.

(** A text in which no two neighbours are [p] does not include [p] twice
    in a row. *)
Lemma apart_includes (p : ascii) (s : string) :
  apart (Ascii.eqb p) s = true → includes s (String p (String p "")) = false.
Proof.
  induction s as [|c s IH]; [done |].
  simpl. intros [Hc Hs]%andb_prop. rewrite IH by done. rewrite orb_false_r.
  destruct (ascii_dec p c) as [->|Hne].
  - rewrite Ascii.eqb_refl in Hc. simpl in Hc.
    destruct s as [|d s]; [done |]. simpl in *.
    destruct (ascii_dec c d) as [->|Hne]; [by rewrite Ascii.eqb_refl in Hc |].
    done.
  - done.
Qed.

Lemma toLowerCase_app (a b : string) :
  toLowerCase (a +:+ b) = toLowerCase a +:+ toLowerCase b.
Proof.
  induction a as [|c a IH]; [by rewrite !app_nil |].
  simpl. by rewrite !app_cons, <- IH.
Qed.

Lemma replaceAll_char (p : ascii) (rep s : string) :
  replaceAll [String p ""] rep s = substChar p rep s.
Proof.
  unfold replaceAll. induction s as [|c s IH]; [done |].
  cbn [replaceFrom List.find String.prefix substChar].
  destruct (ascii_dec p c) as [->|Hne].
  - rewrite Ascii.eqb_refl.
    replace (String.prefix "" s) with true by by destruct s.
    simpl. by rewrite IH.
  - apply Ascii.eqb_neq in Hne as Hb. rewrite Hb.
    by rewrite IH, app_cons, app_nil.
Qed.

Lemma substChar_app (p : ascii) (rep a b : string) :
  substChar p rep (a +:+ b) = substChar p rep a +:+ substChar p rep b.
Proof.
  induction a as [|c a IH]; [by rewrite !app_nil |].
  rewrite app_cons. simpl. by rewrite IH, append_assoc.
Qed.

(** [xs.filter(test)] keeps a part of [xs] in its order. *)
Lemma sublist_filter_bool {A} (test : A → bool) (xs : list A) :
  List.filter test xs `sublist_of` xs.
Proof.
  induction xs as [|x xs IH]; [done |]. simpl.
  destruct (test x); [by apply sublist_skip | by apply sublist_cons].
Qed.

Lemma elem_of_filter_bool {A} (test : A → bool) (xs : list A) (x : A) :
  x ∈ List.filter test xs ↔ x ∈ xs ∧ test x = true.
Proof. rewrite !list_elem_of_In. apply filter_In. Qed.

End JsTextFacts.

(** ** Facts about [scripts/lib.ts] *)

Module LibFacts.
Import Js JsText Lib JsFacts JsTextFacts.

Lemma slug_chars_replaceRuns (inRun : bool) (s : string) :
  all_chars is_slug_char
    (replaceRuns (λ c, negb (is_lower_alnum c)) "-" inRun s) = true.
Proof.
  revert inRun. induction s as [|c s IH]; intros inRun; [done |].
  simpl. destruct (is_lower_alnum c) eqn:Hc; simpl.
  - unfold is_slug_char at 1. by rewrite Hc, IH.
  - destruct inRun; [apply IH |]. rewrite app_cons, app_nil. simpl. apply IH.
Qed.

Lemma apart_slug_runs (s : string) :
  apart is_dash (replaceRuns (λ c, negb (is_lower_alnum c)) "-" false s) = true.
Proof.
  revert s.
  assert (∀ inRun s,
    apart is_dash (replaceRuns (λ c, negb (is_lower_alnum c)) "-" inRun s) = true ∧
    headIs is_dash (replaceRuns (λ c, negb (is_lower_alnum c)) "-" true s) = false)
    as H; [|intros s; apply H].
  intros inRun s. revert inRun.
  induction s as [|c s IH]; intros inRun; [by destruct inRun |].
  simpl. destruct (is_lower_alnum c) eqn:Hc; simpl.
  - destruct (IH false) as [Ha Hh]. rewrite Ha.
    assert (is_dash c = false) as Hd.
    { unfold is_dash. apply Ascii.eqb_neq. intros ->. done. }
    by rewrite Hd.
  - destruct (IH true) as [Ha Hh]. split; [|done].
    destruct inRun; [done |].
    rewrite app_cons, app_nil. simpl. by rewrite Hh, Ha.
Qed.

Lemma slugify_slugText (input : string) :
  slugify input = if truthy (slugText input) then slugText input else "page".
Proof. done. Qed.

(** X1: a slug is made of the characters [a-z0-9] and dashes, holds from
    one to eighty characters, does not start with a dash and has no two
    dashes in a row. *)
Theorem X1_slugify_shape (input : string) :
  all_chars is_slug_char (slugify input) = true ∧
  1 ≤ String.length (slugify input) ∧
  String.length (slugify input) ≤ 80 ∧
  startsWith (slugify input) "-" = false ∧
  includes (slugify input) "--" = false.
Proof.
  rewrite slugify_slugText.
  destruct (truthy (slugText input)) eqn:Ht; [|by split_and!; try (simpl; lia)].
  unfold slugText in *. split_and!.
  - apply all_chars_sliceString, all_chars_dropEnd, all_chars_dropStart,
      slug_chars_replaceRuns.
  - by apply truthy_length.
  - apply length_sliceString.
  - rewrite startsWith_char.
    apply headIs_sliceString, headIs_dropEnd, (headIs_dropStart is_dash).
  - apply (apart_includes "-").
    apply (apart_sliceString is_dash), apart_dropEnd, apart_dropStart,
      apart_slug_runs.
Qed.

Lemma noAlnum_lower (s : string) :
  noAlnum s = true →
  all_chars (λ c, negb (is_lower_alnum c)) (toLowerCase s) = true.
Proof.
  unfold noAlnum. induction s as [|c s IH]; [done |].
  simpl. intros [Hc Hs]%andb_prop. by rewrite Hc, IH.
Qed.

Lemma replaceAll_schemes_none (s : string) :
  all_chars (λ c, negb (is_lower_alnum c)) s = true →
  replaceAll ["https://"; "http://"] "" s = s.
Proof.
  unfold replaceAll. induction s as [|c s IH]; [done |].
  cbn [all_chars]. intros [Hc Hs]%andb_prop.
  cbn [replaceFrom List.find]. rewrite !string_prefix_cons.
  destruct (ascii_dec "h" c) as [<-|Hne]; [done |].
  apply Ascii.eqb_neq in Hne as ->. simpl. by rewrite IH.
Qed.

Lemma replaceRuns_all (inRun : bool) (s : string) :
  all_chars (λ c, negb (is_lower_alnum c)) s = true →
  dropStart is_dash (replaceRuns (λ c, negb (is_lower_alnum c)) "-" inRun s) = "".
Proof.
  revert inRun. induction s as [|c s IH]; intros inRun; [done |].
  simpl. intros [Hc Hs]%andb_prop. rewrite Hc.
  destruct inRun; [by apply IH |].
  rewrite app_cons, app_nil. simpl. by apply IH.
Qed.

(** X2: a text of ASCII characters without letters and digits, the empty
    text among them, gets the slug [page]. *)
Theorem X2_slugify_page (input : string) :
  all_chars is_ascii input = true → noAlnum input = true →
  slugify input = "page".
Proof.
  intros _ H%noAlnum_lower. rewrite slugify_slugText. unfold slugText.
  rewrite (replaceAll_schemes_none _ H), (replaceRuns_all false _ H). done.
Qed.

Lemma X2_witness :
  all_chars is_ascii "://?_ ~" = true ∧ noAlnum "://?_ ~" = true ∧
  slugify "://?_ ~" = "page" ∧ slugify "" = "page".
Proof.
  split; [reflexivity |]. split; [reflexivity |].
  split; apply X2_slugify_page; reflexivity.
Defined.

Lemma stripQuery_app (u sep q : string) :
  headIs is_query_start sep = true →
  all_chars (λ x, negb (is_line_terminator x)) sep = true →
  all_chars (λ x, negb (is_line_terminator x)) q = true →
  stripQuery (u +:+ sep +:+ q) = stripQuery u.
Proof.
  intros Hsep Hs Hq. induction u as [|c u IH].
  - rewrite app_nil. destruct sep as [|d sep]; [done |].
    rewrite app_cons. simpl in *. rewrite Hsep, all_chars_app, Hq.
    apply andb_prop in Hs as [_ ->]. done.
  - rewrite app_cons. simpl. rewrite IH, !all_chars_app, Hs, Hq, !andb_true_r.
    done.
Qed.

Lemma stripQuery_plain (pre u : string) :
  all_chars (λ c, negb (is_query_start c)) pre = true →
  stripQuery (pre +:+ u) = pre +:+ stripQuery u.
Proof.
  induction pre as [|c pre IH]; [by rewrite !app_nil |].
  simpl. intros [Hc Hp]%andb_prop. rewrite !app_cons. simpl.
  apply negb_true_iff in Hc. by rewrite Hc, IH.
Qed.

Lemma slugify_scheme (scheme u : string) :
  scheme ∈ ["http://"; "https://"] → slugify (scheme +:+ u) = slugify u.
Proof.
  intros Hin. rewrite !slugify_slugText. unfold slugText.
  rewrite toLowerCase_app.
  assert (replaceAll ["https://"; "http://"] "" (toLowerCase scheme +:+ toLowerCase u)
          = replaceAll ["https://"; "http://"] "" (toLowerCase u)) as ->; [|done].
  apply elem_of_cons in Hin as [->|Hin];
    [|apply elem_of_cons in Hin as [->|Hin]; [|by apply elem_of_nil in Hin]].
  - replace (toLowerCase "http://") with "http://" by reflexivity.
    rewrite !app_cons, app_nil. unfold replaceAll.
    cbn [replaceFrom List.find]. rewrite !string_prefix_cons, string_prefix_nil.
    cbn. by rewrite app_nil.
  - replace (toLowerCase "https://") with "https://" by reflexivity.
    rewrite !app_cons, app_nil. unfold replaceAll.
    cbn [replaceFrom List.find]. rewrite !string_prefix_cons, string_prefix_nil.
    cbn. by rewrite app_nil.
Qed.

(** X3: the file name of a url of ASCII characters does not tell the
    scheme, the query and the fragment: two urls that differ in these only
    get one file name. The query or fragment holds no line feed and no
    carriage return, at which the pattern would stop. *)
Theorem X3_safeUrlFilename_ignores (scheme u sep q : string) :
  scheme ∈ ["http://"; "https://"] → sep ∈ ["?"; "#"] →
  all_chars is_ascii u = true → all_chars is_ascii q = true →
  all_chars (λ x, negb (is_line_terminator x)) q = true →
  safeUrlFilename (scheme +:+ u +:+ sep +:+ q) = safeUrlFilename u.
Proof.
  intros Hscheme Hsep _ _ Hq. unfold safeUrlFilename.
  rewrite stripQuery_plain.
  - rewrite slugify_scheme by done. f_equal.
    apply stripQuery_app; [| |done];
      apply elem_of_cons in Hsep as [->|Hsep]; try done;
      apply elem_of_cons in Hsep as [->|Hsep]; try done;
      by apply elem_of_nil in Hsep.
  - apply elem_of_cons in Hscheme as [->|Hscheme]; [done |].
    apply elem_of_cons in Hscheme as [->|Hscheme]; [done |].
    by apply elem_of_nil in Hscheme.
Qed.

Lemma X3_witness :
  safeUrlFilename "https://example.com/shop?page=2"
  = safeUrlFilename "example.com/shop" ∧
  safeUrlFilename "http://example.com/shop#top"
  = safeUrlFilename "example.com/shop".
Proof.
  split.
  - apply (X3_safeUrlFilename_ignores "https://" "example.com/shop" "?" "page=2");
      [apply list_elem_of_further, list_elem_of_here | apply list_elem_of_here
      | reflexivity | reflexivity | reflexivity].
  - apply (X3_safeUrlFilename_ignores "http://" "example.com/shop" "#" "top");
      [apply list_elem_of_here | apply list_elem_of_further, list_elem_of_here
      | reflexivity | reflexivity | reflexivity].
Defined.

Lemma pad_table :
  forallb (λ n, (String.length (pad n) =? 2)%nat
                && forallb (λ m, implb (String.eqb (pad n) (pad m)) (n =? m)%nat)
                     (seq 0 100))
    (seq 0 100) = true.
Proof. vm_compute. reflexivity. Qed.

Lemma pad_length (n : nat) : n < 100 → String.length (pad n) = 2.
Proof.
  intros Hn. pose proof pad_table as H. rewrite forallb_forall in H.
  assert (In n (seq 0 100)) as Hin by (apply in_seq; lia).
  apply H, andb_prop in Hin as [Hlen _]. by apply Nat.eqb_eq.
Qed.

Lemma pad_inj (n m : nat) : n < 100 → m < 100 → pad n = pad m → n = m.
Proof.
  intros Hn Hm Heq. pose proof pad_table as H. rewrite forallb_forall in H.
  assert (In n (seq 0 100)) as Hin by (apply in_seq; lia).
  apply H, andb_prop in Hin as [_ Hinj]. rewrite forallb_forall in Hinj.
  assert (In m (seq 0 100)) as Hin by (apply in_seq; lia).
  apply Hinj in Hin. rewrite Heq, String.eqb_refl in Hin. by apply Nat.eqb_eq.
Qed.

Lemma inRange_bounds (d : DateTime) :
  inRange d = true →
  month d + 1 < 100 ∧ date d < 100 ∧ hours d < 100 ∧ minutes d < 100 ∧
  seconds d < 100.
Proof.
  unfold inRange. rewrite !andb_true_iff, !Nat.ltb_lt, !Nat.leb_le. lia.
Qed.

(** X4: the time stamp is the year followed by eleven characters, and two
    moments with the same time stamp are the same second: the name of a
    report directory tells the second it was made. *)
Theorem X4_timestamp_inj (d1 d2 : DateTime) :
  inRange d1 = true → inRange d2 = true →
  String.length (timestamp d1) = String.length (natToString (fullYear d1)) + 11 ∧
  (timestamp d1 = timestamp d2 → d1 = d2).
Proof.
  intros H G.
  apply inRange_bounds in H as (H1 & H2 & H3 & H4 & H5).
  apply inRange_bounds in G as (G1 & G2 & G3 & G4 & G5).
  unfold timestamp. split.
  - rewrite !string_length_app, !pad_length by done. simpl. lia.
  - intros Heq.
    apply app_inj_length_r in Heq as [Hy Heq];
      [|rewrite !string_length_app, !pad_length by done; done].
    apply app_inj_length in Heq as [Hmo Heq]; [|by rewrite !pad_length].
    apply app_inj_length in Heq as [Hd Heq]; [|by rewrite !pad_length].
    apply app_inj_length in Heq as [_ Heq]; [|done].
    apply app_inj_length in Heq as [Hh Heq]; [|by rewrite !pad_length].
    apply app_inj_length in Heq as [Hmi Hs]; [|by rewrite !pad_length].
    apply natToString_inj in Hy. apply pad_inj in Hmo, Hd, Hh, Hmi, Hs; try done.
    destruct d1, d2. simpl in *. f_equal; lia.
Qed.

Lemma X4_witness :
  inRange exampleMoment = true ∧
  timestamp exampleMoment = "20260221-090500" ∧
  String.length (timestamp exampleMoment)
  = String.length (natToString (fullYear exampleMoment)) + 11 ∧
  (timestamp exampleMoment = timestamp exampleMoment →
   exampleMoment = exampleMoment).
Proof.
  split; [reflexivity |]. split; [reflexivity |].
  apply X4_timestamp_inj; reflexivity.
Defined.

End LibFacts.

(** ** Facts about [scripts/render_mermaid.ts] *)

Module RenderMermaidFacts.
Import Js JsText RenderMermaid JsFacts JsTextFacts.

Lemma substChar_entity (p : ascii) (rep : string) (c : ascii) (s : string) :
  substChar p rep (String c s)
  = (if Ascii.eqb p c then rep else String c "") +:+ substChar p rep s.
Proof. done. Qed.

Lemma escapeHtml_entities (s : string) : escapeHtml s = entities s.
Proof.
  unfold escapeHtml. rewrite !replaceAll_char.
  induction s as [|c s IH]; [done |].
  rewrite substChar_entity, !substChar_app, IH. cbn [entities]. f_equal.
  unfold entity. rewrite (Ascii.eqb_sym c "&"), (Ascii.eqb_sym c "<"),
    (Ascii.eqb_sym c ">").
  destruct (Ascii.eqb "&" c) eqn:Ha; [reflexivity |].
  cbn [substChar]. rewrite app_empty_r.
  destruct (Ascii.eqb "<" c) eqn:Hl; [reflexivity |].
  cbn [substChar]. by rewrite app_empty_r.
Qed.

Lemma entities_app (a b : string) : entities (a +:+ b) = entities a +:+ entities b.
Proof.
  induction a as [|c a IH]; [by rewrite !app_nil |].
  rewrite app_cons. simpl. by rewrite IH, append_assoc.
Qed.

Lemma entity_no_angle (c : ascii) :
  all_chars (λ x, negb (is_angle x)) (entity c) = true.
Proof.
  unfold entity. destruct (Ascii.eqb c "&") eqn:Ha; [reflexivity |].
  destruct (Ascii.eqb c "<") eqn:Hl; [reflexivity |].
  destruct (Ascii.eqb c ">") eqn:Hg; [reflexivity |].
  simpl. unfold is_angle. by rewrite Hl, Hg.
Qed.

(** X5: escaping works character by character, so the escaped text of two
    pieces is the two escaped texts in a row; an escaped text holds no
    angle bracket, and a text without ampersands and angle brackets is
    left as it is. *)
Theorem X5_escapeHtml_no_markup (a b : string) :
  escapeHtml (a +:+ b) = escapeHtml a +:+ escapeHtml b ∧
  all_chars (λ x, negb (is_angle x)) (escapeHtml a) = true ∧
  (all_chars (λ x, negb (Ascii.eqb x "&" || is_angle x)) a = true →
   escapeHtml a = a).
Proof.
  rewrite !escapeHtml_entities. split_and!.
  - apply entities_app.
  - induction a as [|c a IH]; [done |].
    simpl. by rewrite all_chars_app, entity_no_angle, IH.
  - induction a as [|c a IH]; [done |].
    simpl. intros [Hc Ha]%andb_prop. rewrite IH by done.
    unfold entity, is_angle in *.
    destruct (Ascii.eqb c "&"); [done |]. destruct (Ascii.eqb c "<"); [done |].
    destruct (Ascii.eqb c ">"); [done |]. by rewrite app_cons, app_nil.
Qed.

Lemma entity_cases (c : ascii) :
  (entity c = String c "" ∧ c ≠ "&"%char) ∨
  (c = "&"%char ∧ entity c = "&amp;") ∨
  (c = "<"%char ∧ entity c = "&lt;") ∨
  (c = ">"%char ∧ entity c = "&gt;").
Proof.
  unfold entity.
  destruct (Ascii.eqb_spec c "&") as [->|Ha]; [right; left; done |].
  destruct (Ascii.eqb_spec c "<") as [->|Hl]; [right; right; left; done |].
  destruct (Ascii.eqb_spec c ">") as [->|Hg]; [right; right; right; done |].
  by left.
Qed.

Lemma entities_inj (a b : string) : entities a = entities b → a = b.
Proof.
  revert b. induction a as [|c a IH]; intros [|d b].
  - done.
  - simpl. destruct (entity_cases d) as [[-> _]|[[_ ->]|[[_ ->]|[_ ->]]]];
      by rewrite app_cons.
  - simpl. destruct (entity_cases c) as [[-> _]|[[_ ->]|[[_ ->]|[_ ->]]]];
      by rewrite app_cons.
  - simpl.
    destruct (entity_cases c) as [[-> Hc]|[[-> ->]|[[-> ->]|[-> ->]]]];
      destruct (entity_cases d) as [[-> Hd]|[[-> ->]|[[-> ->]|[-> ->]]]];
      rewrite ?app_cons, ?app_nil; intros Heq; try (by injection Heq);
      try (injection Heq as -> Heq; by rewrite (IH b Heq));
      try (injection Heq as Heq; by rewrite (IH b Heq)).
Qed.

(** X6: escaping loses nothing: two texts have the same escaped text only
    when they are the same text. *)
Theorem X6_escapeHtml_faithful (a b : string) :
  String.eqb (escapeHtml a) (escapeHtml b) = String.eqb a b.
Proof.
  rewrite !escapeHtml_entities.
  destruct (String.eqb_spec a b) as [->|Hne]; [apply String.eqb_refl |].
  apply String.eqb_neq. intros Heq. by apply Hne, entities_inj.
Qed.

End RenderMermaidFacts.

(** ** Facts about [scripts/publish_reports.ts] *)

Module PublishReportsFacts.
Import Js JsText Lib PublishReports JsFacts JsTextFacts.
Import RunDiscovery (outcome, Returns, Throws).

Lemma copyEntry_Dir (entries : list (string * Node)) :
  copyEntry (Dir entries) = Dir (copyDir entries).
Proof. done. Qed.

Lemma entryNamed_copyDir (name : string) (source : list (string * Node)) :
  entryNamed name (copyDir source)
  = if has ignoreFiles name then None else copyEntry <$> entryNamed name source.
Proof.
  induction source as [|[n node] rest IH]; [by destruct (has ignoreFiles name) |].
  cbn [copyDir entryNamed]. destruct (String.eqb_spec n name) as [->|Hne].
  - destruct (has ignoreFiles name) eqn:Hi; [done |].
    cbn [entryNamed]. by rewrite String.eqb_refl.
  - destruct (has ignoreFiles n) eqn:Hi; [done |].
    cbn [entryNamed]. by apply String.eqb_neq in Hne as ->.
Qed.

Lemma resolve_copyEntry (path : list string) (node : Node) :
  resolve path (copyEntry node)
  = if existsb (has ignoreFiles) path then None
    else copyEntry <$> resolve path node.
Proof.
  revert node. induction path as [|name rest IH]; intros node; [done |].
  destruct node as [content|entries]; [cbn [copyEntry resolve]; by destruct (existsb (has ignoreFiles) (name :: rest)) |].
  rewrite copyEntry_Dir. cbn [resolve existsb]. rewrite entryNamed_copyDir.
  destruct (has ignoreFiles name); [done |]. simpl.
  destruct (entryNamed name entries) as [child|]; simpl; [apply IH |].
  by destruct (existsb _ _).
Qed.

Lemma copyEntry_File (node : Node) (content : string) :
  copyEntry node = File content ↔ node = File content.
Proof. by destruct node. Qed.

(** X7: what the copy of a report directory holds: nothing at a path one
    of whose names is [auth_cookies.json], at whatever depth, and at
    every other path the copy of what the source holds there, a file with
    the content it has in the source. *)
Theorem X7_copyDir_contents (source : list (string * Node)) (path : list string) :
  resolve path (Dir (copyDir source))
  = (if existsb (has ignoreFiles) path then None
     else copyEntry <$> resolve path (Dir source)) ∧
  ("auth_cookies.json" ∈ path → resolve path (Dir (copyDir source)) = None) ∧
  (∀ content,
     resolve path (Dir (copyDir source)) = Some (File content) ↔
     ("auth_cookies.json" ∉ path) ∧ resolve path (Dir source) = Some (File content)).
Proof.
  assert (existsb (has ignoreFiles) path = true ↔ "auth_cookies.json" ∈ path) as Hex.
  { rewrite existsb_exists. split.
    - intros (x & Hin & Hx). apply has_true in Hx.
      apply list_elem_of_singleton in Hx as ->. by apply list_elem_of_In.
    - intros Hin. exists "auth_cookies.json". split; [by apply list_elem_of_In | done]. }
  rewrite <- copyEntry_Dir, resolve_copyEntry. split_and!.
  - done.
  - intros Hin%Hex. by rewrite Hin.
  - intros content. destruct (existsb (has ignoreFiles) path) eqn:Hb.
    + split; [done |]. intros [Hnot _]. exfalso. by apply Hnot, Hex.
    + assert ("auth_cookies.json" ∉ path) as Hnot.
      { intros Hin%Hex. congruence. }
      destruct (resolve path (Dir source)) as [node|]; simpl.
      * split.
        -- intros [= Hc]. apply (proj1 (copyEntry_File _ _)) in Hc. by subst.
        -- by intros [_ [= ->]].
      * split; [done | by intros [_ ?]].
Qed.

Example copy_of_example :
  copyDir exampleReport
  = [ ("urls.json", File "{}"); ("screenshots", Dir [ ("home.png", File "png") ]) ].
Proof. reflexivity. Qed.

Lemma filter_other (stamp : string) (l : list ReportEntry) :
  Forall (λ item, negb (String.eqb (timestamp item) stamp) = true) l →
  List.filter (λ item, negb (String.eqb (timestamp item) stamp)) l = l.
Proof.
  induction 1 as [|x l Hx Hl IH]; [done |]. simpl. by rewrite Hx, IH.
Qed.

Lemma Forall_filter_other (stamp : string) (l : list ReportEntry) :
  Forall (λ item, negb (String.eqb (timestamp item) stamp) = true)
    (List.filter (λ item, negb (String.eqb (timestamp item) stamp)) l).
Proof.
  induction l as [|x l IH]; [done |]. simpl.
  destruct (negb _) eqn:Hx; [by constructor | done].
Qed.

Lemma filter_same_other (stamp : string) (l : list ReportEntry) :
  Forall (λ item, negb (String.eqb (timestamp item) stamp) = true) l →
  List.filter (λ item, String.eqb (timestamp item) stamp) l = [].
Proof.
  induction 1 as [|x l Hx Hl IH]; [done |]. simpl.
  apply negb_true_iff in Hx. by rewrite Hx.
Qed.

Lemma updateReports_eq (stamp now : string) (meta : Meta)
    (reports : option (list ReportEntry)) :
  updateReports stamp meta now reports
  = entry stamp meta now
    :: take 49 (List.filter (λ item, negb (String.eqb (timestamp item) stamp))
                  (default [] reports)).
Proof. done. Qed.

(** X8: the new index starts with the entry of the report, holds no other
    entry with its time stamp, goes on with the first 49 of the other
    entries in their order, and so has at most fifty entries; where no
    index and no [meta.json] exists yet it is that one entry. *)
Theorem X8_updateReports_shape (stamp now : string) (meta : Meta)
    (reports : option (list ReportEntry)) :
  let others :=
    List.filter (λ item, negb (String.eqb (timestamp item) stamp))
      (default [] reports) in
  updateReports stamp meta now reports
  = entry stamp meta now :: take 49 others ∧
  length (updateReports stamp meta now reports) ≤ 50 ∧
  List.filter (λ item, String.eqb (timestamp item) stamp)
    (updateReports stamp meta now reports) = [entry stamp meta now] ∧
  newIndex stamp None None now
  = Returns [ entry stamp {| meta_targetUrl := Some ""; startedAt := Some now |} now ].
Proof.
  cbv zeta. unfold updateReports, slice0. cbn [take]. split_and!.
  - done.
  - cbn [length]. rewrite length_take. lia.
  - cbn [List.filter timestamp entry]. rewrite String.eqb_refl. f_equal.
    apply filter_same_other. apply Forall_take, Forall_filter_other.
  - done.
Qed.

(** X9: publishing keeps the time stamps of the index pairwise distinct. *)
Theorem X9_updateReports_NoDup (stamp now : string) (meta : Meta)
    (reports : list ReportEntry) :
  NoDup (List.map timestamp reports) →
  NoDup (List.map timestamp (updateReports stamp meta now (Some reports))).
Proof.
  intros Hnd. unfold updateReports, slice0. cbn [take default List.map].
  apply NoDup_cons. split.
  - cbn [timestamp entry]. intros (item & Hstamp & Hin)%(list_elem_of_fmap_1 timestamp).
    eapply Forall_forall in Hin; [|apply Forall_take, Forall_filter_other].
    simpl in Hin. rewrite <- Hstamp, String.eqb_refl in Hin. done.
  - eapply sublist_NoDup; [exact Hnd |]. apply fmap_sublist.
    etrans; [apply sublist_take |]. apply sublist_filter_bool.
Qed.

Lemma X9_witness :
  NoDup (List.map timestamp exampleIndex) ∧
  NoDup (List.map timestamp
           (updateReports "20260221-120000"
              {| meta_targetUrl := None; startedAt := None |} "now"
              (Some exampleIndex))).
Proof.
  assert (NoDup (List.map timestamp exampleIndex)) as H
    by (apply (bool_decide_unpack _); by vm_compute).
  split; [exact H |]. by apply X9_updateReports_NoDup.
Defined.

(** X10: publishing a report a second time leaves the index as the first
    publication made it. *)
Theorem X10_updateReports_again (stamp now : string) (meta : Meta)
    (reports : option (list ReportEntry)) :
  updateReports stamp meta now (Some (updateReports stamp meta now reports))
  = updateReports stamp meta now reports.
Proof.
  rewrite !updateReports_eq. f_equal.
  cbn [from_option id List.filter timestamp entry].
  rewrite String.eqb_refl. cbn [negb].
  rewrite filter_other by apply Forall_take, Forall_filter_other.
  by rewrite take_take.
Qed.

End PublishReportsFacts.

(** ** Facts about [scripts/run_all.ts] *)

Module RunAllFacts.
Import Js RunAll.
Import RunDiscovery (outcome, Returns, Throws).

Lemma runEach_cons (execSync : string → outcome unit) (command : string)
    (rest : list string) :
  runEach execSync (command :: rest)
  = match execSync command with
    | Returns _ =>
        (command :: (runEach execSync rest).1, (runEach execSync rest).2)
    | Throws e => ([command], Crashed e)
    end.
Proof.
  cbn [runEach]. destruct (execSync command); [|done].
  by destruct (runEach execSync rest).
Qed.

Lemma runEach_prefix (execSync : string → outcome unit) (commands : list string) :
  (runEach execSync commands).1 `prefix_of` commands.
Proof.
  induction commands as [|c rest IH]; [done |]. rewrite runEach_cons.
  destruct (execSync c); simpl.
  - by apply prefix_cons.
  - by exists rest.
Qed.

Lemma runEach_completed (execSync : string → outcome unit) (commands : list string) :
  (runEach execSync commands).2 = Completed ↔
  ∀ c, c ∈ commands → execSync c = Returns tt.
Proof.
  induction commands as [|c rest IH].
  - split; [by intros _ c ?%elem_of_nil | done].
  - rewrite runEach_cons. destruct (execSync c) as [[]|e] eqn:Hc; simpl.
    + rewrite IH. split.
      * intros H c' [->|Hin]%elem_of_cons; [done | by apply H].
      * intros H c' Hin. apply H. by apply list_elem_of_further.
    + split; [done |]. intros H. specialize (H c (list_elem_of_here _ _)).
      congruence.
Qed.

Lemma runEach_all (execSync : string → outcome unit) (commands : list string) :
  (runEach execSync commands).2 = Completed →
  (runEach execSync commands).1 = commands.
Proof.
  induction commands as [|c rest IH]; [done |]. rewrite runEach_cons.
  destruct (execSync c); simpl; [|done]. intros H. by rewrite IH.
Qed.

Lemma runEach_earlier (execSync : string → outcome unit) (commands : list string)
    (i j : nat) (c c' : string) :
  i < j → (runEach execSync commands).1 !! j = Some c →
  commands !! i = Some c' → execSync c' = Returns tt.
Proof.
  revert i j. induction commands as [|x rest IH]; intros i j Hij; [done |].
  rewrite runEach_cons. destruct (execSync x) as [[]|e] eqn:Hx; simpl.
  - destruct j as [|j]; [lia |]. destruct i as [|i]; simpl.
    + by intros _ [= <-].
    + apply IH. lia.
  - destruct j as [|j]; [lia |]. done.
Qed.

(** X11: the orchestrator hands the five commands to the shell in their
    order and stops at the first that fails: a command runs only after
    all the commands before it returned, the script runs to its end
    exactly when every command returns, and without a target it runs
    none. *)
Theorem X11_script_stops_at_failure (target : string) (execSync : string → outcome unit) :
  (script target execSync).1 `prefix_of` stages ∧
  (∀ i j c c', i < j → (script target execSync).1 !! j = Some c →
     stages !! i = Some c' → execSync c' = Returns tt) ∧
  ((script target execSync).2 = Completed ↔
     truthy target = true ∧ ∀ c, c ∈ stages → execSync c = Returns tt) ∧
  ((script target execSync).2 = Completed → (script target execSync).1 = stages) ∧
  (truthy target = false → script target execSync = ([], Exited 1)).
Proof.
  unfold script. destruct (truthy target); split_and!.
  - apply runEach_prefix.
  - apply runEach_earlier.
  - rewrite runEach_completed. by split; [|intros [_ ?]].
  - apply runEach_all.
  - done.
  - by exists stages.
  - by intros i j c c'.
  - by split; [|intros [? _]].
  - done.
  - done.
Qed.

End RunAllFacts.

(** ** More facts about [scripts/build_flow.ts] *)

Module BuildFlowMoreFacts.
Import Js JsText Lib BuildFlow BuildFlowScript JsFacts JsTextFacts BuildFlowFacts.
Import RunDiscovery (outcome, Returns, Throws).

Lemma replaceQuotes_free (s : string) :
  all_chars (differs "034") (replaceQuotes s) = true.
Proof.
  induction s as [|c s IH]; [done |]. cbn [replaceQuotes all_chars].
  rewrite IH, andb_true_r. unfold differs.
  destruct (Ascii.eqb c "034") eqn:Hc; [done | by rewrite Hc].
Qed.

Lemma truthy_replaceQuotes (s : string) : truthy (replaceQuotes s) = truthy s.
Proof. by destruct s. Qed.

Lemma countChar_app (c : ascii) (a b : string) :
  countChar c (a +:+ b) = countChar c a + countChar c b.
Proof.
  induction a as [|x a IH]; [by rewrite app_nil |].
  rewrite app_cons. simpl. rewrite IH. lia.
Qed.

Lemma countChar_free (c : ascii) (s : string) :
  all_chars (differs c) s = true → countChar c s = 0.
Proof.
  induction s as [|x s IH]; [done |]. simpl. intros [Hx Hs]%andb_prop.
  unfold differs in Hx. apply negb_true_iff in Hx. by rewrite Hx, IH.
Qed.

(** X12: the label of a node holds no double quote, so that the line of the
    node holds exactly the two that enclose the label, and it is empty
    only where the url is; for a title of ASCII characters the label is
    the trimmed title, or the url where the title is missing, empty or
    white space only, with every double quote turned into a single one. *)
Theorem X12_node_label (index : nat) (page : PageContext) :
  all_chars (differs "034") (label (mkNode index page)) = true ∧
  countChar "034" (nodeLine (mkNode index page)) = 2 ∧
  (label (mkNode index page) = "" → url page = "") ∧
  (all_chars is_ascii (default "" (title page)) = true →
   label (mkNode index page)
   = replaceQuotes (if truthy (trim (default "" (title page)))
                    then trim (default "" (title page)) else url page)).
Proof.
  assert (pageLabel page
          = if truthy (trim (default "" (title page)))
            then trim (default "" (title page)) else url page) as Hlabel.
  { unfold pageLabel. destruct (title page) as [[|c t]|]; done. }
  cbn [label mkNode]. split_and!.
  - apply replaceQuotes_free.
  - unfold nodeLine. cbn [id label mkNode].
    rewrite !countChar_app, (countChar_free _ (nodeId index)),
      (countChar_free _ (replaceQuotes _)); [done | apply replaceQuotes_free |].
    apply nodeId_free. done.
  - rewrite Hlabel. intros H. apply (f_equal truthy) in H.
    rewrite truthy_replaceQuotes in H.
    destruct (truthy (trim (default "" (title page)))) eqn:Ht; [simpl in H; congruence |].
    by destruct (url page).
  - intros _. by rewrite Hlabel.
Qed.

Lemma elem_of_navSeeds (pages : list PageContext) (t : string) :
  t ∈ navSeeds pages ↔
  truthy t = true ∧
  ∃ page items item, page ∈ pages ∧ navItems page = Some items ∧
                     item ∈ items ∧ text item = t.
Proof.
  unfold navSeeds. rewrite elem_of_filter_bool, list_elem_of_In, in_map_iff.
  split.
  - intros [(item & Ht & (page & Hpage & Hitem)%in_flat_map) Htruthy].
    split; [done |]. destruct (navItems page) as [items|] eqn:Hnav; [|done].
    exists page, items, item. by rewrite !list_elem_of_In.
  - intros [Htruthy (page & items & item & Hpage & Hnav & Hitem & Ht)].
    split; [|done]. exists item. split; [done |]. apply in_flat_map.
    exists page. rewrite Hnav. by rewrite <- !list_elem_of_In.
Qed.

(** X13: the navigation line of the summary names at most six texts of
    navigation items: the first six distinct non-empty ones in the order
    of the pages, each once; without any it reads [Primary pages]. *)
Theorem X13_uniqueNav_texts (pages : list PageContext) :
  length (uniqueNav pages) ≤ 6 ∧
  NoDup (uniqueNav pages) ∧
  uniqueNav pages = take 6 (firstOccurrences [] (navSeeds pages)) ∧
  (∀ t, t ∈ uniqueNav pages →
     truthy t = true ∧
     ∃ page items item, page ∈ pages ∧ navItems page = Some items ∧
                        item ∈ items ∧ text item = t) ∧
  (∀ target generated ux,
     summaryLines target generated pages ux !! 6
     = Some ("- Public navigation: Home -> " +:+
             (if nonEmpty (uniqueNav pages)
              then join " -> " (uniqueNav pages) else "Primary pages"))) ∧
  (navSeeds pages = [] →
   ∀ target generated ux,
     summaryLines target generated pages ux !! 6
     = Some "- Public navigation: Home -> Primary pages").
Proof.
  unfold uniqueNav, slice0. split_and!.
  - rewrite length_take. lia.
  - eapply sublist_NoDup; [apply NoDup_Set_of | apply sublist_take].
  - by rewrite Set_of_firstOccurrences.
  - intros t Hin. apply elem_of_take in Hin as (i & Hi & _).
    apply list_elem_of_lookup_2 in Hi. rewrite elem_of_Set_of in Hi.
    by rewrite <- elem_of_navSeeds.
  - done.
  - intros Hnone target generated ux. unfold summaryLines, uniqueNav.
    by rewrite Hnone.
Qed.

Lemma nonEmpty_filter {A} (test : A → bool) (xs : list A) :
  nonEmpty (List.filter test xs) = true ↔ ∃ x, x ∈ xs ∧ test x = true.
Proof.
  split.
  - destruct (List.filter test xs) as [|x l] eqn:Hf; [done |]. intros _.
    exists x. apply elem_of_filter_bool. rewrite Hf. apply list_elem_of_here.
  - intros (x & Hin & Hx). apply (nonEmpty_elem x), elem_of_filter_bool. done.
Qed.

Ltac split_lines H :=
  repeat match type of H with
  | _ ∈ _ ++ _ => apply elem_of_app in H as [H|H]
  | _ ∈ (if ?b then _ else _) => destruct b eqn:?
  | _ ∈ _ :: _ => apply elem_of_cons in H as [H|H]
  | _ ∈ [] => by apply elem_of_nil in H
  end.

Ltac other_line H := rewrite ?app_cons, ?app_nil in H; discriminate H.

Ltac flow_line test :=
  split;
  [ let H := fresh "H" in
    intros H;
    unfold summaryLines, loginPages, checkoutPages, searchPages, accountPages in H;
    split_lines H;
    try other_line H;
    match goal with
    | E : nonEmpty (List.filter test _) = true |- _ =>
        by apply nonEmpty_filter in E
    end
  | let H := fresh "H" in
    intros H; apply nonEmpty_filter in H; unfold summaryLines;
    unfold loginPages, checkoutPages, searchPages, accountPages; rewrite ?H;
    repeat first [ apply list_elem_of_here
                 | apply elem_of_app; left; apply list_elem_of_here
                 | apply elem_of_app; right
                 | apply list_elem_of_further ] ].

Lemma linesOf_single (l : string) : noLineFeed l = true → linesOf l = [l].
Proof.
  unfold noLineFeed. induction l as [|c l IH]; [done |].
  cbn [all_chars linesOf]. intros [Hc Hl]%andb_prop.
  unfold differs in Hc. apply negb_true_iff in Hc. by rewrite Hc, IH.
Qed.

Lemma linesOf_app (l rest : string) :
  noLineFeed l = true → linesOf (l +:+ newline +:+ rest) = l :: linesOf rest.
Proof.
  unfold noLineFeed. induction l as [|c l IH].
  - intros _. by rewrite app_nil.
  - cbn [all_chars]. intros [Hc Hl]%andb_prop. rewrite app_cons.
    cbn [linesOf]. unfold differs in Hc. apply negb_true_iff in Hc.
    by rewrite Hc, IH.
Qed.

Lemma linesOf_join (l : string) (lines : list string) :
  Forall (λ l, noLineFeed l = true) (l :: lines) →
  linesOf (join newline (l :: lines)) = l :: lines.
Proof.
  revert l. induction lines as [|l' lines IH]; intros l Hall.
  - apply Forall_cons_1 in Hall as [Hl _]. by apply linesOf_single.
  - apply Forall_cons_1 in Hall as [Hl Hall].
    change (join newline (l :: l' :: lines))
      with (l +:+ newline +:+ join newline (l' :: lines)).
    by rewrite linesOf_app, IH.
Qed.

Lemma noLineFeed_app (a b : string) :
  noLineFeed (a +:+ b) = noLineFeed a && noLineFeed b.
Proof. apply all_chars_app. Qed.

Lemma noLineFeed_join (sep : string) (xs : list string) :
  noLineFeed sep = true → Forall (λ x, noLineFeed x = true) xs →
  noLineFeed (join sep xs) = true.
Proof.
  intros Hsep. induction xs as [|x xs IH]; [done |].
  intros [Hx Hxs]%Forall_cons_1. destruct xs as [|x' xs]; [done |].
  change (join sep (x :: x' :: xs)) with (x +:+ sep +:+ join sep (x' :: xs)).
  by rewrite !noLineFeed_app, Hx, Hsep, IH.
Qed.

Lemma noLineFeed_natToString (n : nat) : noLineFeed (natToString n) = true.
Proof.
  apply all_chars_impl with (P := is_digit); [|apply digits_natToString].
  intros c Hc. unfold differs. apply negb_true_iff, Ascii.eqb_neq. by intros ->.
Qed.

Lemma noLineFeed_numToString (z : Z) : noLineFeed (numToString z) = true.
Proof.
  assert (∀ d, noLineFeed (NilZero.string_of_uint d) = true) as Huint.
  { intros d.
    assert (noLineFeed (NilEmpty.string_of_uint d) = true) as Hd.
    { apply all_chars_impl with (P := is_digit); [|apply digits_string_of_uint].
      intros c Hc. unfold differs. apply negb_true_iff, Ascii.eqb_neq.
      by intros ->. }
    by destruct d. }
  unfold numToString, NilZero.string_of_int.
  destruct (Z.to_int z) as [d|d]; [apply Huint |].
  cbn [noLineFeed all_chars]. unfold noLineFeed in Huint. by rewrite Huint.
Qed.

Lemma noLineFeed_summaryLines (target generated : string)
    (pages : list PageContext) (ux : option UxCounts) :
  noLineFeed target = true → noLineFeed generated = true →
  (∀ t, t ∈ uniqueNav pages → noLineFeed t = true) →
  Forall (λ l, noLineFeed l = true) (summaryLines target generated pages ux).
Proof.
  intros Ht Hg Hnav. unfold summaryLines, uxCount.
  repeat first
    [ apply Forall_app; split
    | apply Forall_cons; split
    | apply Forall_nil_2
    | match goal with |- Forall _ (if ?b then _ else _) => destruct b end ];
    rewrite ?noLineFeed_app, ?noLineFeed_natToString, ?noLineFeed_numToString,
      ?Hg; try done.
  - by destruct (truthy target); rewrite ?Ht.
  - destruct (nonEmpty (uniqueNav pages)); [|done].
    rewrite noLineFeed_join; [done | done |]. by apply Forall_forall.
Qed.

(** X14: for pages with urls and titles of ASCII characters, and a target,
    a time of generation and navigation texts without line feed, the
    lines of the summary text are the lines the function pushed, and the
    text has the line of a flow exactly when a page of its kind was
    found: the login flow for a login page, the checkout flow for a
    checkout page, the search flow for a search page and the account flow
    for an account page. *)
Theorem X14_summary_flows (target generated : string) (pages : list PageContext)
    (ux : option UxCounts) :
  forallb (λ page, all_chars is_ascii (urlAndTitle page)) pages = true →
  noLineFeed target = true → noLineFeed generated = true →
  forallb noLineFeed (uniqueNav pages) = true →
  let a := buildFlowArtifacts target pages ux generated in
  linesOf (summary a) = summaryLines target generated pages ux ∧
  ("- Login flow: Home -> Login -> Post-login landing" ∈ linesOf (summary a) ↔
   ∃ page, page ∈ pages ∧ isLogin page = true) ∧
  ("- Checkout flow: Browse -> Product -> Cart -> Checkout" ∈ linesOf (summary a) ↔
   ∃ page, page ∈ pages ∧ isCheckout page = true) ∧
  ("- Search flow: Search -> Results -> Detail" ∈ linesOf (summary a) ↔
   ∃ page, page ∈ pages ∧ isSearch page = true) ∧
  ("- Account flow: Account -> Settings" ∈ linesOf (summary a) ↔
   ∃ page, page ∈ pages ∧ isAccount page = true).
Proof.
  intros _ Ht Hg Hnav. cbv zeta. cbn [summary buildFlowArtifacts].
  assert (∀ t, t ∈ uniqueNav pages → noLineFeed t = true) as Hnav'.
  { intros t Hin. rewrite forallb_forall in Hnav. by apply Hnav, list_elem_of_In. }
  assert (linesOf (join newline (summaryLines target generated pages ux))
          = summaryLines target generated pages ux) as ->.
  { pose proof (noLineFeed_summaryLines target generated pages ux Ht Hg Hnav') as Hall.
    revert Hall. unfold summaryLines at 1 3. intros Hall.
    cbn [app] in *. by apply linesOf_join. }
  split; [done |]. split_and!.
  - flow_line isLogin.
  - flow_line isCheckout.
  - flow_line isSearch.
  - flow_line isAccount.
Qed.

(** The summary of the test of the repository: a login page and no search
    page. *)
Lemma X14_witness :
  linesOf (summary testArtifacts) !! 7
  = Some "- Login flow: Home -> Login -> Post-login landing" ∧
  ("- Login flow: Home -> Login -> Post-login landing"
     ∈ linesOf (summary testArtifacts) ↔
   ∃ page, page ∈ testPages ∧ isLogin page = true) ∧
  ("- Search flow: Search -> Results -> Detail"
     ∈ linesOf (summary testArtifacts) ↔
   ∃ page, page ∈ testPages ∧ isSearch page = true).
Proof.
  split; [reflexivity |].
  destruct (X14_summary_flows "https://example.com" "2026-02-21T00:00:00.000Z"
              testPages (Some testUx)) as (_ & Hlogin & _ & Hsearch & _).
  - reflexivity.
  - reflexivity.
  - reflexivity.
  - reflexivity.
  - exact (conj Hlogin Hsearch).
Defined.

Lemma includes_summary (target generated kw head tail : string)
    (pages : list PageContext) (ux : option UxCounts) :
  head +:+ kw +:+ tail ∈ summaryLines target generated pages ux →
  includes (summary (buildFlowArtifacts target pages ux generated)) kw = true.
Proof. apply includes_join. Qed.

(** X15: the command-line entry on a report directory without
    [pages.json], or with one that holds no pages: it writes the diagram
    of the empty Public group alone and the counts zero, and the target
    of [urls.json]; without any of the three files the target reads
    [Unknown]; a file that does not parse ends it with the exception. *)
Theorem X15_main_without_pages (urlsData : UrlsData) (uxData : UxData)
    (pagesTarget : option string) (now e : string) :
  (∀ pagesFile,
     pagesFile = None ∨
     pagesFile = Some (Returns {| pages_targetUrl := pagesTarget; pages := None |}) →
     ∃ w, main (Some (Returns urlsData)) pagesFile (Some (Returns uxData)) now
          = Returns w ∧
          flowMmd w = join newline ["flowchart LR"; "  subgraph Public"; "  end"] ∧
          nodeCount (flowMetaJson w) = 0 ∧ edgeCount (flowMetaJson w) = 0 ∧
          generatedAt (flowMetaJson w) = now ∧
          includes (summaryMd w) "- Pages discovered: 0" = true) ∧
  (∃ w, main None None None now = Returns w ∧
        targetUrl (flowMetaJson w) = "" ∧
        includes (summaryMd w) "Target: Unknown" = true) ∧
  (∃ w, main (Some (Returns urlsData)) None None now = Returns w ∧
        targetUrl (flowMetaJson w) = orElse (urls_targetUrl urlsData) "") ∧
  main (Some (Throws e)) None None now = Throws e ∧
  main None (Some (Throws e)) None now = Throws e ∧
  main None None (Some (Throws e)) now = Throws e.
Proof.
  split_and!; try done.
  - intros pagesFile [->| ->]; eexists; (split; [reflexivity |]);
      cbn [flowMmd flowMetaJson summaryMd readJson pages default from_option id];
      (split_and!; try reflexivity);
      apply (includes_summary _ _ _ "" "");
      unfold summaryLines; apply elem_of_app; right;
      cbn [loginPages checkoutPages searchPages accountPages List.filter nonEmpty app];
      do 2 apply list_elem_of_further; apply list_elem_of_here.
  - eexists. split; [reflexivity |]. split; [reflexivity |].
    apply (includes_summary _ _ _ "" "").
    do 2 apply list_elem_of_further. apply list_elem_of_here.
  - eexists. split; reflexivity.
Qed.

End BuildFlowMoreFacts.

(** ** Facts about [scripts/run_playwright.ts] *)

Module RunPlaywrightFacts.
Import Js JsText Lib RunPlaywright JsFacts JsTextFacts.
Import RunDiscovery (outcome, Returns, Throws).

Lemma Set_of_NoDup (xs : list string) : NoDup xs → Set_of xs = xs.
Proof.
  induction xs as [|x xs IH] using rev_ind; [done |].
  intros [Hnd [Hx _]]%NoDup_app. rewrite Set_of_snoc, IH by done.
  rewrite bool_decide_eq_false_2; [done |].
  intros Hin. apply (Hx x Hin), list_elem_of_here.
Qed.

Lemma filter_all {A} (test : A → bool) (xs : list A) :
  (∀ x, x ∈ xs → test x = true) → List.filter test xs = xs.
Proof.
  induction xs as [|x xs IH]; [done |]. intros H. simpl.
  rewrite (H x) by apply list_elem_of_here. f_equal. apply IH.
  intros y Hy. apply H. by apply list_elem_of_further.
Qed.

Lemma nonEmpty_map {A B} (f : A → B) (xs : list A) :
  BuildFlow.nonEmpty (List.map f xs) = BuildFlow.nonEmpty xs.
Proof. by destruct xs. Qed.

Lemma sliceTo_prefix {A} (n : Z) (l : list A) : sliceTo n l `prefix_of` l.
Proof. unfold sliceTo. destruct (n <? 0)%Z; apply prefix_take. Qed.

Lemma sliceTo_length {A} (n : Z) (l : list A) :
  (0 ≤ n)%Z → length (sliceTo n l) ≤ Z.to_nat n.
Proof.
  intros Hn. unfold sliceTo. apply Z.ltb_ge in Hn as ->.
  rewrite length_take. lia.
Qed.

Lemma sliceTo_all {A} (n : Z) (l : list A) :
  (Z.of_nat (length l) ≤ n)%Z → sliceTo n l = l.
Proof.
  intros Hn. unfold sliceTo.
  assert ((n <? 0)%Z = false) as -> by (apply Z.ltb_ge; lia).
  apply take_ge. lia.
Qed.

Lemma elem_of_prefix {A} (l k : list A) (x : A) : l `prefix_of` k → x ∈ l → x ∈ k.
Proof. intros [r ->] Hin. apply elem_of_app. by left. Qed.

Lemma NoDup_prefix {A} (l k : list A) : l `prefix_of` k → NoDup k → NoDup l.
Proof. intros [r ->] Hnd. by apply NoDup_app in Hnd as [? _]. Qed.

Section WithEnv.
Variable env : Env.

(** The candidates of the selection: the urls of [urls.json], or the
    target where there is none. *)
Lemma selectUrls_run :
  selectUrls env
  = match readJson (urlsFile env) [] with
    | Throws e => Throws e
    | Returns listed =>
        match urlOrigin env (TARGET_URL env) with
        | None => Throws "Invalid URL"
        | Some origin =>
            Returns (sliceTo (maxPages env)
                       (Set_of (List.filter (sameOrigin (urlOrigin env) origin)
                                  (if BuildFlow.nonEmpty listed then listed
                                   else [TARGET_URL env]))))
        end
    end.
Proof.
  unfold selectUrls, filterSameOrigin.
  destruct (readJson _ _) as [listed|e]; [|done].
  by destruct (urlOrigin env (TARGET_URL env)).
Qed.

Lemma sameOrigin_true (origin u : string) :
  sameOrigin (urlOrigin env) origin u = true ↔ urlOrigin env u = Some origin.
Proof.
  unfold sameOrigin. destruct (urlOrigin env u) as [o|]; [|done].
  rewrite String.eqb_eq. split; congruence.
Qed.

(** X16: the urls the script visits are pairwise distinct, at most
    [maxPages] of them, each with the origin of the target and each an url
    of [urls.json] or the target itself; the selection fails only where
    [urls.json] cannot be read or the target is no url. *)
Theorem X16_selectUrls_distinct :
  match selectUrls env with
  | Returns urls =>
      NoDup urls ∧
      ((0 ≤ maxPages env)%Z → length urls ≤ Z.to_nat (maxPages env)) ∧
      (∀ u, u ∈ urls →
         is_Some (urlOrigin env u) ∧
         urlOrigin env u = urlOrigin env (TARGET_URL env) ∧
         (u = TARGET_URL env ∨
          ∃ listed, urlsFile env = Some (Returns listed) ∧ u ∈ listed))
  | Throws e =>
      urlsFile env = Some (Throws e) ∨ urlOrigin env (TARGET_URL env) = None
  end.
Proof.
  rewrite selectUrls_run. unfold readJson.
  destruct (urlsFile env) as [[listed|e]|] eqn:Hfile; [| by left |];
    (destruct (urlOrigin env (TARGET_URL env)) as [origin|] eqn:Ho; [|by right]);
    (split_and!;
     [ eapply NoDup_prefix; [apply sliceTo_prefix | apply NoDup_Set_of]
     | apply sliceTo_length
     | intros u Hin;
       apply (elem_of_prefix _ _ _ (sliceTo_prefix _ _)) in Hin;
       rewrite elem_of_Set_of, elem_of_filter_bool, sameOrigin_true in Hin;
       destruct Hin as [Hin Hu]; rewrite Hu; split_and!; [done | done |] ]).
  - destruct listed as [|x listed]; simpl in Hin.
    + apply list_elem_of_singleton in Hin. by left.
    + right. by eexists.
  - simpl in Hin. apply list_elem_of_singleton in Hin. by left.
Qed.

Lemma visitPage_run (u : string) (ps ps' : list PageInfo) (c c' : Counters) :
  visitPage env u (ps, c) = Returns (ps', c') →
  ps' = ps ++ [infoOf env u] ∧ c' = countersOf env [u] c.
Proof.
  unfold visitPage, infoOf, countersOf, push. simpl.
  destruct (newPage env u); [|done].
  destruct (closePage env u); [|done].
  destruct (visit env u); by intros [= <- <-].
Qed.

Lemma visitAll_run (urls : list string) (ps ps' : list PageInfo) (c c' : Counters) :
  visitAll env urls (ps, c) = Returns (ps', c') →
  ps' = ps ++ List.map (infoOf env) urls ∧ c' = countersOf env urls c.
Proof.
  revert ps c. induction urls as [|u urls IH]; intros ps c.
  - simpl. intros [= <- <-]. by rewrite app_nil_r.
  - cbn [visitAll]. destruct (visitPage env u (ps, c)) as [[ps1 c1]|e] eqn:Hu; [|done].
    apply visitPage_run in Hu as [-> ->]. intros [-> ->]%IH.
    by rewrite <- app_assoc.
Qed.

Lemma visitAll_works (urls : list string) (ps : list PageInfo) (c : Counters) :
  (∀ u, newPage env u = Returns tt) → (∀ u, closePage env u = Returns tt) →
  visitAll env urls (ps, c)
  = Returns (ps ++ List.map (infoOf env) urls, countersOf env urls c).
Proof.
  intros Hnew Hclose. revert ps c.
  induction urls as [|u urls IH]; intros ps c; [by rewrite app_nil_r |].
  cbn [visitAll]. unfold visitPage. rewrite Hnew, Hclose.
  cbn [fst snd]. unfold push.
  destruct (visit env u) as [v|e] eqn:Hv; rewrite IH, <- app_assoc;
    unfold infoOf, countersOf; cbn [List.map foldl app]; by rewrite Hv.
Qed.

Lemma foldl_checkLink (links : list string) (acc : list BrokenLink) :
  foldl (checkLink env) acc links = acc ++ omap (verdict env) links.
Proof.
  revert acc. induction links as [|l links IH]; intros acc; [by rewrite app_nil_r |].
  cbn [foldl omap list_omap]. rewrite IH. unfold checkLink, verdict, push.
  destruct (headStatus env l) as [s|e].
  - destruct (400 <=? s)%Z; [by rewrite <- app_assoc | done].
  - destruct (getStatus env l) as [s|e'].
    + destruct (400 <=? s)%Z; [by rewrite <- app_assoc | done].
    + by rewrite <- app_assoc.
Qed.

(** What the script writes when it comes to its end. *)
Lemma script_wrote (p : PagesArtifact) (x : UxArtifact) :
  script env = Wrote p x →
  ∃ urls,
    selectUrls env = Returns urls ∧
    pages p = List.map (infoOf env) urls ∧
    count p = length urls ∧
    counts x = countersOf env urls noCounts ∧
    brokenLinks x = omap (verdict env) (sampleSet (pages p)) ∧
    brokenLinksCount x = length (brokenLinks x).
Proof.
  unfold script. destruct (negb (truthy (TARGET_URL env))); [done |].
  destruct (selectUrls env) as [urls|e]; [|done].
  destruct (setUp env); [|done].
  destruct (visitAll env urls ([], noCounts)) as [[ps c]|e] eqn:Hv; [|done].
  apply visitAll_run in Hv as [-> ->].
  destruct (browserClose env); [|done].
  intros [= <- <-]. exists urls. cbn [pages count counts brokenLinks brokenLinksCount].
  rewrite foldl_checkLink. split_and!; try done. by rewrite length_map.
Qed.

Lemma script_works (urls : list string) :
  browserWorks env → truthy (TARGET_URL env) = true →
  selectUrls env = Returns urls →
  ∃ p x, script env = Wrote p x.
Proof.
  intros (Hup & Hclose & Hnew & Hpage) Htarget Hurls.
  unfold script. rewrite Htarget, Hurls, Hup, visitAll_works, Hclose by done.
  simpl. by do 2 eexists.
Qed.

Lemma url_infoOf (u : string) : url (infoOf env u) = u.
Proof. unfold infoOf. by destruct (visit env u). Qed.

Lemma urls_infoOf (urls : list string) :
  List.map url (List.map (infoOf env) urls) = urls.
Proof.
  induction urls as [|u urls IH]; [done |]. simpl. by rewrite url_infoOf, IH.
Qed.

Lemma NoDup_selectUrls (urls : list string) :
  selectUrls env = Returns urls → NoDup urls.
Proof.
  rewrite selectUrls_run. destruct (readJson _ _) as [listed|e]; [|done].
  destruct (urlOrigin env (TARGET_URL env)); [|done]. intros [= <-].
  eapply NoDup_prefix; [apply sliceTo_prefix | apply NoDup_Set_of].
Qed.

(** X17: [pages.json] holds one record per selected url, in the order of
    the selection, whether the visit of the url succeeded or failed: the
    record of a failed visit holds the url and the message of the error
    and nothing else; the urls of the records are pairwise distinct and
    [count] is their number. The script comes to this end whenever the
    browser can be started, opens and closes its pages and is closed. *)
Theorem X17_pages_one_per_url :
  match script env with
  | Wrote p x =>
      ∃ urls,
        selectUrls env = Returns urls ∧
        List.map url (pages p) = urls ∧
        count p = length urls ∧
        NoDup (List.map url (pages p)) ∧
        (∀ i u, urls !! i = Some u →
           pages p !! i
           = Some (match visit env u with
                   | Returns v => visitedInfo env u v
                   | Throws message => failedInfo u message
                   end))
  | Exited code => code = 1%Z ∧ TARGET_URL env = ""
  | Crashed e => truthy (TARGET_URL env) = true
  end ∧
  (browserWorks env → truthy (TARGET_URL env) = true →
   ∀ urls, selectUrls env = Returns urls → ∃ p x, script env = Wrote p x).
Proof.
  split; [|intros Hb Ht urls; by apply script_works].
  destruct (script env) as [code|e|p x] eqn:Hs.
  - revert Hs. unfold script. destruct (TARGET_URL env) as [|c t]; simpl.
    + by intros [= <-].
    + destruct (selectUrls env); [|done]. destruct (setUp env); [|done].
      destruct (visitAll env _ _) as [[]|]; [|done].
      by destruct (browserClose env).
  - revert Hs. unfold script. by destruct (TARGET_URL env).
  - apply script_wrote in Hs as (urls & Hurls & Hpages & Hcount & _).
    exists urls. rewrite Hpages, urls_infoOf. split_and!; try done.
    + by apply NoDup_selectUrls.
    + intros i u Hu. change (List.map (infoOf env) urls) with (infoOf env <$> urls).
      by rewrite list_lookup_fmap, Hu.
Qed.

Lemma countersOf_cons (u : string) (urls : list string) (c : Counters) :
  countersOf env (u :: urls) c
  = countersOf env urls (match visit env u with
                         | Returns v => bump c (data v)
                         | Throws _ => c
                         end).
Proof. done. Qed.

Lemma infoOf_cons (u : string) (urls : list string) :
  List.map (infoOf env) (u :: urls)
  = match visit env u with
    | Returns v => visitedInfo env u v
    | Throws message => failedInfo u message
    end :: List.map (infoOf env) urls.
Proof. done. Qed.

Lemma counters_sums (urls : list string) (c : Counters) :
  let ps := List.map (infoOf env) urls in
  missingTitleCount (countersOf env urls c)
  = missingTitleCount c + countPages (λ i, default false (missingTitle i)) ps ∧
  multiH1Count (countersOf env urls c)
  = multiH1Count c
    + countPages (λ i, match h1Count i with
                       | Some n => (1 <? n)%nat
                       | None => false
                       end) ps ∧
  imagesMissingAltCount (countersOf env urls c)
  = imagesMissingAltCount c + total imagesMissingAlt ps ∧
  buttonsMissingLabelCount (countersOf env urls c)
  = buttonsMissingLabelCount c + total buttonsMissingLabel ps.
Proof.
  cbv zeta. revert c. induction urls as [|u urls IH]; intros c.
  - unfold countPages, total. simpl. lia.
  - rewrite countersOf_cons, infoOf_cons.
    destruct (IH (match visit env u with
                  | Returns v => bump c (data v)
                  | Throws _ => c
                  end)) as (H1 & H2 & H3 & H4).
    rewrite H1, H2, H3, H4. clear H1 H2 H3 H4 IH.
    unfold countPages, total in *.
    destruct (visit env u) as [v|e]; cbn [List.filter omap list_omap sum_list
      failedInfo visitedInfo missingTitle h1Count imagesMissingAlt
      buttonsMissingLabel default from_option id bump missingTitleCount multiH1Count
      imagesMissingAltCount buttonsMissingLabelCount].
    + destruct (d_missingTitle (data v)), (1 <? d_h1Count (data v))%nat;
        cbn [length sum_list_with]; lia.
    + lia.
Qed.

Lemma countPages_le (test : PageInfo → bool) (ps : list PageInfo) :
  countPages test ps ≤ length ps.
Proof. unfold countPages. apply sublist_length, sublist_filter_bool. Qed.

(** X18: the counts of [ux_checks.json] are taken over the records of
    [pages.json]: the number of pages without a title and of pages with
    several main headings, which the number of pages bounds, and the sums
    of the images without a text and of the buttons without a label; the
    record of a failed visit has none of these fields and adds nothing. *)
Theorem X18_ux_counts_sums :
  match script env with
  | Wrote p x =>
      missingTitleCount (counts x)
      = countPages (λ i, default false (missingTitle i)) (pages p) ∧
      multiH1Count (counts x)
      = countPages (λ i, match h1Count i with
                         | Some n => (1 <? n)%nat
                         | None => false
                         end) (pages p) ∧
      imagesMissingAltCount (counts x) = total imagesMissingAlt (pages p) ∧
      buttonsMissingLabelCount (counts x) = total buttonsMissingLabel (pages p) ∧
      missingTitleCount (counts x) ≤ count p ∧
      multiH1Count (counts x) ≤ count p ∧
      (∀ info, info ∈ pages p → is_Some (error info) →
         missingTitle info = None ∧ h1Count info = None ∧
         imagesMissingAlt info = None ∧ buttonsMissingLabel info = None)
  | _ => True
  end.
Proof.
  destruct (script env) as [code|e|p x] eqn:Hs; [done | done |].
  apply script_wrote in Hs as (urls & Hurls & Hpages & Hcount & Hcounts & _).
  destruct (counters_sums urls noCounts) as (H1 & H2 & H3 & H4).
  rewrite Hcounts, Hpages, Hcount, H1, H2, H3, H4. cbn [noCounts missingTitleCount
    multiH1Count imagesMissingAltCount buttonsMissingLabelCount].
  split_and!; try done.
  - rewrite <- (length_map (infoOf env) urls). apply countPages_le.
  - rewrite <- (length_map (infoOf env) urls). apply countPages_le.
  - intros info Hin [e He].
    apply list_elem_of_In, in_map_iff in Hin as (u & <- & _).
    unfold infoOf in *. by destruct (visit env u).
Qed.

Lemma verdict_link (link : string) (b : BrokenLink) :
  verdict env link = Some b →
  link_url b = link ∧ (status b = 0 ∨ 400 ≤ status b)%Z.
Proof.
  unfold verdict. destruct (headStatus env link) as [s|e].
  - destruct (400 <=? s)%Z eqn:Hs; [|done]. intros [= <-]. simpl.
    split; [done |]. right. by apply Z.leb_le.
  - destruct (getStatus env link) as [s|e'].
    + destruct (400 <=? s)%Z eqn:Hs; [|done]. intros [= <-]. simpl.
      split; [done |]. right. by apply Z.leb_le.
    + intros [= <-]. simpl. by split; [|left].
Qed.

Lemma verdicts_sublist (links : list string) :
  List.map link_url (omap (verdict env) links) `sublist_of` links.
Proof.
  induction links as [|l links IH]; [done |]. cbn [omap list_omap].
  destruct (verdict env l) as [b|] eqn:Hb.
  - apply verdict_link in Hb as [<- _]. simpl. by apply sublist_skip.
  - by apply sublist_cons.
Qed.

Lemma elem_of_sampleSet (ps : list PageInfo) (link : string) :
  link ∈ sampleSet ps →
  startsWith link "http" = true ∧
  ∃ info ls, info ∈ ps ∧ links info = Some ls ∧ link ∈ ls.
Proof.
  unfold sampleSet, slice0. intros Hin.
  apply (elem_of_prefix _ _ _ (prefix_take _ _)) in Hin.
  rewrite elem_of_Set_of, elem_of_filter_bool in Hin. destruct Hin as [Hin Hs].
  split; [done |]. apply list_elem_of_In, in_flat_map in Hin as (info & Hinfo & Hl).
  destruct (links info) as [ls|] eqn:Hls; [|done].
  exists info, ls. by rewrite !list_elem_of_In.
Qed.

Lemma NoDup_sampleSet (ps : list PageInfo) :
  NoDup (sampleSet ps) ∧ length (sampleSet ps) ≤ 30.
Proof.
  unfold sampleSet, slice0. split.
  - eapply NoDup_prefix; [apply prefix_take | apply NoDup_Set_of].
  - rewrite length_take. lia.
Qed.

(** X19: the broken links of [ux_checks.json]: at most thirty, no link
    twice, each an absolute link of a visited page that starts with
    [http], reported with a status of 400 or more or with the status 0;
    a sampled link is reported exactly when the check of it says so: its
    [HEAD] request is answered with 400 or more, or fails and its [GET]
    request is answered with 400 or more or fails too. *)
Theorem X19_brokenLinks_sample :
  match script env with
  | Wrote p x =>
      brokenLinksCount x = length (brokenLinks x) ∧
      length (brokenLinks x) ≤ 30 ∧
      NoDup (List.map link_url (brokenLinks x)) ∧
      (∀ b, b ∈ brokenLinks x →
         (status b = 0 ∨ 400 ≤ status b)%Z ∧
         startsWith (link_url b) "http" = true ∧
         ∃ info ls, info ∈ pages p ∧ links info = Some ls ∧ link_url b ∈ ls) ∧
      (∀ b, b ∈ brokenLinks x ↔
         ∃ link, link ∈ sampleSet (pages p) ∧ verdict env link = Some b) ∧
      (∀ link s, headStatus env link = Returns s → (s < 400)%Z →
         link ∉ List.map link_url (brokenLinks x))
  | _ => True
  end.
Proof.
  destruct (script env) as [code|e|p x] eqn:Hs; [done | done |].
  apply script_wrote in Hs as (urls & _ & _ & _ & _ & Hbroken & Hcount).
  rewrite Hcount, Hbroken. clear Hbroken Hcount.
  destruct (NoDup_sampleSet (pages p)) as [Hnd Hlen].
  assert (∀ b, b ∈ omap (verdict env) (sampleSet (pages p)) ↔
               ∃ link, link ∈ sampleSet (pages p) ∧ verdict env link = Some b)
    as Hiff by (intros b; apply list_elem_of_omap).
  split_and!.
  - done.
  - etrans; [|exact Hlen].
    rewrite <- (length_map link_url). apply sublist_length, verdicts_sublist.
  - eapply sublist_NoDup; [exact Hnd | apply verdicts_sublist].
  - intros b (link & Hin & Hb)%Hiff.
    apply verdict_link in Hb as [<- Hst]. split; [done |].
    by apply elem_of_sampleSet.
  - done.
  - intros link s Hhead Hs (b & Hl & Hin)%(list_elem_of_fmap_1 link_url).
    apply Hiff in Hin as (link' & _ & Hb).
    pose proof (verdict_link _ _ Hb) as [Heq _].
    assert (link' = link) as -> by congruence.
    revert Hb. unfold verdict. rewrite Hhead.
    assert ((400 <=? s)%Z = false) as -> by (apply Z.leb_gt; lia). done.
Qed.

End WithEnv.

(** X20: after the discovery, the script visits the urls of the artifact
    the discovery wrote, in their order and up to [maxPages] of them, and
    the target alone where the artifact holds no url; after a fallback
    that is the target. Where the target is no url, the script fails. *)
Theorem X20_selectUrls_after_discovery (denv : RunDiscovery.Env) (env : Env)
    (a : RunDiscovery.UrlsArtifact) :
  TARGET_URL env = RunDiscovery.TARGET_URL denv →
  urlOrigin env = RunDiscovery.urlOrigin denv →
  a ∈ RunDiscovery.written (RunDiscovery.trace (RunDiscovery.run denv).2) →
  urlsFile env = Some (Returns (List.map RunDiscovery.url (RunDiscovery.urls a))) →
  selectUrls env
  = match urlOrigin env (TARGET_URL env) with
    | None => Throws "Invalid URL"
    | Some _ =>
        Returns (sliceTo (maxPages env)
                   (if BuildFlow.nonEmpty (RunDiscovery.urls a)
                    then List.map RunDiscovery.url (RunDiscovery.urls a)
                    else [TARGET_URL env]))
    end.
Proof.
  intros Htarget Horigin Hwritten Hfile.
  rewrite selectUrls_run, Hfile. cbn [readJson].
  destruct (urlOrigin env (TARGET_URL env)) as [origin|] eqn:Ho; [|done].
  do 2 f_equal. rewrite nonEmpty_map.
  assert (sameOrigin (urlOrigin env) origin (TARGET_URL env) = true) as Hsame
    by by apply sameOrigin_true.
  apply RunDiscoveryFacts.elem_of_written, RunDiscoveryFacts.written_artifact
    in Hwritten as [(reason & _ & Ha)|(found & Hfound & Ha)].
  - rewrite Ha. cbn [RunDiscovery.urls RunDiscovery.fallbackArtifact
      BuildFlow.nonEmpty List.map RunDiscovery.url List.filter].
    by rewrite <- Htarget, Hsame.
  - destruct Hfound as (core & spider & origin' & _ & _ & Ho' & ->).
    rewrite <- Horigin, <- Htarget, Ho in Ho'. injection Ho' as <-.
    rewrite Ha, RunDiscoveryFacts.urls_successArtifact.
    cbn [fst snd RunDiscovery.urls RunDiscovery.successArtifact].
    rewrite nonEmpty_map.
    assert (RunDiscovery.hasOrigin denv origin = sameOrigin (urlOrigin env) origin)
      as -> by by rewrite Horigin.
    set (all := RunDiscovery.allUrls core spider).
    destruct (BuildFlow.nonEmpty (List.filter (sameOrigin (urlOrigin env) origin) all))
      eqn:Hne.
    + rewrite filter_all.
      * apply Set_of_NoDup. eapply sublist_NoDup; [|apply sublist_filter_bool].
        apply NoDup_Set_of.
      * intros x Hx. by apply elem_of_filter_bool in Hx as [_ ?].
    + cbn [List.filter]. by rewrite Hsame.
Qed.

Lemma X20_witness :
  RunDiscovery.successWritten
    ∈ RunDiscovery.written
        (RunDiscovery.trace (RunDiscovery.run RunDiscovery.successEnv).2) ∧
  selectUrls exampleEnv
  = Returns ["https://example.com/"; "https://example.com/login";
             "https://example.com/cart"].
Proof.
  assert (RunDiscovery.successWritten
            ∈ RunDiscovery.written
                (RunDiscovery.trace (RunDiscovery.run RunDiscovery.successEnv).2))
    as Hwritten by (vm_compute; apply list_elem_of_here).
  split; [exact Hwritten |].
  by rewrite (X20_selectUrls_after_discovery RunDiscovery.successEnv exampleEnv
                RunDiscovery.successWritten eq_refl eq_refl Hwritten eq_refl).
Defined.

Lemma urls_toPageContext (ps : list PageInfo) :
  List.map BuildFlow.url (List.map toPageContext ps) = List.map url ps.
Proof. induction ps as [|p ps IH]; [done |]. simpl. by rewrite IH. Qed.

Lemma own_tag_member (tag : BuildFlow.PageContext → bool)
    (flowPages : list BuildFlow.PageContext) (i : nat) (page : BuildFlow.PageContext) :
  NoDup (List.map BuildFlow.url flowPages) → flowPages !! i = Some page →
  BuildFlow.mkNode i page
    ∈ List.filter (λ node, has (Set_of (List.map BuildFlow.url (List.filter tag flowPages)))
                             (BuildFlow.node_url node))
        (BuildFlow.buildNodes flowPages)
  ↔ tag page = true.
Proof.
  intros Hnd Hpage.
  rewrite BuildFlowFacts.elem_of_members, BuildFlowFacts.has_tagged.
  cbn [BuildFlow.node_url BuildFlow.mkNode].
  rewrite (BuildFlowFacts.urlTagged_own_tag tag flowPages i page Hnd Hpage).
  split; [by intros [_ ?] |]. intros Htag. split; [|done].
  apply BuildFlowFacts.elem_of_buildNodes. by exists i, page.
Qed.

(** X21: the diagram of the pages the script wrote: one node per visited
    url, no two pages with one url, so that the node of a page is in the
    Auth, Checkout or Account group exactly when the page itself carries
    the tag; a page on which a login was detected, by a password field or
    by its final url, is in the Auth group whatever its own url, and the
    node of a page whose visit failed is labelled with its url. *)
Theorem X21_flow_of_visited_pages (env : Env) (target generated : string) :
  match script env with
  | Wrote p x =>
      let flowPages := List.map toPageContext (pages p) in
      let a := BuildFlow.buildFlowArtifacts target flowPages
                 (Some (toUxCounts x)) generated in
      BuildFlow.nodeCount (BuildFlow.flowMeta a) = count p ∧
      NoDup (List.map BuildFlow.url flowPages) ∧
      (∀ i info, pages p !! i = Some info →
         let node := BuildFlow.mkNode i (toPageContext info) in
         (node ∈ BuildFlow.authMembers flowPages ↔
          BuildFlow.isLogin (toPageContext info) = true) ∧
         (node ∈ BuildFlow.checkoutMembers flowPages ↔
          BuildFlow.isCheckout (toPageContext info) = true) ∧
         (node ∈ BuildFlow.accountMembers flowPages ↔
          BuildFlow.isAccount (toPageContext info) = true) ∧
         (loginDetected info = Some true → node ∈ BuildFlow.authMembers flowPages) ∧
         (is_Some (error info) →
          BuildFlow.label node = replaceQuotes (url info)))
  | _ => True
  end.
Proof.
  destruct (script env) as [code|e|p x] eqn:Hs; [done | done |].
  apply script_wrote in Hs as (urls & Hurls & Hpages & Hcount & _).
  cbv zeta. cbn [BuildFlow.nodeCount BuildFlow.flowMeta BuildFlow.buildFlowArtifacts].
  assert (NoDup (List.map BuildFlow.url (List.map toPageContext (pages p)))) as Hnd.
  { rewrite urls_toPageContext, Hpages, urls_infoOf. by eapply NoDup_selectUrls. }
  split_and!.
  - by rewrite BuildFlowFacts.length_buildNodes, length_map, Hcount, Hpages, length_map.
  - done.
  - intros i info Hinfo.
    assert (List.map toPageContext (pages p) !! i = Some (toPageContext info)) as Hpage.
    { change (List.map toPageContext (pages p)) with (toPageContext <$> pages p).
      by rewrite list_lookup_fmap, Hinfo. }
    unfold BuildFlow.authMembers, BuildFlow.checkoutMembers, BuildFlow.accountMembers,
      BuildFlow.loginSet, BuildFlow.checkoutSet, BuildFlow.accountSet,
      BuildFlow.loginPages, BuildFlow.checkoutPages, BuildFlow.accountPages.
    rewrite !(own_tag_member _ _ i (toPageContext info) Hnd Hpage).
    split_and!; try done.
    + intros Hlogin. unfold BuildFlow.isLogin. cbn [toPageContext BuildFlow.loginDetected].
      rewrite Hlogin. simpl. by rewrite orb_true_r.
    + intros [e He]. rewrite Hpages in Hinfo.
      change (List.map (infoOf env) urls) with (infoOf env <$> urls) in Hinfo.
      rewrite list_lookup_fmap in Hinfo.
      destruct (urls !! i) as [u|]; [|done]. injection Hinfo as <-.
      unfold infoOf in *. destruct (visit env u); [done |].
      reflexivity.
Qed.

End RunPlaywrightFacts.

(** ** The order of the effects of the discovery *)

Module DiscoveryOrderFacts.
Import Js RunDiscovery DiscoveryOrder JsFacts JsTextFacts RunDiscoveryFacts.

Lemma scan_afterReady (env : Env) (h : string) :
  scan env h
  = (ready ← waitReady env 90 0;
     (if ready : bool then mret tt else throw "ZAP API did not become ready.");;
     afterReady env h).
Proof. reflexivity. Qed.

Lemma countEvents_app (test : Event → bool) (t t' : list Event) :
  countEvents test (t ++ t') = countEvents test t + countEvents test t'.
Proof. unfold countEvents. by rewrite List.filter_app, length_app. Qed.

Lemma countEvents_none (test : Event → bool) (Q : Event → bool) (t : list Event) :
  (∀ ev, Q ev = true → test ev = false) →
  Forall (λ ev, Q ev = true) t → countEvents test t = 0.
Proof.
  intros HQ. induction 1 as [|ev t Hev Ht IH]; [done |].
  unfold countEvents in *. simpl. by rewrite (HQ ev Hev).
Qed.

(** The readiness loop: it returns, and it sends at most [budget] version
    requests, each failed one followed by one pause of a second. *)
Lemma waitReady_run (env : Env) (budget attempt : nat) (s : State) :
  ∃ b evs,
    waitReady env budget attempt s
    = (Done b, {| trace := trace s ++ evs; containerStarted := containerStarted s |}) ∧
    Forall (λ ev, probeEvent ev = true) evs ∧
    countEvents isVersionRequest evs ≤ budget ∧
    countEvents isProbePause evs ≤ countEvents isVersionRequest evs.
Proof.
  revert attempt s. induction budget as [|budget IH]; intros attempt s.
  - exists false, []. rewrite app_nil_r. by destruct s.
  - cbn [waitReady]. unfold mbind, M_bind, emit. cbn [trace containerStarted].
    destruct (IH (S attempt)
                {| trace := (trace s ++ [Fetch Version]) ++ [Sleep 1000];
                   containerStarted := containerStarted s |})
      as (b & evs & Hrun & Hall & Hn & Hp).
    cbn [trace containerStarted] in Hrun.
    assert (Forall (λ ev, probeEvent ev = true) ([Fetch Version; Sleep 1000] ++ evs) ∧
            countEvents isVersionRequest ([Fetch Version; Sleep 1000] ++ evs) ≤ S budget ∧
            countEvents isProbePause ([Fetch Version; Sleep 1000] ++ evs)
            ≤ countEvents isVersionRequest ([Fetch Version; Sleep 1000] ++ evs)) as Hrest.
    { split_and!.
      - by repeat constructor.
      - rewrite countEvents_app. unfold countEvents at 1. simpl. lia.
      - rewrite !countEvents_app. unfold countEvents at 1 3. simpl. lia. }
    destruct (versionProbe env attempt) as [[|]|e].
    + exists true, [Fetch Version]. split; [done |]. split_and!.
      * by repeat constructor.
      * unfold countEvents. simpl. lia.
      * unfold countEvents. simpl. lia.
    + exists b, ([Fetch Version; Sleep 1000] ++ evs).
      unfold mbind, M_bind, emit. cbn [trace containerStarted].
      rewrite Hrun, <- !app_assoc. done.
    + exists b, ([Fetch Version; Sleep 1000] ++ evs).
      unfold mbind, M_bind, emit. cbn [trace containerStarted].
      rewrite Hrun, <- !app_assoc. done.
Qed.

Section AfterReady.
Variable env : Env.
Variable h : string.
Variable Q : Event → Prop.
Hypothesis Hpause : ∀ ms, ms = 2000 ∨ ms = 3000 → Q (Sleep ms).
Hypothesis Hrule : truthy h = true → Q (Fetch (AddRule h)).
Hypothesis Hrequest :
  ∀ r, match r with Version | AddRule _ => False | _ => True end → Q (Fetch r).

Lemma order_pollSpider (scanId : string) (polls : list (outcome string)) :
  spec Q any (pollSpider scanId polls).
Proof.
  induction polls as [|o polls IH]; [apply spec_hang |].
  cbn [pollSpider].
  eapply (spec_bind _ any); [apply spec_emit; [apply Hpause; by left | done] |].
  intros _ _. eapply spec_bind; [apply spec_fetch; by apply Hrequest |].
  intros status _. apply spec_if; [by apply spec_ret | apply IH].
Qed.

Lemma order_pollAjax (polls : list (outcome string)) : spec Q any (pollAjax polls).
Proof.
  induction polls as [|o polls IH]; [apply spec_hang |].
  cbn [pollAjax].
  eapply (spec_bind _ any); [apply spec_emit; [apply Hpause; by right | done] |].
  intros _ _. eapply spec_bind; [apply spec_fetch; by apply Hrequest |].
  intros status _. apply spec_if; [by apply spec_ret | apply IH].
Qed.

Lemma order_afterReady : spec Q any (afterReady env h).
Proof.
  unfold afterReady.
  eapply (spec_bind _ any).
  { destruct (truthy h) eqn:Hh; [|by apply spec_ret].
    eapply spec_weaken; [|apply spec_fetch; by apply Hrule]. done. }
  intros _ _. eapply spec_bind; [apply spec_fetch; by apply Hrequest |].
  intros scanId _. eapply (spec_bind _ any); [apply order_pollSpider |].
  intros _ _. eapply (spec_bind _ any).
  { eapply spec_weaken; [|apply spec_fetch; by apply Hrequest]. done. }
  intros _ _. eapply (spec_bind _ any); [apply order_pollAjax |].
  intros _ _. eapply spec_bind; [apply spec_fetch; by apply Hrequest |].
  intros core _. eapply spec_bind; [apply spec_fetch; by apply Hrequest |].
  intros spider _. cbv zeta. eapply (spec_bind _ any).
  { unfold filterSameOrigin.
    destruct (urlOrigin env _); [by apply spec_ret | apply spec_throw]. }
  intros filtered _. by apply spec_ret.
Qed.

End AfterReady.

Lemma keeps_afterReady (env : Env) (h : string) : keeps (afterReady env h).
Proof.
  unfold afterReady.
  apply keeps_bind; [apply keeps_if; [apply keeps_fetch | apply keeps_ret] |].
  intros _. apply keeps_bind; [apply keeps_fetch |].
  intros scanId. apply keeps_bind; [apply keeps_pollSpider |].
  intros _. apply keeps_bind; [apply keeps_fetch |].
  intros _. apply keeps_bind; [apply keeps_pollAjax |].
  intros _. apply keeps_bind; [apply keeps_fetch |].
  intros core. apply keeps_bind; [apply keeps_fetch |].
  intros spider. cbv zeta. apply keeps_bind.
  { unfold filterSameOrigin. destruct (urlOrigin env _); [apply keeps_ret | apply keeps_throw]. }
  intros filtered. apply keeps_ret.
Qed.

Lemma scanEvent_afterReady (env : Env) (h : string) :
  spec (λ ev, scanEvent h ev = true) any (afterReady env h).
Proof.
  apply order_afterReady.
  - by intros ms [-> | ->].
  - intros Hh. simpl. by rewrite Hh, String.eqb_refl.
  - by intros [].
Qed.

Lemma scanAndWrite_events (env : Env) (h : string) (s : State) :
  ∃ r ready rest,
    scanAndWrite env h s
    = (r, {| trace := trace s ++ ready ++ rest;
             containerStarted := containerStarted s |}) ∧
    probes ready ∧ Forall (λ ev, scanEvent h ev = true) rest.
Proof.
  unfold scanAndWrite. rewrite scan_afterReady.
  destruct (waitReady_run env 90 0 s) as (b & ready & Hready & Hprobes).
  unfold mbind at 1 2, M_bind at 1 2. rewrite Hready.
  destruct b.
  - unfold mbind at 1, M_bind at 1. unfold mret, M_ret.
    destruct (framed_run _ (afterReady env h)
                {| trace := trace s ++ ready; containerStarted := containerStarted s |}
                (scanEvent_afterReady env h) (keeps_afterReady env h))
      as (r & evs & Hrun & Hevs).
    cbn [trace containerStarted] in Hrun. rewrite Hrun.
    destruct r as [[all filtered]|e|].
    + rewrite writeJson_run. cbn [trace containerStarted].
      eexists _, ready, (evs ++ [_]). rewrite <- !app_assoc.
      split; [reflexivity |]. split; [done |].
      apply Forall_app. by split; [|repeat constructor].
    + exists (Raised e), ready, evs. by rewrite <- app_assoc.
    + exists Hangs, ready, evs. by rewrite <- app_assoc.
  - unfold mbind, M_bind, throw.
    exists (Raised "ZAP API did not become ready."), ready, [].
    by rewrite app_nil_r.
Qed.

Lemma tryBlock_failed (env : Env) (h e : string) (t : list Event) :
  dockerRun env = Throws e →
  tryBlock env h {| trace := t; containerStarted := false |}
  = (Raised e, {| trace := t ++ [startFailed env]; containerStarted := false |}).
Proof. intros Hrun. unfold tryBlock, execSync. by rewrite Hrun. Qed.

Lemma tryBlock_started (env : Env) (h : string) (t : list Event) :
  dockerRun env = Returns tt →
  tryBlock env h {| trace := t; containerStarted := false |}
  = scanAndWrite env h {| trace := t ++ [engineStart env]; containerStarted := true |}.
Proof. intros Hrun. unfold tryBlock, execSync. by rewrite Hrun. Qed.

Lemma closing_handler (a : UrlsArtifact) (e : string) (ok : bool) :
  Forall (λ ev, closingEvent ev = true) [ConsoleError e; WriteUrls a ok].
Proof. by repeat constructor. Qed.

Lemma scanEvent_handler (h : string) (a : UrlsArtifact) (e : string) (ok : bool) :
  Forall (λ ev, scanEvent h ev = true) [ConsoleError e; WriteUrls a ok].
Proof. by repeat constructor. Qed.

Lemma raised_returns (o : outcome unit) : raised o ≠ Hangs.
Proof. by destruct o. Qed.

(** The [try], [catch] and [finally] blocks of [main] together. *)
Lemma block_events (env : Env) (h : string) (t : list Event) :
  ∃ r c body,
    tryFinally (tryCatch (tryBlock env h) (catchBlock env)) (finallyBlock env)
      {| trace := t; containerStarted := false |}
    = (r, {| trace := t ++ body; containerStarted := c |}) ∧
    blockShape env h r body.
Proof.
  unfold tryFinally, tryCatch.
  destruct (dockerRun env) as [[]|e] eqn:Hrun.
  - rewrite (tryBlock_started env h t Hrun).
    destruct (scanAndWrite_events env h
                {| trace := t ++ [engineStart env]; containerStarted := true |})
      as (r & ready & rest & -> & Hready & Hrest).
    cbn [trace containerStarted]. destruct r as [[]|e|].
    + rewrite finallyBlock_run. cbn [trace containerStarted].
      exists (Done tt), true, (engineStart env :: ready ++ rest ++ [teardown env]).
      split; [by rewrite <- !app_assoc |]. right. right. by exists ready, rest.
    + rewrite catchBlock_run. cbn [trace containerStarted].
      match goal with
      | |- context [[ConsoleError ?m; WriteUrls ?a ?ok]] =>
          set (handler := [ConsoleError m; WriteUrls a ok]);
          assert (Forall (λ ev, scanEvent h ev = true) handler) as Hhandler
            by apply scanEvent_handler
      end.
      clearbody handler.
      destruct (raised _) as [[]|e'|] eqn:Hraised;
        [| |by apply raised_returns in Hraised];
        rewrite finallyBlock_run; cbn [trace containerStarted];
        (eexists _, true, (engineStart env :: ready ++ (rest ++ handler) ++ [teardown env]);
         split; [by rewrite <- !app_assoc |]; right; right;
         exists ready, (rest ++ handler); split_and!; [done..|];
         by apply Forall_app).
    + exists Hangs, true, (engineStart env :: ready ++ rest).
      split; [by rewrite <- !app_assoc |]. right. left. by exists ready, rest.
  - rewrite (tryBlock_failed env h e t Hrun), catchBlock_run.
    cbn [trace containerStarted].
    match goal with
    | |- context [[ConsoleError ?m; WriteUrls ?a ?ok]] =>
        set (handler := [ConsoleError m; WriteUrls a ok]);
        assert (Forall (λ ev, closingEvent ev = true) handler) as Hhandler
          by apply closing_handler
    end.
    clearbody handler.
    destruct (raised _) as [[]|e'|] eqn:Hraised;
      [| |by apply raised_returns in Hraised];
      rewrite finallyBlock_run; cbn [trace containerStarted];
      (eexists _, false, (startFailed env :: handler);
       split; [by rewrite <- !app_assoc |]; left;
       by exists handler).
Qed.

Lemma authPhase_events (env : Env) (s : State) :
  ∃ r evs,
    authPhase env s
    = (r, {| trace := trace s ++ evs; containerStarted := containerStarted s |}) ∧
    Forall (λ ev, hostEvent ev = true) evs ∧ r ≠ Hangs ∧
    ∀ h, r = Done h → headerOrigin env h.
Proof.
  unfold authPhase, headerOrigin, publicCrawl. cbv zeta.
  destruct (AUTHENTICATED env).
  - unfold getAuthCookies. cbv zeta. cbn [negb orb].
    destruct (missing _ || missing _ || missing _ || missing _ || missing _
              || missing _) eqn:Hmissing.
    + exists (Done ""), [ConsoleWarn "Authenticated crawl requested, but required secrets are missing. Falling back to public crawl."].
      split; [reflexivity |].
      split_and!; [by repeat constructor | done |]. intros h [= <-]. by left.
    + unfold mbind, M_bind. destruct (loginSession env) as [cookies|e] eqn:Hlogin.
      * exists (Done (cookieHeaderOf (Some cookies))), []. rewrite app_nil_r.
        split; [by destruct s |]. split_and!; [done | done |].
        intros h [= <-]. right. split; [done |]. by exists cookies.
      * exists (Raised e), []. rewrite app_nil_r.
        split; [by destruct s |]. by split_and!.
  - exists (Done ""), []. rewrite app_nil_r. split; [by destruct s |].
    split_and!; [done | done |]. intros h [= <-]. by left.
Qed.

(** Every run: the events before the [try] block, those of the [try],
    [catch] and [finally] blocks, and those of the handler of [main]. *)
Lemma run_shape (env : Env) :
  ∃ h pre body post,
    trace (run env).2 = pre ++ body ++ post ∧
    Forall (λ ev, hostEvent ev = true) pre ∧
    Forall (λ ev, closingEvent ev = true) post ∧
    headerOrigin env h ∧
    ((body = [] ∧ (run env).1 ≠ Hangs) ∨
     ∃ r, blockShape env h r body ∧ ((run env).1 = Hangs ↔ r = Hangs) ∧
          (r = Hangs → post = []) ∧ dockerInfo env = Returns tt).
Proof.
  rewrite run_unfold, main_unfold.
  destruct (authPhase_events env {| trace := []; containerStarted := false |})
    as (r1 & evs1 & -> & H1 & Hreturns & Horigin).
  cbn [trace containerStarted app].
  destruct r1 as [h|e|]; [| |done].
  - specialize (Horigin h eq_refl).
    destruct (dockerInfo env) as [[]|e] eqn:Hinfo.
    + rewrite (checkRuntime_available env _ Hinfo). cbn [trace containerStarted].
      destruct (block_events env h (evs1 ++ [Exec DockerInfo true]))
        as (r & c & body & -> & Hshape).
      assert (Forall (λ ev, hostEvent ev = true) (evs1 ++ [Exec DockerInfo true]))
        as Hpre by (apply Forall_app; split; [done | by repeat constructor]).
      destruct r as [[]|e|]; cbn [fst snd].
      * exists h, (evs1 ++ [Exec DockerInfo true]), body, [].
        rewrite app_nil_r. split_and!; try done. right. by exists (Done tt).
      * rewrite topHandler_run. cbn [trace containerStarted fst snd].
        eexists h, (evs1 ++ [Exec DockerInfo true]), body, [_; _].
        split; [by rewrite <- !app_assoc |].
        split_and!; [done | apply closing_handler | done |].
        right. exists (Raised e). split_and!; [done | | done | done].
        split; [|done]. intros Hh. by apply raised_returns in Hh.
      * exists h, (evs1 ++ [Exec DockerInfo true]), body, [].
        rewrite app_nil_r. split_and!; try done. right. by exists Hangs.
    + rewrite (checkRuntime_unavailable env e _ Hinfo).
      cbn [trace containerStarted].
      match goal with
      | |- context [[Exec DockerInfo false; ConsoleWarn ?m; WriteUrls ?a ?ok]] =>
          set (probe := [Exec DockerInfo false; ConsoleWarn m; WriteUrls a ok]);
          assert (Forall (λ ev, hostEvent ev = true) probe) as Hprobe
            by by repeat constructor
      end.
      clearbody probe.
      destruct (writeUrls env _) as [[]|e'] eqn:Hwrite; cbn [fst snd].
      * exists h, (evs1 ++ probe), [], []. rewrite !app_nil_r.
        split_and!; [done | by apply Forall_app | done | done |]. by left.
      * rewrite topHandler_run. cbn [trace containerStarted fst snd].
        eexists h, (evs1 ++ probe), [], [_; _].
        split; [reflexivity |].
        split_and!; [by apply Forall_app | apply closing_handler | done |].
        left. split; [done |]. apply raised_returns.
  - cbn [fst snd]. rewrite topHandler_run. cbn [trace containerStarted fst snd].
    eexists "", evs1, [], [_; _]. split; [reflexivity |].
    split_and!; [done | apply closing_handler | by left |].
    left. split; [done |]. apply raised_returns.
Qed.












Lemma count_host (test : Event → bool) (t : list Event) :
  (∀ ev, hostEvent ev = true → test ev = false) →
  Forall (λ ev, hostEvent ev = true) t → countEvents test t = 0.
Proof. apply countEvents_none. Qed.

Lemma closing_host (t : list Event) :
  Forall (λ ev, closingEvent ev = true) t → Forall (λ ev, hostEvent ev = true) t.
Proof. intros H. eapply Forall_impl; [exact H |]. by intros []. Qed.

Lemma countEvents_cons (test : Event → bool) (ev : Event) (t : list Event) :
  countEvents test (ev :: t) = (if test ev then 1 else 0) + countEvents test t.
Proof. unfold countEvents. simpl. by destruct (test ev). Qed.

Lemma countEvents_nil (test : Event → bool) : countEvents test [] = 0.
Proof. done. Qed.

Lemma probe_no_start (ev : Event) : probeEvent ev = true → isStartAttempt ev = false.
Proof. by destruct ev as [| [] | | | |]. Qed.

Lemma scan_no_start (h : string) (ev : Event) :
  scanEvent h ev = true → isStartAttempt ev = false.
Proof. by destruct ev as [| [] | | | |]. Qed.

Lemma scan_no_version (h : string) (ev : Event) :
  scanEvent h ev = true → isVersionRequest ev = false.
Proof. by destruct ev as [| [] | | | |]. Qed.

Lemma scan_no_pause (h : string) (ev : Event) :
  scanEvent h ev = true → isProbePause ev = false.
Proof. destruct ev as [| | ms | | |]; try done. simpl. by intros ->%negb_true_iff. Qed.

Lemma closing_none (ev : Event) :
  closingEvent ev = true →
  isVersionRequest ev = false ∧ isProbePause ev = false ∧ isStartAttempt ev = false.
Proof. by destruct ev. Qed.

Lemma counts_block (env : Env) (h : string) (r : result unit) (body : list Event) :
  blockShape env h r body →
  countEvents isVersionRequest body ≤ 90 ∧
  countEvents isProbePause body ≤ countEvents isVersionRequest body ∧
  countEvents isStartAttempt body = 1.
Proof.
  intros [(handler & -> & Hr & Hh)|[(ready & rest & -> & -> & (Hp & Hn & Hs) & Hrest)
    |(ready & rest & -> & Hr & (Hp & Hn & Hs) & Hrest)]].
  - rewrite !countEvents_cons.
    rewrite !(countEvents_none _ closingEvent handler);
      try done; try (intros ev Hev; by apply closing_none in Hev as (? & ? & ?)).
    unfold startFailed. cbn [isVersionRequest isProbePause isStartAttempt]. lia.
  - rewrite !countEvents_cons, !countEvents_app.
    rewrite (countEvents_none _ _ rest (scan_no_version h) Hrest),
      (countEvents_none _ _ rest (scan_no_pause h) Hrest),
      (countEvents_none _ _ rest (scan_no_start h) Hrest),
      (countEvents_none _ _ ready probe_no_start Hp).
    unfold engineStart. cbn [isVersionRequest isProbePause isStartAttempt]. lia.
  - rewrite !countEvents_cons, !countEvents_app, !countEvents_cons, !countEvents_nil.
    rewrite (countEvents_none _ _ rest (scan_no_version h) Hrest),
      (countEvents_none _ _ rest (scan_no_pause h) Hrest),
      (countEvents_none _ _ rest (scan_no_start h) Hrest),
      (countEvents_none _ _ ready probe_no_start Hp).
    unfold engineStart, teardown.
    cbn [isVersionRequest isProbePause isStartAttempt]. lia.
Qed.

(** X23: a run sends at most ninety version requests to the engine and
    pauses for a second at most once per request, so that it waits at most
    ninety seconds for the engine to become ready; and it tries to start
    the engine at most once. *)
Theorem X23_readiness_budget (env : Env) :
  countEvents isVersionRequest (trace (run env).2) ≤ 90 ∧
  countEvents isProbePause (trace (run env).2)
  ≤ countEvents isVersionRequest (trace (run env).2) ∧
  countEvents isStartAttempt (trace (run env).2) ≤ 1.
Proof.
  destruct (run_shape env) as (h & pre & body & post & -> & Hpre & Hpost & _ & Hbody).
  apply closing_host in Hpost.
  rewrite !countEvents_app.
  rewrite !(count_host _ pre), !(count_host _ post); try done; try (by intros [[]| | | | |]).
  destruct Hbody as [[-> _]|(r & Hshape & _)].
  - unfold countEvents. simpl. lia.
  - destruct (counts_block env h r body Hshape) as (H1 & H2 & H3). lia.
Qed.

Lemma rule_in_block (env : Env) (h h' : string) (r : result unit)
    (body : list Event) :
  blockShape env h r body → Fetch (AddRule h') ∈ body →
  truthy h = true ∧ h' = h.
Proof.
  assert (∀ rest, Forall (λ ev, scanEvent h ev = true) rest →
                  Fetch (AddRule h') ∈ rest → truthy h = true ∧ h' = h) as Hscan.
  { intros rest Hrest Hin. rewrite Forall_forall in Hrest.
    specialize (Hrest _ Hin). simpl in Hrest.
    apply andb_prop in Hrest as [Hh Heq]. by apply String.eqb_eq in Heq. }
  assert (∀ ready, Forall (λ ev, probeEvent ev = true) ready →
                   Fetch (AddRule h') ∉ ready) as Hprobe.
  { intros ready Hready Hin. rewrite Forall_forall in Hready.
    by specialize (Hready _ Hin). }
  intros [(handler & -> & Hr & Hh)|[(ready & rest & -> & -> & (Hp & _) & Hrest)
    |(ready & rest & -> & Hr & (Hp & _) & Hrest)]].
  - intros [Heq|Hin]%elem_of_cons; [done |].
    rewrite Forall_forall in Hh. by specialize (Hh _ Hin).
  - intros [Heq|[Hin|Hin]%elem_of_app]%elem_of_cons; [done | | by eapply Hscan].
    by apply Hprobe in Hin.
  - intros [Heq|[Hin|[Hin|Hin]%elem_of_app]%elem_of_app]%elem_of_cons;
      [done | | by eapply Hscan |].
    + by apply Hprobe in Hin.
    + by apply list_elem_of_singleton in Hin.
Qed.

Lemma rule_in_run (env : Env) (h : string) :
  Fetch (AddRule h) ∈ trace (run env).2 →
  truthy h = true ∧ publicCrawl env = false ∧
  ∃ cookies, loginSession env = Returns cookies ∧ h = cookieHeaderOf (Some cookies).
Proof.
  destruct (run_shape env) as (h0 & pre & body & post & -> & Hpre & Hpost & Ho & Hbody).
  intros [Hin|[Hin|Hin]%elem_of_app]%elem_of_app.
  - rewrite Forall_forall in Hpre. by specialize (Hpre _ Hin).
  - destruct Hbody as [[-> _]|(r & Hshape & _)]; [by apply elem_of_nil in Hin |].
    destruct (rule_in_block env h0 h r body Hshape Hin) as [Htruthy ->].
    destruct Ho as [-> | [Hpublic Hcookies]]; [done |]. done.
  - rewrite Forall_forall in Hpost. by specialize (Hpost _ Hin).
Qed.

(** X24: the rule that hands the cookies to the engine: a public crawl, one
    for which no login is asked or a secret is missing, never sends it;
    a rule that is sent carries the cookies of the login session, a
    non-empty text of [name=value] pairs separated by a semicolon and a
    space. *)
Theorem X24_cookie_rule (env : Env) :
  (publicCrawl env = true → countEvents isAddRule (trace (run env).2) = 0) ∧
  (∀ h, Fetch (AddRule h) ∈ trace (run env).2 →
     truthy h = true ∧ publicCrawl env = false ∧
     ∃ cookies, loginSession env = Returns cookies ∧
                h = cookieHeaderOf (Some cookies)) ∧
  (∀ cookies,
     cookieHeaderOf (Some cookies)
     = join "; " (List.map (λ cookie, name cookie +:+ "=" +:+ value cookie) cookies)).
Proof.
  split_and!.
  - intros Hpublic.
    apply (countEvents_none _ (λ ev, negb (isAddRule ev))).
    + intros ev. by destruct (isAddRule ev).
    + apply Forall_forall. intros ev Hin.
      destruct ev as [| [] | | | |]; try done.
      apply rule_in_run in Hin as (_ & Hnot & _). congruence.
  - apply rule_in_run.
  - by intros [|c cs].
Qed.

(** X25: without the runtime, that is where the probe of it fails, the
    run returns and leaves the engine alone: it does not try to start it,
    sends it no request, does not pause and removes nothing. *)
Theorem X25_no_runtime (env : Env) (e : string) :
  dockerInfo env = Throws e →
  (run env).1 ≠ Hangs ∧
  countEvents isStartAttempt (trace (run env).2) = 0 ∧
  countEvents isRequest (trace (run env).2) = 0 ∧
  countEvents isPause (trace (run env).2) = 0 ∧
  teardowns (trace (run env).2) = [].
Proof.
  intros Hinfo.
  destruct (run_shape env) as (h & pre & body & post & Htrace & Hpre & Hpost & _ & Hbody).
  destruct Hbody as [[-> Hr]|(r & _ & _ & _ & Hok)]; [|congruence].
  assert (Forall (λ ev, hostEvent ev = true) (trace (run env).2)) as Hall.
  { rewrite Htrace. rewrite !Forall_app. split_and!; [done | done |].
    by apply closing_host. }
  split_and!; [done | | | |].
  - apply (countEvents_none _ hostEvent); [by intros [[]| | | | |] | done].
  - apply (countEvents_none _ hostEvent); [by intros [[]| | | | |] | done].
  - apply (countEvents_none _ hostEvent); [by intros [[]| | | | |] | done].
  - apply (countEvents_none isTeardown hostEvent) in Hall; [|by intros [[]| | | | |]].
    unfold countEvents in Hall. unfold teardowns.
    by destruct (List.filter isTeardown (trace (run env).2)).
Qed.

Lemma X25_witness :
  dockerInfo noDockerEnv = Throws "docker: command not found" ∧
  (run noDockerEnv).1 ≠ Hangs ∧
  countEvents isStartAttempt (trace (run noDockerEnv).2) = 0 ∧
  countEvents isRequest (trace (run noDockerEnv).2) = 0 ∧
  countEvents isPause (trace (run noDockerEnv).2) = 0 ∧
  teardowns (trace (run noDockerEnv).2) = [].
Proof.
  split; [reflexivity |].
  by apply (X25_no_runtime noDockerEnv "docker: command not found").
Defined.

End DiscoveryOrderFacts.
